(** * cryptdir: a shallow embedding of the encryption pipeline, the
      manifest (FSDirectory) and the synchronisation engine (CryptDir).

    The development follows the modules of the JavaScript sources:
    - [JS]              the string and array builtins the sources call;
    - [Platform]        what Node.js supplies (hash, gzip, AES, random bytes,
                        path.join, directory listing, collation);
    - [cryptoUtils]     cryptoUtils.mjs;
    - [AttachInitVect]  attachInitVect.mjs;
    - [AESFileCryptor]  aesFileCryptor.mjs;
    - [FSDirectory]     fsDirectory.mjs;
    - [CryptDir]        cryptDir.mjs;
    - [cli]             the action of the two commands of cli.mjs;
    - [stringUtils], [dateTimeUtils], [datedLog]
                        stringUtils.mjs, dateTimeUtils.mjs and the log.mjs
                        that stamps its lines;
    - [Sample], [Scenario]  a platform that can be run, and worlds for
                        the examples.

    Effects (the file system, the console, the random source) are threaded
    through an explicit [World]; an [await] on a promise that is never
    settled stops the calling function, which is what [Unsettled] records. *)

From Stdlib Require Import ZArith Lia Ascii String.
From Stdlib.Strings Require Import Byte.
From stdpp Require Import gmap strings list pretty.

Local Open Scope string_scope.
Set Warnings "-register-all".

(* ================================================================== *)
(** ** JavaScript builtins used by the sources *)
(* ================================================================== *)

Module JS.

(** [s.startsWith(p)]. *)
Definition startsWith (s p : string) : bool := String.prefix p s.

(** [s.slice(n)]: the string without its first [n] characters. *)
Fixpoint slice (n : nat) (s : string) : string :=
  match n, s with
  | O, _ => s
  | S _, EmptyString => EmptyString
  | S k, String _ s' => slice k s'
  end.

(** [s.replace(pat, rep)] with a string pattern: only the first
    occurrence of [pat], searched from the left, is replaced. *)
Fixpoint replace (pat rep s : string) : string :=
  if String.prefix pat s then rep +:+ slice (String.length pat) s
  else match s with
       | EmptyString => EmptyString
       | String c s' => String c (replace pat rep s')
       end.

(** [s.replaceAll(pat, rep)] with a non-empty string pattern: every
    non-overlapping occurrence, from the left. [skip] counts the characters
    of a matched occurrence that are still to be dropped. *)
Fixpoint replaceAll_from (skip : nat) (pat rep s : string) : string :=
  match s with
  | EmptyString => EmptyString
  | String c s' =>
      match skip with
      | S k => replaceAll_from k pat rep s'
      | O => if String.prefix pat s
             then rep +:+ replaceAll_from (String.length pat - 1) pat rep s'
             else String c (replaceAll_from O pat rep s')
      end
  end.

Definition replaceAll (pat rep s : string) : string :=
  replaceAll_from O pat rep s.

(** [toUpperCase] on the ASCII letters (the identifiers it is applied to
    are hexadecimal text). *)
Definition upper (c : ascii) : ascii :=
  let n := nat_of_ascii c in
  if (97 <=? n)%nat && (n <=? 122)%nat then ascii_of_nat (n - 32) else c.

Fixpoint toUpperCase (s : string) : string :=
  match s with
  | EmptyString => EmptyString
  | String c s' => String (upper c) (toUpperCase s')
  end.

(** [chars[i]] rendered by [Array.prototype.join]: a one-character string,
    or the empty string when the index is out of range ([undefined]). *)
Definition charAt (chars : string) (i : nat) : string :=
  match String.get i chars with
  | Some c => String c EmptyString
  | None => EmptyString
  end.

(** [xs.join('')]. *)
Definition join (xs : list string) : string :=
  foldr String.append EmptyString xs.

(** [arr.find(p)]. *)
Fixpoint find {A : Type} (p : A -> bool) (xs : list A) : option A :=
  match xs with
  | [] => None
  | x :: xs' => if p x then Some x else find p xs'
  end.

(** [arr.some(p)]. *)
Fixpoint some {A : Type} (p : A -> bool) (xs : list A) : bool :=
  match xs with
  | [] => false
  | x :: xs' => p x || some p xs'
  end.

(** Truthiness of a string: only the empty string is falsy. *)
Definition truthy (s : string) : bool :=
  match s with EmptyString => false | _ => true end.

(** The characters of a string, as a list. *)
Fixpoint chars (s : string) : list ascii :=
  match s with
  | EmptyString => []
  | String c s' => c :: chars s'
  end.

(** [a === b] on strings and on optional strings ([undefined] is [None]). *)
Definition streq (a b : string) : bool := bool_decide (a = b).
Definition opteq (a b : option string) : bool := bool_decide (a = b).

End JS.

(* ================================================================== *)
(** ** The world the program runs in *)
(* ================================================================== *)

(** A file-system entry: a regular file with its bytes, or a directory. *)
Inductive node : Type :=
| File (content : list byte)
| Directory.

(** What a run leaves behind, in the order it happened. *)
Inductive event : Type :=
| Logged (message : string)       (* log(message) *)
| Wrote (path : string)           (* a write stream on [path] finished *)
| Opened (path : string)          (* createWriteStream(path) created the file *)
| Removed (path : string)         (* fs.rmSync(path) *)
| RemovedTree (path : string)     (* fs.rmSync(path, {recursive, force}) *)
| MadeDir (path : string).        (* fs.mkdirSync(path) *)

(** The file system is a map from full path to node, [journal] lists the
    effects so far (newest last), and [drawn] counts the bytes already taken
    from the random source. Creating a file or a directory adds an entry to
    the map whatever else the map holds; Node.js raises ENOENT when the
    directory the new entry lies in is missing, so the properties about
    restoring a tree say where that directory exists. [Logged] keeps the
    message handed to [log], before the logger adds anything to it. *)
Record World : Type := mkWorld {
  fs : gmap string node;
  journal : list event;
  drawn : nat
}.

(** The outcome of awaiting an asynchronous call: its promise was fulfilled
    with a value, or it never settles (or the call threw) and the caller
    never resumes. *)
Inductive Run (A : Type) : Type :=
| Settled (a : A) (w : World)
| Unsettled (w : World).
Arguments Settled {A} a w.
Arguments Unsettled {A} w.

Definition Async (A : Type) : Type := World -> Run A.

Definition ret {A : Type} (a : A) : Async A := fun w => Settled a w.

Definition await {A B : Type} (m : Async A) (k : A -> Async B) : Async B :=
  fun w => match m w with
           | Settled a w' => k a w'
           | Unsettled w' => Unsettled w'
           end.

Definition never {A : Type} : Async A := fun w => Unsettled w.

Notation "x <- m ;; k" := (await m (fun x => k))
  (at level 100, m at next level, right associativity).
Notation "m ;;; k" := (await m (fun _ => k))
  (at level 100, right associativity).

(** [for (const x of xs) { await body(x) }], threading the loop state. *)
Fixpoint forOf {A S : Type} (body : S -> A -> Async S) (xs : list A) (s : S)
  : Async S :=
  match xs with
  | [] => ret s
  | x :: xs' => s' <- body s x ;; forOf body xs' s'
  end.

Definition final_world {A : Type} (r : Run A) : World :=
  match r with Settled _ w => w | Unsettled w => w end.

Definition record (e : event) : Async unit :=
  fun w => Settled tt (mkWorld (fs w) (journal w ++ [e]) (drawn w)).

Definition log (message : string) : Async unit := record (Logged message).

Definition existsSync (path : string) : Async bool :=
  fun w => Settled (bool_decide (is_Some (fs w !! path))) w.

Definition readFile (path : string) : Async (option (list byte)) :=
  fun w => Settled (match fs w !! path with
                    | Some (File c) => Some c
                    | _ => None
                    end) w.

(** A write stream on [path] that received [content] and finished. *)
Definition writeFile (path : string) (content : list byte) : Async unit :=
  fun w => Settled tt
    (mkWorld (<[path := File content]> (fs w)) (journal w ++ [Wrote path]) (drawn w)).

(** [createWriteStream(path)]: the file is created, or truncated. *)
Definition openFile (path : string) : Async unit :=
  fun w => Settled tt
    (mkWorld (<[path := File []]> (fs w)) (journal w ++ [Opened path]) (drawn w)).

(** A write stream on [path] that received [content] and was never ended. *)
Definition pourFile (path : string) (content : list byte) : Async unit :=
  fun w => Settled tt
    (mkWorld (<[path := File content]> (fs w)) (journal w) (drawn w)).

Definition mkdirSync (path : string) : Async unit :=
  fun w => Settled tt
    (mkWorld (<[path := Directory]> (fs w)) (journal w ++ [MadeDir path]) (drawn w)).

Definition rmSync (path : string) : Async unit :=
  fun w => Settled tt
    (mkWorld (delete path (fs w)) (journal w ++ [Removed path]) (drawn w)).


(* ================================================================== *)
(** ** What Node.js supplies *)
(* ================================================================== *)

(** The output of a stream stage: it ended after emitting [out], or it
    raised 'error' after emitting [out]. *)
Inductive piped : Type :=
| Ended (out : list byte)
| Errored (out : list byte).

(** An entry of [fs.readdirSync(dir, { recursive, withFileTypes })]. *)
Record fs_Dirent : Type := mkDirent {
  name : string;
  parentPath : string;       (* dirent.path *)
  isDirectory : bool
}.

Class Platform : Type := {
  (** the i-th byte the operating system's random source hands out *)
  csprng : nat -> byte;
  (** crypto.createHash('sha256').update(data).digest() *)
  sha256 : list byte -> list byte;
  (** zlib.createGzip() and zlib.createUnzip(), over a whole stream *)
  gzip : list byte -> list byte;
  unzip : list byte -> piped;
  (** crypto.createCipheriv('aes256', key, iv) and createDecipheriv *)
  cipher : list byte -> list byte -> list byte -> list byte;
  decipher : list byte -> list byte -> list byte -> piped;
  (** how a stage cuts the bytes it emits into chunks *)
  chunked : list byte -> list (list byte);
  (** path.join(a, b), path.sep and path.dirname(p) *)
  path_join : string -> string -> string;
  path_sep : string;
  path_dirname : string -> string;
  (** fs.readdirSync(dir, { recursive: true, withFileTypes: true }) *)
  readdirSync : gmap string node -> string -> list fs_Dirent;
  (** xs.sort((a, b) => key(a).localeCompare(key(b), undefined,
      { numeric: true, sensitivity: 'base' })) *)
  localeSort : (fs_Dirent -> string) -> list fs_Dirent -> list fs_Dirent
}.

(** The facts about the Node.js primitives that the round trip rests on. *)
Class PlatformLaws (P : Platform) : Prop := {
  unzip_gzip : forall data, unzip (gzip data) = Ended data;
  decipher_cipher : forall key iv data,
      decipher key iv (cipher key iv data) = Ended data;
  (** CBC with padding always emits at least one block *)
  cipher_nonempty : forall key iv data, cipher key iv data <> [];
  chunked_concat : forall data, concat (chunked data) = data
}.

(** [fs.rmSync(path, { recursive: true, force: true })]: the entry and
    everything below it. *)
Definition rmSyncRec `{Platform} (path : string) : Async unit :=
  fun w => Settled tt
    (mkWorld (delete path
                (filter (fun kv => JS.startsWith (fst kv) (path +:+ path_sep) = false)
                        (fs w)))
             (journal w ++ [RemovedTree path]) (drawn w)).

(** [crypto.randomBytes(n)] / [randomFillSync]: the next [n] bytes of the
    random source. *)
Definition randomBytes `{Platform} (n : nat) : Async (list byte) :=
  fun w => Settled (map csprng (seq (drawn w) n))
                   (mkWorld (fs w) (journal w) (drawn w + n)).

(** Wrap an integer to one byte, as a typed array does on assignment. *)
Definition byte_of_Z (z : Z) : byte :=
  match Byte.of_N (Z.to_N (z mod 256)) with
  | Some b => b
  | None => x00
  end.

Definition Z_of_byte (b : byte) : Z := Z.of_N (Byte.to_N b).

(** Lower-case hexadecimal text of a buffer ([digest('hex')], byteToHex). *)
Definition hexDigit (n : Z) : ascii :=
  match String.get (Z.to_nat n) "0123456789abcdef" with
  | Some c => c
  | None => "0"%char
  end.

Definition hexByte (b : byte) : string :=
  String (hexDigit (Z.shiftr (Z_of_byte b) 4))
         (String (hexDigit (Z.land (Z_of_byte b) 15)) EmptyString).

Definition hex (bs : list byte) : string := JS.join (map hexByte bs).

(* ================================================================== *)
(** ** cryptoUtils.mjs *)
(* ================================================================== *)

Module cryptoUtils.

(** [defaultChars]: the default password characters. *)
Definition defaultChars : string :=
  "0123456789ABCDEFGHIJKLMNOPQRSTUVWXYZabcdefghijklmnopqrstuvwxyz!$%&?".

(** [NIL] of the uuid package. *)
Definition NIL_UUID : string := "00000000-0000-0000-0000-000000000000".

(** The elements of a [Uint32Array] laid over a byte buffer (little endian). *)
Fixpoint uint32s (bs : list byte) : list Z :=
  match bs with
  | b0 :: b1 :: b2 :: b3 :: rest =>
      (Z_of_byte b0 + 256 * Z_of_byte b1 + 65536 * Z_of_byte b2
       + 16777216 * Z_of_byte b3)%Z :: uint32s rest
  | _ => []
  end.

(** [unsafeStringify] of the uuid package: 8-4-4-4-12 hexadecimal digits. *)
Definition stringify (rnds : list byte) : string :=
  hex (take 4 rnds) +:+ "-" +:+ hex (take 2 (drop 4 rnds)) +:+ "-"
  +:+ hex (take 2 (drop 6 rnds)) +:+ "-" +:+ hex (take 2 (drop 8 rnds)) +:+ "-"
  +:+ hex (take 6 (drop 10 rnds)).

(** The version and variant bits a version-4 identifier carries (RFC 4122,
    section 4.4): [rnds[6] = (rnds[6] & 0x0f) | 0x40] and
    [rnds[8] = (rnds[8] & 0x3f) | 0x80]. *)
Definition v4bits (rnds : list byte) : list byte :=
  alter (fun b => byte_of_Z (Z.lor (Z.land (Z_of_byte b) 63) 128)) 8
    (alter (fun b => byte_of_Z (Z.lor (Z.land (Z_of_byte b) 15) 64)) 6 rnds).

Section WithPlatform.
Context `{P : Platform}.

(** [calcFileHash(fileName)]: the hexadecimal SHA-256 digest of the file.
    Opening a path that is not a regular file raises an unhandled 'error'
    event, so the promise is never fulfilled. *)
Definition calcFileHash (fileName : string) : Async string :=
  data <- readFile fileName ;;
  match data with
  | Some bytes => ret (hex (sha256 bytes))
  | None => never
  end.

(** [generatePwd(length = 48, chars = defaultChars)]. *)
Definition generatePwd (length : nat) (chars : string) : Async string :=
  buffer <- randomBytes (4 * length) ;;
  ret (JS.join (map (fun x => JS.charAt chars
                       (Z.to_nat (x mod Z.of_nat (String.length chars))))
                    (uint32s buffer))).

(** [v4()] of the uuid package, which is not part of the sources: sixteen
    random bytes with the version and variant bits of RFC 4122 set, as text.
    The package takes the bytes from a pool it refills from the random
    source; here they are the next sixteen bytes of the source, so the count
    of bytes drawn is that of this model, not of the package. *)
Definition uuidv4 : Async string :=
  rnds <- randomBytes 16 ;;
  ret (stringify (v4bits rnds)).

(** [getUuid(value)]: [(value || uuidv4()).replaceAll('-', '').toUpperCase()]. *)
Definition getUuid (value : option string) : Async string :=
  text <- match value with
          | Some v => if JS.truthy v then ret v else uuidv4
          | None => uuidv4
          end ;;
  ret (JS.toUpperCase (JS.replaceAll "-" "" text)).

(** [getNilUuid()]. *)
Definition getNilUuid : Async string := getUuid (Some NIL_UUID).

End WithPlatform.
End cryptoUtils.

(* ================================================================== *)
(** ** JSON.stringify and JSON.parse *)
(* ================================================================== *)

Module JSON.

(** JSON values; a number keeps its literal text. *)
Inductive value : Type :=
| Null
| Bool (b : bool)
| Num (literal : string)
| Str (s : string)
| Arr (items : list value)
| Obj (members : list (string * value)).

Definition hex4 (n : nat) : string :=
  "00" +:+ String (hexDigit (Z.of_nat (n / 16)))
                  (String (hexDigit (Z.of_nat (n mod 16))) EmptyString).

(** The escape of one character inside a quoted string. *)
Definition escape (c : ascii) : string :=
  let n := nat_of_ascii c in
  if (n =? 34)%nat then String (ascii_of_nat 92) (String c EmptyString)
  else if (n =? 92)%nat then String c (String c EmptyString)
  else if (n =? 8)%nat then "\b"
  else if (n =? 12)%nat then "\f"
  else if (n =? 10)%nat then "\n"
  else if (n =? 13)%nat then "\r"
  else if (n =? 9)%nat then "\t"
  else if (n <? 32)%nat then "\u" +:+ hex4 n
  else String c EmptyString.

Fixpoint escaped (s : string) : string :=
  match s with
  | EmptyString => EmptyString
  | String c s' => escape c +:+ escaped s'
  end.

Definition quote (s : string) : string :=
  String (ascii_of_nat 34) (escaped s) +:+ String (ascii_of_nat 34) EmptyString.

(** [JSON.stringify(v)], without indentation. *)
Fixpoint stringify (v : value) : string :=
  match v with
  | Null => "null"
  | Bool true => "true"
  | Bool false => "false"
  | Num literal => literal
  | Str s => quote s
  | Arr items =>
      "[" +:+ (fix commas (vs : list value) : string :=
                 match vs with
                 | [] => EmptyString
                 | [x] => stringify x
                 | x :: rest => stringify x +:+ "," +:+ commas rest
                 end) items +:+ "]"
  | Obj members =>
      "{" +:+ (fix commas (kvs : list (string * value)) : string :=
                 match kvs with
                 | [] => EmptyString
                 | [(k, x)] => quote k +:+ ":" +:+ stringify x
                 | (k, x) :: rest =>
                     quote k +:+ ":" +:+ stringify x +:+ "," +:+ commas rest
                 end) members +:+ "}"
  end.

Definition is_ws (c : ascii) : bool :=
  let n := nat_of_ascii c in
  (n =? 32)%nat || (n =? 9)%nat || (n =? 10)%nat || (n =? 13)%nat.

Fixpoint skip_ws (s : string) : string :=
  match s with
  | String c s' => if is_ws c then skip_ws s' else s
  | EmptyString => EmptyString
  end.

Definition hexval (c : ascii) : option nat :=
  let n := nat_of_ascii c in
  if (48 <=? n)%nat && (n <=? 57)%nat then Some (n - 48)
  else if (97 <=? n)%nat && (n <=? 102)%nat then Some (n - 87)
  else if (65 <=? n)%nat && (n <=? 70)%nat then Some (n - 55)
  else None.

(** The character an escape letter stands for. *)
Definition unescape (e : ascii) : option ascii :=
  let n := nat_of_ascii e in
  if (n =? 34)%nat then Some (ascii_of_nat 34)
  else if (n =? 92)%nat then Some (ascii_of_nat 92)
  else if (n =? 47)%nat then Some (ascii_of_nat 47)
  else if (n =? 98)%nat then Some (ascii_of_nat 8)
  else if (n =? 102)%nat then Some (ascii_of_nat 12)
  else if (n =? 110)%nat then Some (ascii_of_nat 10)
  else if (n =? 114)%nat then Some (ascii_of_nat 13)
  else if (n =? 116)%nat then Some (ascii_of_nat 9)
  else None.

(** The rest of a string literal after its opening quote: the text and
    what follows the closing quote. A \u escape is read when it names a
    code point below 128. *)
Fixpoint parse_string (s : string) : option (string * string) :=
  match s with
  | EmptyString => None
  | String c s' =>
      if (nat_of_ascii c =? 34)%nat then Some (EmptyString, s')
      else if (nat_of_ascii c =? 92)%nat then
        match s' with
        | String e s'' =>
            if (nat_of_ascii e =? 117)%nat then
              match s'' with
              | String h1 (String h2 (String h3 (String h4 s5))) =>
                  match hexval h1, hexval h2, hexval h3, hexval h4 with
                  | Some 0%nat, Some 0%nat, Some a, Some b =>
                      if (a <? 8)%nat then
                        match parse_string s5 with
                        | Some (t, rest) =>
                            Some (String (ascii_of_nat (16 * a + b)) t, rest)
                        | None => None
                        end
                      else None
                  | _, _, _, _ => None
                  end
              | _ => None
              end
            else
              match unescape e, parse_string s'' with
              | Some x, Some (t, rest) => Some (String x t, rest)
              | _, _ => None
              end
        | EmptyString => None
        end
      else if (nat_of_ascii c <? 32)%nat then None
      else match parse_string s' with
           | Some (t, rest) => Some (String c t, rest)
           | None => None
           end
  end.

Definition is_numchar (c : ascii) : bool :=
  let n := nat_of_ascii c in
  ((48 <=? n)%nat && (n <=? 57)%nat) || (n =? 45)%nat || (n =? 43)%nat
  || (n =? 46)%nat || (n =? 101)%nat || (n =? 69)%nat.

Fixpoint span_num (s : string) : string * string :=
  match s with
  | String c s' =>
      if is_numchar c then let '(a, b) := span_num s' in (String c a, b)
      else (EmptyString, s)
  | EmptyString => (EmptyString, EmptyString)
  end.

(** A value at the head of [s], with the text that follows it. [fuel]
    bounds the nesting and the number of items read. *)
Fixpoint parse_value (fuel : nat) (s : string) : option (value * string) :=
  match fuel with
  | O => None
  | S fuel' =>
      let s := skip_ws s in
      if String.prefix "null" s then Some (Null, JS.slice 4 s)
      else if String.prefix "true" s then Some (Bool true, JS.slice 4 s)
      else if String.prefix "false" s then Some (Bool false, JS.slice 5 s)
      else
        match s with
        | EmptyString => None
        | String c s' =>
            if (nat_of_ascii c =? 34)%nat then
              match parse_string s' with
              | Some (t, rest) => Some (Str t, rest)
              | None => None
              end
            else if (nat_of_ascii c =? 91)%nat then
              match skip_ws s' with
              | String c' s'' =>
                  if (nat_of_ascii c' =? 93)%nat then Some (Arr [], s'')
                  else match parse_items fuel' s' with
                       | Some (vs, rest) => Some (Arr vs, rest)
                       | None => None
                       end
              | EmptyString => None
              end
            else if (nat_of_ascii c =? 123)%nat then
              match skip_ws s' with
              | String c' s'' =>
                  if (nat_of_ascii c' =? 125)%nat then Some (Obj [], s'')
                  else match parse_members fuel' s' with
                       | Some (kvs, rest) => Some (Obj kvs, rest)
                       | None => None
                       end
              | EmptyString => None
              end
            else if is_numchar c then
              let '(literal, rest) := span_num s in Some (Num literal, rest)
            else None
        end
  end
with parse_items (fuel : nat) (s : string) : option (list value * string) :=
  match fuel with
  | O => None
  | S fuel' =>
      match parse_value fuel' s with
      | Some (v, rest) =>
          match skip_ws rest with
          | String c rest' =>
              if (nat_of_ascii c =? 44)%nat then
                match parse_items fuel' rest' with
                | Some (vs, rest'') => Some (v :: vs, rest'')
                | None => None
                end
              else if (nat_of_ascii c =? 93)%nat then Some ([v], rest')
              else None
          | EmptyString => None
          end
      | None => None
      end
  end
with parse_members (fuel : nat) (s : string)
  : option (list (string * value) * string) :=
  match fuel with
  | O => None
  | S fuel' =>
      match skip_ws s with
      | String q s' =>
          if (nat_of_ascii q =? 34)%nat then
            match parse_string s' with
            | Some (k, afterKey) =>
                match skip_ws afterKey with
                | String colon s'' =>
                    if (nat_of_ascii colon =? 58)%nat then
                      match parse_value fuel' s'' with
                      | Some (v, rest) =>
                          match skip_ws rest with
                          | String c rest' =>
                              if (nat_of_ascii c =? 44)%nat then
                                match parse_members fuel' rest' with
                                | Some (kvs, rest'') => Some ((k, v) :: kvs, rest'')
                                | None => None
                                end
                              else if (nat_of_ascii c =? 125)%nat
                                   then Some ([(k, v)], rest')
                              else None
                          | EmptyString => None
                          end
                      | None => None
                      end
                    else None
                | EmptyString => None
                end
            | None => None
            end
          else None
      | EmptyString => None
      end
  end.

(** [JSON.parse(text)]; [None] stands for the SyntaxError it throws. *)
Definition parse (text : string) : option value :=
  match parse_value (S (String.length text)) text with
  | Some (v, rest) =>
      match skip_ws rest with
      | EmptyString => Some v
      | _ => None
      end
  | None => None
  end.

(** [obj[key]]: the last member with that key, as JSON.parse keeps it. *)
Fixpoint member (key : string) (members : list (string * value)) : option value :=
  match members with
  | [] => None
  | (k, v) :: rest =>
      match member key rest with
      | Some v' => Some v'
      | None => if JS.streq k key then Some v else None
      end
  end.

End JSON.

(* ================================================================== *)
(** ** attachInitVect.mjs *)
(* ================================================================== *)

Module AttachInitVect.

Record t : Type := mk {
  initVect : list byte;
  attached : bool
}.

(** [new AttachInitVect(initVect)]. *)
Definition new (initVect : list byte) : t := mk initVect false.

(** [_transform(chunk, _, cb)]: the new state and the chunks pushed. *)
Definition _transform (self : t) (chunk : list byte) : t * list (list byte) :=
  if attached self
  then (self, [chunk])
  else (mk (initVect self) true, [initVect self; chunk]).

(** The chunks the transform emits for the chunks piped into it. *)
Fixpoint pipe (self : t) (chunks : list (list byte)) : list (list byte) :=
  match chunks with
  | [] => []
  | chunk :: rest =>
      let '(self', pushed) := _transform self chunk in
      pushed ++ pipe self' rest
  end.

End AttachInitVect.

(* ================================================================== *)
(** ** aesFileCryptor.mjs *)
(* ================================================================== *)

Module AESFileCryptor.

Record t : Type := mk {
  cipherKey : list byte
}.

Section WithPlatform.
Context `{P : Platform}.

(** [#getCipherKey(password)]. *)
Definition getCipherKey (password : string) : list byte :=
  sha256 (list_byte_of_string password).

(** [new AESFileCryptor(password)]. *)
Definition new (password : string) : t := mk (getCipherKey password).

(** [#fileExists(file)]. *)
Definition fileExists (file : string) : Async bool :=
  found <- existsSync file ;;
  if found then ret true
  else (log ("File '" +:+ file +:+ "' not found") ;;; ret false).

(** The bytes [encryptStreamToFile] places in the target for a source
    stream and an initialization vector. *)
Definition encrypted (self : t) (initVect readStream : list byte) : list byte :=
  concat (AttachInitVect.pipe (AttachInitVect.new initVect)
            (chunked (cipher (cipherKey self) initVect (gzip readStream)))).

(** [encryptStreamToFile(readStream, tgtFile)]. *)
Definition encryptStreamToFile (self : t) (readStream : list byte)
    (tgtFile : string) : Async unit :=
  initVect <- randomBytes 16 ;;
  writeFile tgtFile (encrypted self initVect readStream).

(** [encryptFileToFile(srcFile, tgtFile)]; reading a directory raises an
    unhandled 'error'. *)
Definition encryptFileToFile (self : t) (srcFile tgtFile : string) : Async unit :=
  found <- fileExists srcFile ;;
  if found then
    data <- readFile srcFile ;;
    match data with
    | Some readStream => encryptStreamToFile self readStream tgtFile
    | None => never
    end
  else ret tt.

(** [encryptJsonToFile(json, tgtFile)]. *)
Definition encryptJsonToFile (self : t) (json : JSON.value) (tgtFile : string)
  : Async unit :=
  encryptStreamToFile self (list_byte_of_string (JSON.stringify json)) tgtFile.

(** What reaches the write stream of [decryptFileToStream] for the bytes of
    an existing source file: [Ended] when the stream finished, [Errored]
    when a stage failed, with the message logged, if any.
    [#getBytes(srcFile, { end: 15 })] keeps the one chunk a read of at most
    sixteen bytes delivers; [createDecipheriv] throws on a vector that is
    not sixteen bytes long. *)
Definition decrypted (self : t) (source : list byte) : piped * list string :=
  let initVect := take 16 source in
  if bool_decide (length initVect = 16%nat) then
    match decipher (cipherKey self) initVect (drop 16 source) with
    | Ended zipped =>
        match unzip zipped with
        | Ended plain => (Ended plain, [])
        | Errored partial => (Errored partial, [])
        end
    | Errored zipped =>
        match unzip zipped with
        | Ended partial => (Errored partial, ["Incorrect password"])
        | Errored partial => (Errored partial, ["Incorrect password"])
        end
    end
  else (Errored [], []).

(** [decryptFileToStream(srcFile, writeStream)]: the bytes delivered to the
    write stream. The promise is fulfilled when the source is absent (with
    nothing delivered) and when the write stream finishes; after an error
    in a stage nothing fulfils it, and the bytes delivered so far are what
    [Unsettled] is reached with. *)
Definition decryptFileToStream (self : t) (srcFile : string)
    (writeStream : list byte -> bool -> Async unit) : Async (list byte) :=
  found <- existsSync srcFile ;;
  if found then
    data <- readFile srcFile ;;
    match data with
    | Some source =>
        let '(out, messages) := decrypted self source in
        forOf (fun _ m => log m) messages tt ;;;
        match out with
        | Ended plain => writeStream plain true ;;; ret plain
        | Errored partial => writeStream partial false ;;; never
        end
    | None => never
    end
  else ret [].

(** [decryptFileToFile(srcFile, tgtFile)]: [createWriteStream(tgtFile)]
    creates or truncates the target before anything is decrypted. *)
Definition decryptFileToFile (self : t) (srcFile tgtFile : string) : Async unit :=
  openFile tgtFile ;;;
  decryptFileToStream self srcFile
    (fun bytes finished =>
       if finished then writeFile tgtFile bytes else pourFile tgtFile bytes) ;;;
  ret tt.

(** [decryptFileToJson(srcFile)]: [data && JSON.parse(data)]. [None] is the
    empty string that an absent source leaves in the StringWritable. *)
Definition decryptFileToJson (self : t) (srcFile : string)
  : Async (option JSON.value) :=
  bytes <- decryptFileToStream self srcFile (fun _ _ => ret tt) ;;
  let data := string_of_list_byte bytes in
  if JS.truthy data then
    match JSON.parse data with
    | Some json => ret (Some json)
    | None => never
    end
  else ret None.

End WithPlatform.
End AESFileCryptor.

(* ================================================================== *)
(** ** fsDirectory.mjs *)
(* ================================================================== *)

(** A path entry of the manifest: [{ path, fileId? }]. *)
Module dirent.
Record t : Type := mk {
  path : string;
  fileId : option string
}.
End dirent.

(** A file object of the manifest: [{ fileId, fileHash, pwd }]. *)
Module file.
Record t : Type := mk {
  fileId : string;
  fileHash : string;
  pwd : string
}.
End file.

#[global] Instance dirent_eq_dec : EqDecision dirent.t.
Proof. solve_decision. Defined.
#[global] Instance file_eq_dec : EqDecision file.t.
Proof. solve_decision. Defined.

Module FSDirectory.

Record t : Type := mk {
  defaultFileName : string;
  dirents : list dirent.t;
  files : list file.t
}.

(** What [getEntries()] returns: the two arrays of the directory. *)
Record entries : Type := mkEntries {
  e_dirents : list dirent.t;
  e_files : list file.t
}.

(** The objects of the manifest as JSON values, and back. Reading back
    keeps the fields the program reads. *)
Definition dirent_json (d : dirent.t) : JSON.value :=
  JSON.Obj (("path", JSON.Str (dirent.path d))
            :: match dirent.fileId d with
               | Some id => [("fileId", JSON.Str id)]
               | None => []
               end).

Definition file_json (f : file.t) : JSON.value :=
  JSON.Obj [("fileId", JSON.Str (file.fileId f));
            ("fileHash", JSON.Str (file.fileHash f));
            ("pwd", JSON.Str (file.pwd f))].

Definition dirents_json (ds : list dirent.t) : JSON.value :=
  JSON.Arr (map dirent_json ds).

Definition files_json (fs : list file.t) : JSON.value :=
  JSON.Arr (map file_json fs).

Definition entries_json (e : entries) : JSON.value :=
  JSON.Obj [("dirents", dirents_json (e_dirents e));
            ("files", files_json (e_files e))].

Definition json_dirent (v : JSON.value) : option dirent.t :=
  match v with
  | JSON.Obj members =>
      match JSON.member "path" members, JSON.member "fileId" members with
      | Some (JSON.Str p), Some (JSON.Str id) => Some (dirent.mk p (Some id))
      | Some (JSON.Str p), None => Some (dirent.mk p None)
      | _, _ => None
      end
  | _ => None
  end.

Definition json_file (v : JSON.value) : option file.t :=
  match v with
  | JSON.Obj members =>
      match JSON.member "fileId" members, JSON.member "fileHash" members,
            JSON.member "pwd" members with
      | Some (JSON.Str id), Some (JSON.Str h), Some (JSON.Str p) =>
          Some (file.mk id h p)
      | _, _, _ => None
      end
  | _ => None
  end.

Fixpoint json_list {A : Type} (item : JSON.value -> option A)
    (vs : list JSON.value) : option (list A) :=
  match vs with
  | [] => Some []
  | v :: rest =>
      match item v, json_list item rest with
      | Some a, Some l => Some (a :: l)
      | _, _ => None
      end
  end.

(** [getEntries()]. *)
Definition getEntries (self : t) : entries :=
  mkEntries (dirents self) (files self).

(** [getObsoleteDirents(directory)]. *)
Definition getObsoleteDirents (self directory : t) : list dirent.t :=
  List.filter
    (fun d => negb (JS.some
       (fun e => JS.streq (dirent.path e) (dirent.path d)
                 && JS.opteq (dirent.fileId e) (dirent.fileId d))
       (dirents self)))
    (dirents directory).

(** [equals(dirents)]: the two arrays as [JSON.stringify] prints them. The
    array passed is the [dirents] of a loaded manifest, printed here from
    the fields read back; for a manifest written by [saveToFile] that is
    the text of the objects as they were parsed. *)
Definition equals (self : t) (ds : list dirent.t) : bool :=
  JS.streq (JSON.stringify (dirents_json ds))
           (JSON.stringify (dirents_json (dirents self))).

(** [findDirent(path)]. *)
Definition findDirent (self : t) (path : string) : option dirent.t :=
  JS.find (fun d => JS.streq (dirent.path d) path) (dirents self).

(** [addEntry(path, fileId, file)]. *)
Definition addEntry (self : t) (path : string) (fileId : option string)
    (file : option file.t) : t :=
  mk (defaultFileName self)
     (dirents self ++
        [dirent.mk path
           (match fileId with
            | Some id => if JS.truthy id then Some id else None
            | None => None
            end)])
     (match file with
      | Some f => files self ++ [f]
      | None => files self
      end).

(** [findFileById(fileId)] and [findFileByHash(fileHash)], the two uses of
    [findFileByKey]. *)
Definition findFileById (self : t) (fileId : string) : option file.t :=
  JS.find (fun f => JS.streq (file.fileId f) fileId) (files self).

Definition findFileByHash (self : t) (fileHash : string) : option file.t :=
  JS.find (fun f => JS.streq (file.fileHash f) fileHash) (files self).

(** The names an [FSDirectory] answers to besides its three fields: the
    functions of the class, and [__proto__]. *)
Definition memberNames : list string :=
  ["getEntries"; "getObsoleteDirents"; "equals"; "findDirent"; "addEntry";
   "findFileByKey"; "findFileById"; "findFileByHash"; "loadEntries";
   "saveToFile"; "__proto__"].

(** [for (const key in entries) this[key] = entries[key]] on a parsed
    object, key by key. A key that is none of the three fields and no
    function of the class becomes a property that nothing reads. A value
    that is not an array of path entries or of file objects, or a key that
    replaces a function of the class, leaves the typed model: [None]. *)
Fixpoint assign (self : t) (members : list (string * JSON.value)) : option t :=
  match members with
  | [] => Some self
  | (key, v) :: rest =>
      if JS.streq key "dirents" then
        match v with
        | JSON.Arr vs =>
            match json_list json_dirent vs with
            | Some ds => assign (mk (defaultFileName self) ds (files self)) rest
            | None => None
            end
        | _ => None
        end
      else if JS.streq key "files" then
        match v with
        | JSON.Arr vs =>
            match json_list json_file vs with
            | Some fs => assign (mk (defaultFileName self) (dirents self) fs) rest
            | None => None
            end
        | _ => None
        end
      else if JS.streq key "defaultFileName" then
        match v with
        | JSON.Str s => assign (mk s (dirents self) (files self)) rest
        | _ => None
        end
      else if bool_decide (key ∈ memberNames) then None
      else assign self rest
  end.

Section WithPlatform.
Context `{P : Platform}.

(** [new FSDirectory()]. *)
Definition new : Async t :=
  nil <- cryptoUtils.getNilUuid ;;
  ret (mk nil [] []).

(** [#getAesFileCryptorAndFile(encDir, pwd)]. *)
Definition getAesFileCryptorAndFile (self : t) (encDir pwd : string)
  : AESFileCryptor.t * string :=
  (AESFileCryptor.new pwd, path_join encDir (defaultFileName self)).

(** [loadEntries(encDir, pwd)]: the directory after the load and the
    entries returned. A value that is not an object (the empty string of an
    absent file among them) has no key that names a field of the directory,
    so nothing is assigned. *)
Definition loadEntries (self : t) (encDir pwd : string) : Async (t * entries) :=
  let '(aesFileCryptor, srcFile) := getAesFileCryptorAndFile self encDir pwd in
  loaded <- AESFileCryptor.decryptFileToJson aesFileCryptor srcFile ;;
  match loaded with
  | Some (JSON.Obj members) =>
      match assign self members with
      | Some self' => ret (self', getEntries self')
      | None => never
      end
  | Some _ | None => ret (self, getEntries self)
  end.

(** [saveToFile(encDir, pwd)]. *)
Definition saveToFile (self : t) (encDir pwd : string) : Async unit :=
  match dirents self with
  | [] => ret tt
  | _ :: _ =>
      let '(aesFileCryptor, tgtFile) := getAesFileCryptorAndFile self encDir pwd in
      AESFileCryptor.encryptJsonToFile aesFileCryptor
        (entries_json (getEntries self)) tgtFile
  end.

End WithPlatform.
End FSDirectory.

(* ================================================================== *)
(** ** cryptDir.mjs *)
(* ================================================================== *)

Module CryptDir.

Record t : Type := mk {
  srcDir : string;
  encDir : string;
  fsDirectory : FSDirectory.t
}.

(** What [#getFileData] returns: [{ exists, fileId, pwd }]. *)
Record fileData : Type := mkFileData {
  exists_ : bool;
  fd_fileId : string;
  fd_pwd : string
}.

(** The array [#encryptFile] returns, spread into [addEntry]: [[]],
    [[fileId]] or [[fileId, file]]. *)
Definition fileParams : Type := (option string * option file.t)%type.

Definition defaultEncDir : string := ".cryptdir".
Definition defaultNameFilters : list string := [".~lock."].

(** [#getRelativePath(fullName)]: [fullName.replace(this.srcDir + '\\', '')]. *)
Definition getRelativePath (self : t) (fullName : string) : string :=
  JS.replace (srcDir self +:+ "\") "" fullName.

(** [#filterDirentByName(dirent)]. *)
Definition filterDirentByName (d : fs_Dirent) : bool :=
  JS.some (fun nameFilter => JS.startsWith (name d) nameFilter) defaultNameFilters.

(** [#logDirentProc(path, isDir, proc)]. *)
Definition logDirentProc (path : string) (isDir : bool) (proc : string)
  : Async unit :=
  log (proc +:+ " " +:+ (if isDir then "directory" else "file")
       +:+ " '" +:+ path +:+ "'").

(** [#mkdirSyncWithCheck(path)]. *)
Definition mkdirSyncWithCheck (path : string) : Async bool :=
  found <- existsSync path ;;
  if found then ret false else (mkdirSync path ;;; ret true).

(** [#rmSyncWithCheck(path)]. *)
Definition rmSyncWithCheck (path : string) : Async bool :=
  found <- existsSync path ;;
  if found then (rmSync path ;;; ret true) else ret false.

(** [#logDirentEncryption(path, isDir, fileParams, currDirectory)]. *)
Definition logDirentEncryption (path : string) (isDir : bool)
    (params : fileParams) (currDirectory : FSDirectory.t) : Async unit :=
  let fileId := fst params in
  match FSDirectory.findDirent currDirectory path with
  | None => logDirentProc path isDir "Added"
  | Some d =>
      if negb (JS.opteq (dirent.fileId d) fileId)
      then logDirentProc path isDir "Updated"
      else ret tt
  end.

Section WithPlatform.
Context `{P : Platform}.

(** [new CryptDir(srcDir, encDir)]. *)
Definition new (srcDir : string) (encDir : option string) : Async t :=
  directory <- FSDirectory.new ;;
  ret (mk srcDir
          (match encDir with
           | Some e => if JS.truthy e then e else path_join srcDir defaultEncDir
           | None => path_join srcDir defaultEncDir
           end)
          directory).

(** [#rmSyncRecWithCheck(path)]. *)
Definition rmSyncRecWithCheck (path : string) : Async bool :=
  found <- existsSync path ;;
  if found then (rmSyncRec path ;;; ret true) else ret false.

(** [#getEncFilePath(fileId)]. *)
Definition getEncFilePath (self : t) (fileId : string) : string :=
  path_join (encDir self) fileId.

(** [#getDirentFullName(dirent)]. *)
Definition getDirentFullName (d : fs_Dirent) : string :=
  path_join (parentPath d) (name d).

(** [#getAesFileCryptorByPwd(pwd)]. *)
Definition getAesFileCryptorByPwd (pwd : string) : AESFileCryptor.t :=
  AESFileCryptor.new pwd.

(** [#loadDecEntries(masterPwd, fsDirectory)]: the load goes into
    [fsDirectory] when one is passed and into [this.fsDirectory] otherwise. *)
Definition loadDecEntries (self : t) (masterPwd : string)
    (directory : option FSDirectory.t)
  : Async (t * FSDirectory.t * FSDirectory.entries) :=
  match directory with
  | Some d =>
      loaded <- FSDirectory.loadEntries d (encDir self) masterPwd ;;
      ret (self, fst loaded, snd loaded)
  | None =>
      loaded <- FSDirectory.loadEntries (fsDirectory self) (encDir self) masterPwd ;;
      ret (mk (srcDir self) (encDir self) (fst loaded), fst loaded, snd loaded)
  end.

(** [#getSrcDirents()]; [None] is the [undefined] of a missing source.
    [fs.readdirSync] throws ENOTDIR on a path that is a regular file. *)
Definition getSrcDirents (self : t) : Async (option (list fs_Dirent)) :=
  found <- existsSync (srcDir self) ;;
  if found then
    fun w =>
      match fs w !! srcDir self with
      | Some (File _) => Unsettled w
      | _ =>
          Settled
            (Some (List.filter
                     (fun d => negb (JS.startsWith (getDirentFullName d) (encDir self))
                               && negb (filterDirentByName d))
                     (localeSort getDirentFullName
                        (readdirSync (fs w) (srcDir self)))))
            w
      end
  else ret None.

(** [#getFileData(currDirectory, fileHash)]. *)
Definition getFileData (currDirectory : FSDirectory.t) (fileHash : string)
  : Async fileData :=
  match FSDirectory.findFileByHash currDirectory fileHash with
  | Some f => ret (mkFileData true (file.fileId f) (file.pwd f))
  | None =>
      fileId <- cryptoUtils.getUuid None ;;
      pwd <- cryptoUtils.generatePwd 48 cryptoUtils.defaultChars ;;
      ret (mkFileData false fileId pwd)
  end.

(** [#encryptFile(fullName, currDirectory)]. *)
Definition encryptFile (self : t) (fullName : string)
    (currDirectory : FSDirectory.t) : Async fileParams :=
  fileHash <- cryptoUtils.calcFileHash fullName ;;
  match FSDirectory.findFileByHash (fsDirectory self) fileHash with
  | None =>
      data <- getFileData currDirectory fileHash ;;
      (if negb (exists_ data)
       then AESFileCryptor.encryptFileToFile
              (getAesFileCryptorByPwd (fd_pwd data)) fullName
              (getEncFilePath self (fd_fileId data))
       else ret tt) ;;;
      ret (Some (fd_fileId data),
           Some (file.mk (fd_fileId data) fileHash (fd_pwd data)))
  | Some f => ret (Some (file.fileId f), None)
  end.

(** [#encryptDirent(dirent, currDirectory)]. *)
Definition encryptDirent (self : t) (d : fs_Dirent)
    (currDirectory : FSDirectory.t) : Async t :=
  let fullName := path_join (parentPath d) (name d) in
  let relativePath := getRelativePath self fullName in
  params <- (if negb (isDirectory d)
             then encryptFile self fullName currDirectory
             else ret (None, None)) ;;
  let self' := mk (srcDir self) (encDir self)
                  (FSDirectory.addEntry (fsDirectory self) relativePath
                     (fst params) (snd params)) in
  logDirentEncryption relativePath (isDirectory d) params currDirectory ;;;
  ret self'.

(** One turn of the loop of [#removeObsoleteDirents]. *)
Definition removeObsoleteDirent (self : t) (d : dirent.t) : Async unit :=
  let isDir := match dirent.fileId d with
               | Some id => negb (JS.truthy id)
               | None => true
               end in
  match dirent.fileId d with
  | Some id =>
      if JS.truthy id && negb (bool_decide (is_Some
            (FSDirectory.findFileById (fsDirectory self) id)))
      then (rmSyncWithCheck (getEncFilePath self id) ;;; ret tt)
      else ret tt
  | None => ret tt
  end ;;;
  if isDir || negb (bool_decide (is_Some
        (FSDirectory.findDirent (fsDirectory self) (dirent.path d))))
  then logDirentProc (dirent.path d) isDir "Removed"
  else ret tt.

(** [#removeObsoleteDirents(currDirectory)]. *)
Definition removeObsoleteDirents (self : t) (currDirectory : FSDirectory.t)
  : Async unit :=
  forOf (fun _ d => removeObsoleteDirent self d)
        (FSDirectory.getObsoleteDirents (fsDirectory self) currDirectory) tt.

(** [encrypt(masterPwd)]. *)
Definition encrypt (self : t) (masterPwd : string) : Async t :=
  currDirectory0 <- FSDirectory.new ;;
  loaded <- loadDecEntries self masterPwd (Some currDirectory0) ;;
  let currDirectory := snd (fst loaded) in
  let entries := snd loaded in
  srcDirents <- getSrcDirents self ;;
  match srcDirents with
  | Some (d :: ds) =>
      mkdirSyncWithCheck (encDir self) ;;;
      self' <- forOf (fun s x => encryptDirent s x currDirectory) (d :: ds) self ;;
      removeObsoleteDirents self' currDirectory ;;;
      (if negb (FSDirectory.equals (fsDirectory self')
                  (FSDirectory.e_dirents entries))
       then FSDirectory.saveToFile (fsDirectory self') (encDir self) masterPwd
       else ret tt) ;;;
      ret self'
  | Some [] =>
      removed <- rmSyncRecWithCheck (encDir self) ;;
      (if removed
       then log ("Removed directory '" +:+ encDir self +:+ "'")
       else ret tt) ;;;
      ret self
  | None =>
      log ("Invalid source directory '" +:+ srcDir self +:+ "'") ;;;
      ret self
  end.

(** [#decryptFile(file, exists, fullName, relativePath)]. *)
Definition decryptFile (self : t) (f : file.t) (exists_ : bool)
    (fullName relativePath : string) : Async unit :=
  differs <- (if negb exists_ then ret true
              else (h <- cryptoUtils.calcFileHash fullName ;;
                    ret (negb (JS.streq (file.fileHash f) h)))) ;;
  if differs then
    AESFileCryptor.decryptFileToFile (getAesFileCryptorByPwd (file.pwd f))
      (getEncFilePath self (file.fileId f)) fullName ;;;
    log ("Decrypted file '" +:+ relativePath +:+ "'")
  else ret tt.

(** One turn of the loop of [decrypt]. *)
Definition decryptDirent (self : t) (d : dirent.t) : Async unit :=
  let fullName := path_join (srcDir self) (dirent.path d) in
  let relativePath := getRelativePath self fullName in
  found <- existsSync fullName ;;
  match dirent.fileId d with
  | Some id =>
      if JS.truthy id then
        match FSDirectory.findFileById (fsDirectory self) id with
        | Some f => decryptFile self f found fullName relativePath
        | None => ret tt
        end
      else if negb found
      then (mkdirSync fullName ;;;
            log ("Created directory '" +:+ relativePath +:+ "'"))
      else ret tt
  | None =>
      if negb found
      then (mkdirSync fullName ;;;
            log ("Created directory '" +:+ relativePath +:+ "'"))
      else ret tt
  end.

(** [decrypt(masterPwd)]. *)
Definition decrypt (self : t) (masterPwd : string) : Async t :=
  loaded <- loadDecEntries self masterPwd None ;;
  let self' := fst (fst loaded) in
  forOf (fun _ d => decryptDirent self' d)
        (FSDirectory.e_dirents (snd loaded)) tt ;;;
  ret self'.

End WithPlatform.
End CryptDir.

(* ================================================================== *)
(** ** cli.mjs *)
(* ================================================================== *)

Module cli.
Section WithPlatform.
Context `{P : Platform}.

(** The action of the two commands: a fresh [CryptDir] and one call. *)
Definition encrypt (srcDirectory : string) (encDirectory : option string)
    (password : string) : Async CryptDir.t :=
  cryptDir <- CryptDir.new srcDirectory encDirectory ;;
  CryptDir.encrypt cryptDir password.

Definition decrypt (srcDirectory : string) (encDirectory : option string)
    (password : string) : Async CryptDir.t :=
  cryptDir <- CryptDir.new srcDirectory encDirectory ;;
  CryptDir.decrypt cryptDir password.

End WithPlatform.
End cli.

(* ================================================================== *)
(** ** stringUtils.mjs, dateTimeUtils.mjs and the log.mjs that stamps its lines *)
(* ================================================================== *)

(** Numbers are the integers the callers pass (calendar fields, sizes and
    counts); [num + ''] is their decimal text, which is the text JavaScript
    prints for an integer up to 2^53 - 1 in magnitude. [None] is a thrown
    RangeError. *)
Module stringUtils.

(** [s.repeat(count)] for a count that is not negative. *)
Fixpoint String_repeat (s : string) (count : nat) : string :=
  match count with
  | O => EmptyString
  | S k => s +:+ String_repeat s k
  end.

(** [getCharsByCount(char, cnt)]: [char?.repeat(cnt || 1)]; [repeat]
    throws on a negative count. *)
Definition getCharsByCount (char : string) (cnt : Z) : option string :=
  let count := if (cnt =? 0)%Z then 1%Z else cnt in
  if (count <? 0)%Z then None
  else Some (String_repeat char (Z.to_nat count)).

(** [padNumber(num, size)]. *)
Definition padNumber (num size : Z) : option string :=
  let result := pretty num in
  let diff := ((if (size =? 0)%Z then 2 else size)
               - Z.of_nat (String.length result))%Z in
  match (if (diff =? 0)%Z then Some EmptyString
         else getCharsByCount "0" diff) with
  | Some zeros => Some (zeros +:+ result)
  | None => None
  end.

End stringUtils.

Module dateTimeUtils.

(** What [getLocaleISOString] reads of a [Date] (a valid one: every getter
    returns an integer). *)
Record Date : Type := mkDate {
  getFullYear : Z;
  getMonth : Z;
  getDate : Z;
  getHours : Z;
  getMinutes : Z;
  getSeconds : Z;
  getMilliseconds : Z;
  getTimezoneOffset : Z
}.

(** The [pad] of a part: [false], a number, or left out. *)
Inductive padding : Type :=
| PadFalse
| PadTo (size : Z)
| PadUndefined.

Record part : Type := mkPart {
  val : Z;
  pre : option string;
  pad : padding
}.

Definition parts (date : Date) : list part :=
  let ofst := (- getTimezoneOffset date)%Z in
  let sign := if (0 <=? ofst)%Z then "+" else "-" in
  [ mkPart (getFullYear date) None PadFalse;
    mkPart (getMonth date + 1) (Some "-") PadUndefined;
    mkPart (getDate date) (Some "-") PadUndefined;
    mkPart (getHours date) (Some "T") PadUndefined;
    mkPart (getMinutes date) (Some ":") PadUndefined;
    mkPart (getSeconds date) (Some ":") PadUndefined;
    mkPart (getMilliseconds date) (Some ".") (PadTo 3);
    mkPart (Z.abs ofst / 60) (Some sign) PadUndefined;
    mkPart (Z.rem (Z.abs ofst) 60) None PadUndefined ].

(** [(pre || '') + (pad === false ? val : padNumber(val, !isNaN(pad) ? pad : 2))]. *)
Definition render (p : part) : option string :=
  let prefix := match pre p with
                | Some s => if JS.truthy s then s else EmptyString
                | None => EmptyString
                end in
  match pad p with
  | PadFalse => Some (prefix +:+ pretty (val p))
  | PadTo size =>
      match stringUtils.padNumber (val p) size with
      | Some text => Some (prefix +:+ text)
      | None => None
      end
  | PadUndefined =>
      match stringUtils.padNumber (val p) 2 with
      | Some text => Some (prefix +:+ text)
      | None => None
      end
  end.

(** [parts.map(...)], which stops at the first part that throws. *)
Fixpoint renderAll (ps : list part) : option (list string) :=
  match ps with
  | [] => Some []
  | p :: rest =>
      match render p with
      | Some text =>
          match renderAll rest with
          | Some texts => Some (text :: texts)
          | None => None
          end
      | None => None
      end
  end.

(** [getLocaleISOString(date)]. *)
Definition getLocaleISOString (date : Date) : option string :=
  match renderAll (parts date) with
  | Some texts => Some (JS.join texts)
  | None => None
  end.

End dateTimeUtils.

(** The [log] that stamps its lines: the text handed to the global logger
    for a message, [now] being [new Date()]. *)
Module datedLog.

Definition log (now : dateTimeUtils.Date) (message : string) : option string :=
  match dateTimeUtils.getLocaleISOString now with
  | Some localeIsoDate =>
      match stringUtils.getCharsByCount " " 4 with
      | Some spaces => Some ((localeIsoDate +:+ spaces) +:+ message)
      | None => None
      end
  | None => None
  end.

End datedLog.

(* ================================================================== *)
(** ** A small concrete platform, for examples *)
(* ================================================================== *)

(** Stand-ins for the Node.js primitives that can be run: a checksum for
    the hash, a two-byte header for gzip, an envelope that opens only with
    the key and vector it was sealed with for the cipher, and Windows
    style path joining. *)
Module Sample.

#[global] Instance byte_eq_dec : EqDecision byte := Byte.byte_eq_dec.

(** Every fourth byte counts up from zero, the others are zero, so the
    32-bit units read from a fresh source are 0, 1, 2, ... *)
Definition csprng (i : nat) : byte :=
  if (i mod 4 =? 0)%nat then byte_of_Z (Z.of_nat (i / 4)) else x00.

Definition sha256 (data : list byte) : list byte :=
  [byte_of_Z (foldr (fun b acc => (Z_of_byte b + 31 * acc) mod 256)%Z 7%Z data);
   byte_of_Z (Z.of_nat (length data))].

Definition gzip (data : list byte) : list byte := x1f :: x8b :: data.

Definition unzip (zipped : list byte) : piped :=
  match zipped with
  | x1f :: x8b :: data => Ended data
  | _ => Errored []
  end.

Definition cipher (key iv data : list byte) : list byte :=
  (xff :: key ++ iv ++ data)%list.

Definition decipher (key iv sealed : list byte) : piped :=
  match sealed with
  | xff :: body =>
      if bool_decide (take (length key + length iv) body = (key ++ iv)%list)
      then Ended (drop (length key + length iv) body)
      else Errored []
  | _ => Errored []
  end.

Definition chunked (data : list byte) : list (list byte) :=
  match data with
  | [] => []
  | [b] => [[b]]
  | b :: rest => [[b]; rest]
  end.

Definition path_sep : string := "\".

Definition path_join (a b : string) : string := a +:+ path_sep +:+ b.

(** The text before the last separator. *)
Fixpoint has_sep (p : string) : bool :=
  match p with
  | EmptyString => false
  | String c p' => Ascii.eqb c "\" || has_sep p'
  end.

Fixpoint path_dirname (p : string) : string :=
  match p with
  | EmptyString => EmptyString
  | String c p' => if has_sep p' then String c (path_dirname p') else EmptyString
  end.

(** Every entry below [dir], with [dir] as its parent. *)
Definition readdirSync (files : gmap string node) (dir : string)
  : list fs_Dirent :=
  omap (fun kv =>
          if JS.startsWith (fst kv) (dir +:+ "\")
          then Some (mkDirent (JS.slice (S (String.length dir)) (fst kv)) dir
                       (match snd kv with Directory => true | File _ => false end))
          else None)
       (map_to_list files).

Fixpoint insert_sorted (key : fs_Dirent -> string) (x : fs_Dirent)
    (xs : list fs_Dirent) : list fs_Dirent :=
  match xs with
  | [] => [x]
  | y :: ys => if String.leb (key x) (key y) then x :: xs
               else y :: insert_sorted key x ys
  end.

Definition localeSort (key : fs_Dirent -> string) (xs : list fs_Dirent)
  : list fs_Dirent :=
  foldr (insert_sorted key) [] xs.

#[global] Instance platform : Platform :=
  Build_Platform csprng sha256 gzip unzip cipher decipher chunked path_join
    path_sep path_dirname readdirSync localeSort.

(** Text as file content. *)
Definition text (s : string) : node := File (list_byte_of_string s).

(** A source directory with two files of equal content and a third one. *)
Definition tree : World :=
  mkWorld (<["C:\src" := Directory]>
          (<["C:\src\a.txt" := text "same"]>
          (<["C:\src\b.txt" := text "same"]>
          (<["C:\src\c.txt" := text "other"]> ∅)))) [] 0.

End Sample.

(** Worlds for the examples: the tree after a first [encrypt], the same
    with one blob overwritten, the same with the source files removed, and
    a store whose manifest lists a file object that no path entry names. *)
Module Scenario.

Definition synced : World :=
  final_world (cli.encrypt "C:\src" None "master" Sample.tree).

Definition blob_a : string :=
  "C:\src\.cryptdir\00000000010040008200000003000000".

Definition damaged : World :=
  mkWorld (<[blob_a := File (replicate 20 x00)]> (fs synced))
          (journal synced) (drawn synced).

(** The sample tree next to an empty directory D:\out. *)
Definition tree_out : World :=
  mkWorld (<["D:\out" := Directory]> (fs Sample.tree)) [] 0.

(** The two stores with the directory D:\out to restore into. *)
Definition synced_out : World :=
  mkWorld (<["D:\out" := Directory]> (fs synced)) (journal synced) (drawn synced).

Definition damaged_out : World :=
  mkWorld (<["D:\out" := Directory]> (fs damaged)) (journal damaged)
          (drawn damaged).

Definition emptied : World :=
  mkWorld (delete "C:\src\a.txt"
             (delete "C:\src\b.txt" (delete "C:\src\c.txt" (fs synced))))
          (journal synced) (drawn synced).

Definition annotated_manifest : FSDirectory.t :=
  FSDirectory.mk "00000000000000000000000000000000"
    [dirent.mk "a.txt" (Some "AA")]
    [file.mk "AA" "6104" "pw"; file.mk "BB" "ffff" "pw2"].

Definition annotated : World :=
  final_world
    (FSDirectory.saveToFile annotated_manifest "C:\src\.cryptdir" "master"
       (mkWorld (<["C:\src" := Directory]>
                (<["C:\src\a.txt" := Sample.text "same"]>
                (<["C:\src\.cryptdir" := Directory]> ∅))) [] 0)).

(** A new [CryptDir] on the sample tree. *)
Definition cryptDir : CryptDir.t :=
  CryptDir.mk "C:\src" "C:\src\.cryptdir"
    (FSDirectory.mk "00000000000000000000000000000000" [] []).

(** A session directory that lost the entry c.txt of the previous
    snapshot, and a store holding the blobs of both file objects. *)
Definition current : CryptDir.t :=
  CryptDir.mk "C:\src" "C:\src\.cryptdir"
    (FSDirectory.mk "00000000000000000000000000000000"
       [dirent.mk "a.txt" (Some "AA")] [file.mk "AA" "6104" "pw"]).

Definition previous : FSDirectory.t :=
  FSDirectory.mk "00000000000000000000000000000000"
    [dirent.mk "a.txt" (Some "AA"); dirent.mk "c.txt" (Some "BB")]
    [file.mk "AA" "6104" "pw"; file.mk "BB" "2905" "pw2"].

Definition store : World :=
  mkWorld (<["C:\src\.cryptdir\AA" := File [x01]]>
          (<["C:\src\.cryptdir\BB" := File [x02]]> ∅)) [] 0.

(** Two object identifiers; a session directory in which a.txt of the
    snapshot was renamed and c.txt is gone; the snapshot; and a store that
    holds the blobs of both file objects. *)
Definition idA : string := "AAAAAAAAAAAAAAAAAAAAAAAAAAAAAAAA".
Definition idB : string := "BBBBBBBBBBBBBBBBBBBBBBBBBBBBBBBB".

Definition renamed : CryptDir.t :=
  CryptDir.mk "C:\src" "C:\src\.cryptdir"
    (FSDirectory.mk "00000000000000000000000000000000"
       [dirent.mk "a2.txt" (Some idA)] [file.mk idA "6104" "pw"]).

Definition snapshot : FSDirectory.t :=
  FSDirectory.mk "00000000000000000000000000000000"
    [dirent.mk "a.txt" (Some idA); dirent.mk "c.txt" (Some idB)]
    [file.mk idA "6104" "pw"; file.mk idB "2905" "pw2"].

Definition blobs : World :=
  mkWorld (<["C:\src\.cryptdir\AAAAAAAAAAAAAAAAAAAAAAAAAAAAAAAA" := File [x01]]>
          (<["C:\src\.cryptdir\BBBBBBBBBBBBBBBBBBBBBBBBBBBBBBBB" := File [x02]]> ∅))
          [] 0.

(** A [CryptDir] on a source directory with forward slashes. *)
Definition posix : CryptDir.t :=
  CryptDir.mk "/home/u/docs" "/home/u/docs/.cryptdir"
    (FSDirectory.mk "00000000000000000000000000000000" [] []).

End Scenario.

(* ================================================================== *)
(** ** Vocabulary of the properties *)
(* ================================================================== *)

(** The identifier the manifest is stored under. *)
Definition nilObjectId : string := "00000000000000000000000000000000".

(** The identifier [getUuid()] returns and the password [generatePwd(n)]
    returns when [d] bytes of the random source are already used. *)
Definition generatedId `{P : Platform} (d : nat) : string :=
  JS.toUpperCase (JS.replaceAll "-" ""
    (cryptoUtils.stringify (cryptoUtils.v4bits (map csprng (seq d 16))))).

Definition generatedPwd `{P : Platform} (d n : nat) : string :=
  JS.join (map (fun x => JS.charAt cryptoUtils.defaultChars
                  (Z.to_nat (x mod Z.of_nat (String.length cryptoUtils.defaultChars))))
               (cryptoUtils.uint32s (map csprng (seq d (4 * n))))).

(** An object identifier as [getUuid] writes them: thirty-two characters,
    each a decimal digit or an upper-case letter from A to F. *)
Definition objectId (id : string) : Prop :=
  String.length id = 32%nat /\
  Forall (fun c => c ∈ JS.chars "0123456789ABCDEF") (JS.chars id).

(** The file identifier [addEntry] records for an identifier passed to it. *)
Definition recorded (id : string) : option string :=
  if JS.truthy id then Some id else None.

(** A file object of the session directory carries the identifier. *)
Definition referenced (self : CryptDir.t) (id : string) : Prop :=
  exists f, f ∈ FSDirectory.files (CryptDir.fsDirectory self) /\
            file.fileId f = id.

(** An entry of the previous snapshot whose blob [#removeObsoleteDirents]
    removes: a file entry whose identifier no file object carries. *)
Definition doomed (self : CryptDir.t) (d : dirent.t) (id : string) : Prop :=
  dirent.fileId d = Some id /\ JS.truthy id = true /\ ~ referenced self id.

(** The store of [w] holds no manifest, or the manifest [saveToFile] wrote
    for some directory under the password: the path entries read back from
    it are objects with the keys [saveToFile] writes, in its order, so that
    the text [JSON.stringify] makes of them again is the text they were
    parsed from. *)
Definition manifest_as_saved `{P : Platform} (encDir pwd : string) (w : World)
  : Prop :=
  fs w !! path_join encDir nilObjectId = None \/
  exists (directory : FSDirectory.t) (iv : list byte),
    length iv = 16%nat /\
    fs w !! path_join encDir nilObjectId
    = Some (File (AESFileCryptor.encrypted (AESFileCryptor.new pwd) iv
                    (list_byte_of_string
                       (JSON.stringify
                          (FSDirectory.entries_json
                             (FSDirectory.getEntries directory)))))).

(** The store directory is there, or it can be made: nothing exists at its
    path and the directory it lies in exists. *)
Definition store_reachable `{P : Platform} (self : CryptDir.t) (w : World)
  : Prop :=
  fs w !! CryptDir.encDir self = Some Directory \/
  (fs w !! CryptDir.encDir self = None /\
   fs w !! path_dirname (CryptDir.encDir self) = Some Directory).

(** The events [#removeObsoleteDirents] may leave. *)
Definition removal_event : event -> Prop :=
  fun e => match e with
           | Logged _ | Removed _ => True
           | _ => False
           end.

(** The events the loop may leave: log lines, and blobs written under
    identifiers made by [getUuid]. *)
Definition encrypt_event `{P : Platform} (self : CryptDir.t) (e : event) : Prop :=
  match e with
  | Logged _ => True
  | Wrote p => exists n, p = CryptDir.getEncFilePath self (generatedId n)
  | _ => False
  end.

(** A number written with leading zeros up to [size] characters. *)
Definition padded (size : nat) (num : Z) : string :=
  stringUtils.String_repeat "0" (size - String.length (pretty num))
  +:+ pretty num.

(** The text [JSON.stringify] puts between the brackets of an array and
    between the braces of an object. *)
Definition arr_commas : list JSON.value -> string :=
  fix commas (vs : list JSON.value) : string :=
    match vs with
    | [] => EmptyString
    | [x] => JSON.stringify x
    | x :: rest => JSON.stringify x +:+ "," +:+ commas rest
    end.

Definition obj_commas : list (string * JSON.value) -> string :=
  fix commas (kvs : list (string * JSON.value)) : string :=
    match kvs with
    | [] => EmptyString
    | [(k, x)] => JSON.quote k +:+ ":" +:+ JSON.stringify x
    | (k, x) :: rest =>
        JSON.quote k +:+ ":" +:+ JSON.stringify x +:+ "," +:+ commas rest
    end.

(** A JSON value without number literals (the manifest has none). *)
Fixpoint numberless (v : JSON.value) : Prop :=
  match v with
  | JSON.Num _ => False
  | JSON.Arr vs =>
      (fix all (vs : list JSON.value) : Prop :=
         match vs with
         | [] => True
         | x :: rest => numberless x /\ all rest
         end) vs
  | JSON.Obj kvs =>
      (fix all (kvs : list (string * JSON.value)) : Prop :=
         match kvs with
         | [] => True
         | kv :: rest => numberless (snd kv) /\ all rest
         end) kvs
  | _ => True
  end.

(** The first character of a printed value opens it. *)
Definition opens (c : ascii) : Prop :=
  JSON.is_ws c = false /\ (nat_of_ascii c =? 93)%nat = false /\
  (nat_of_ascii c =? 125)%nat = false.

(** Printing a value and reading it at the head of a text gives the value
    and the rest of the text, with fuel for the length of the print. *)
Definition parses_back (v : JSON.value) : Prop :=
  forall (tail : string) (f : nat),
    (String.length (JSON.stringify v) <= f)%nat ->
    JSON.parse_value f (JSON.stringify v +:+ tail) = Some (v, tail).

(** A file object whose blob is in the store of [w]: what
    [encryptStreamToFile] writes under the object's password for a content
    with the recorded hash, [listed] saying where the content comes from. *)
Definition stored `{P : Platform} (self : CryptDir.t) (w : World)
    (listed : list byte -> Prop) (f : file.t) : Prop :=
  objectId (file.fileId f) /\ file.fileId f <> nilObjectId /\
  exists iv content,
    length iv = 16%nat /\
    fs w !! CryptDir.getEncFilePath self (file.fileId f)
    = Some (File (AESFileCryptor.encrypted
                    (AESFileCryptor.new (file.pwd f)) iv content)) /\
    hex (sha256 content) = file.fileHash f /\
    listed content.

(** The messages among the events of a journal, in their order. *)
Definition logged (evs : list event) : list string :=
  omap (fun e => match e with Logged message => Some message | _ => None end) evs.

(** Whether an awaited call was fulfilled. *)
Definition is_settled {A : Type} (r : Run A) : bool :=
  match r with Settled _ _ => true | Unsettled _ => false end.

(** The events a run added to the journal of the world it started in. *)
Definition events_since {A : Type} (w : World) (r : Run A) : list event :=
  drop (length (journal w)) (journal (final_world r)).

(* ================================================================== *)
(** * Properties *)
(* ================================================================== *)

(** ** Strings *)

Lemma chars_append (a b : string) :
  JS.chars (a +:+ b) = (JS.chars a ++ JS.chars b)%list.
Proof.
  induction a as [|c a IH]; [reflexivity|].
  change (String c a +:+ b) with (String c (a +:+ b)).
  simpl. by rewrite IH.
Qed.

Lemma chars_length (s : string) : length (JS.chars s) = String.length s.
Proof. induction s as [|c s IH]; simpl; [done | by rewrite IH]. Qed.

Lemma append_length (a b : string) :
  String.length (a +:+ b) = (String.length a + String.length b)%nat.
Proof. by rewrite <- !chars_length, chars_append, length_app. Qed.

Lemma chars_inj (a b : string) : JS.chars a = JS.chars b -> a = b.
Proof.
  revert b. induction a as [|c a IH]; intros [|d b] Heq; simpl in Heq;
    try discriminate; [done|].
  injection Heq as -> Heq. by rewrite (IH b).
Qed.

Lemma chars_join (xs : list string) :
  JS.chars (JS.join xs) = concat (map JS.chars xs).
Proof.
  induction xs as [|x xs IH]; [reflexivity|].
  change (JS.join (x :: xs)) with (x +:+ JS.join xs).
  rewrite chars_append, IH. reflexivity.
Qed.

Lemma charAt_in_range (alphabet : string) (i : nat) (d : ascii) :
  (i < String.length alphabet)%nat ->
  JS.chars (JS.charAt alphabet i) = [nth i (JS.chars alphabet) d].
Proof.
  unfold JS.charAt. revert i.
  induction alphabet as [|c s IH]; intros i Hi; simpl in Hi; [lia|].
  destruct i as [|i]; [reflexivity|].
  simpl. apply IH. lia.
Qed.

(** ** cryptoUtils: generated secrets *)

Lemma uint32s_length (n : nat) (bs : list byte) :
  length bs = (4 * n)%nat -> length (cryptoUtils.uint32s bs) = n.
Proof.
  revert bs. induction n as [|n IH]; intros bs Hlen.
  - destruct bs; [reflexivity | simpl in Hlen; lia].
  - destruct bs as [|b0 [|b1 [|b2 [|b3 rest]]]]; simpl in Hlen; try lia.
    simpl. f_equal. apply IH. lia.
Qed.

Lemma pwd_chars (alphabet : string) (units : list Z) (d : ascii) :
  (0 < String.length alphabet)%nat ->
  JS.chars (JS.join (map (fun x => JS.charAt alphabet
      (Z.to_nat (x mod Z.of_nat (String.length alphabet)))) units))
  = map (fun x => nth (Z.to_nat (x mod Z.of_nat (String.length alphabet)))
                      (JS.chars alphabet) d) units.
Proof.
  intros Hpos. rewrite chars_join.
  induction units as [|x units IH]; [reflexivity|].
  simpl. rewrite IH. rewrite (charAt_in_range alphabet _ d); [reflexivity|].
  assert (0 <= x mod Z.of_nat (String.length alphabet)
          < Z.of_nat (String.length alphabet))%Z by (apply Z.mod_pos_bound; lia).
  lia.
Qed.

(** C9 (amended): the default alphabet has 67 characters, not 66; with that
    alphabet [generatePwd] returns, for every requested length [n] (48 by
    default), a string of exactly [n] characters, the i-th being the
    alphabet character indexed by the i-th 32-bit random unit modulo 67,
    and it consumes [n] units of the random source. *)
Theorem generatePwd_length_and_alphabet `{P : Platform} (n : nat) (w : World) :
  let units := cryptoUtils.uint32s (map csprng (seq (drawn w) (4 * n))) in
  String.length cryptoUtils.defaultChars = 67%nat /\
  length units = n /\
  exists pwd,
    cryptoUtils.generatePwd n cryptoUtils.defaultChars w
      = Settled pwd (mkWorld (fs w) (journal w) (drawn w + 4 * n)) /\
    String.length pwd = n /\
    JS.chars pwd
      = map (fun x => nth (Z.to_nat (x mod 67)) (JS.chars cryptoUtils.defaultChars)
                          "0"%char) units /\
    (forall c, c ∈ JS.chars pwd -> c ∈ JS.chars cryptoUtils.defaultChars).
Proof.
  intros units.
  assert (Hunits : length units = n).
  { apply uint32s_length. by rewrite length_map, length_seq. }
  split; [reflexivity|]. split; [exact Hunits|].
  assert (Hchars := pwd_chars cryptoUtils.defaultChars units "0"%char).
  specialize (Hchars ltac:(simpl; lia)).
  eexists. split; [reflexivity|].
  fold units.
  change (Z.of_nat (String.length cryptoUtils.defaultChars)) with 67%Z in *.
  split; [|split; [exact Hchars|]].
  - rewrite <- chars_length, Hchars, length_map. exact Hunits.
  - intros c. rewrite Hchars. intros Hc.
    apply list_elem_of_fmap in Hc as (x & -> & _).
    apply list_elem_of_In, nth_In. rewrite chars_length.
    change (String.length cryptoUtils.defaultChars) with 67%nat.
    assert (0 <= x mod 67 < 67)%Z by (apply Z.mod_pos_bound; lia). lia.
Qed.

(** C9, the claim as stated fails: with the random units 0, 1, ..., 66
    [generatePwd] returns 67 pairwise distinct characters (the whole default
    alphabet), so its characters are not confined to 66. *)
Lemma generatePwd_uses_67_characters :
  exists pwd w,
    cryptoUtils.generatePwd (P := Sample.platform) 67 cryptoUtils.defaultChars
      (mkWorld ∅ [] 0) = Settled pwd w /\
    length (JS.chars pwd) = 67%nat /\
    NoDup (JS.chars pwd).
Proof.
  eexists _, _. split; [vm_compute; reflexivity|].
  split; [reflexivity|].
  refine (bool_decide_unpack _ _). vm_compute. exact I.
Qed.

(** ** cryptoUtils: identifiers *)

Lemma prefix_one_char (a c : ascii) (s : string) :
  String.prefix (String a EmptyString) (String c s) = bool_decide (a = c).
Proof.
  cbn -[ascii_dec]. destruct (ascii_dec a c) as [Heq|Hne]; destruct s;
    by rewrite ?(bool_decide_eq_true_2 _ Heq), ?(bool_decide_eq_false_2 _ Hne).
Qed.

Lemma replaceAll_dash_cons (c : ascii) (s : string) :
  JS.replaceAll_from 0 "-" "" (String c s)
  = if bool_decide ("-"%char = c) then JS.replaceAll_from 0 "-" "" s
    else String c (JS.replaceAll_from 0 "-" "" s).
Proof.
  change (JS.replaceAll_from 0 "-" "" (String c s))
    with (if String.prefix "-" (String c s)
          then "" +:+ JS.replaceAll_from (String.length "-" - 1) "-" "" s
          else String c (JS.replaceAll_from 0 "-" "" s)).
  rewrite prefix_one_char. reflexivity.
Qed.

Lemma replaceAll_dash_keeps (c : ascii) (s : string) :
  c ∈ JS.chars s -> c <> "-"%char -> c ∈ JS.chars (JS.replaceAll "-" "" s).
Proof.
  unfold JS.replaceAll. induction s as [|x s IH]; intros Hin Hne; [done|].
  rewrite replaceAll_dash_cons. simpl in Hin.
  apply elem_of_cons in Hin as [->|Hin]; case_bool_decide; subst; simpl.
  - done.
  - left.
  - auto.
  - right. auto.
Qed.

Lemma toUpperCase_keeps (c : ascii) (s : string) :
  c ∈ JS.chars s -> JS.upper c ∈ JS.chars (JS.toUpperCase s).
Proof.
  induction s as [|x s IH]; intros Hin; [by apply elem_of_nil in Hin|].
  change (JS.chars (String x s)) with (x :: JS.chars s) in Hin.
  change (JS.chars (JS.toUpperCase (String x s)))
    with (JS.upper x :: JS.chars (JS.toUpperCase s)).
  apply elem_of_cons in Hin as [->|Hin]; [left|right; auto].
Qed.

Lemma hex_high_digit (b : byte) (bs : list byte) :
  b ∈ bs -> hexDigit (Z.shiftr (Z_of_byte b) 4) ∈ JS.chars (hex bs).
Proof.
  unfold hex. rewrite chars_join.
  induction bs as [|x bs IH]; intros Hin; [by apply elem_of_nil in Hin|].
  simpl. apply elem_of_cons in Hin as [->|Hin].
  - left.
  - right. right. auto.
Qed.

Lemma version_digit (b : byte) :
  hexDigit (Z.shiftr (Z_of_byte (byte_of_Z (Z.lor (Z.land (Z_of_byte b) 15) 64))) 4)
  = "4"%char.
Proof. destruct b; reflexivity. Qed.

Lemma stringify_has_version (rnds : list byte) :
  length rnds = 16%nat ->
  "4"%char ∈ JS.chars (cryptoUtils.stringify (cryptoUtils.v4bits rnds)).
Proof.
  intros Hlen.
  destruct (lookup_lt_is_Some_2 rnds 6 ltac:(lia)) as [b Hb].
  assert (Hin : byte_of_Z (Z.lor (Z.land (Z_of_byte b) 15) 64)
                ∈ take 2 (drop 6 (cryptoUtils.v4bits rnds))).
  { apply list_elem_of_lookup. exists 0%nat.
    rewrite lookup_take by lia. rewrite lookup_drop. unfold cryptoUtils.v4bits.
    rewrite list_lookup_alter_ne by lia.
    rewrite list_lookup_alter. simpl. by rewrite Hb. }
  apply hex_high_digit in Hin. rewrite version_digit in Hin.
  unfold cryptoUtils.stringify. rewrite !chars_append.
  rewrite !elem_of_app. right. right. right. right. left. exact Hin.
Qed.

Lemma nil_chars : JS.chars nilObjectId = replicate 32 "0"%char.
Proof. reflexivity. Qed.

(** ** Awaiting *)

Lemma await_settled {A B : Type} (m : Async A) (k : A -> Async B)
    (w w' : World) (b : B) :
  (x <- m ;; k x) w = Settled b w' ->
  exists a w1, m w = Settled a w1 /\ k a w1 = Settled b w'.
Proof.
  unfold await. destruct (m w) as [a w1|w1]; [eauto | discriminate].
Qed.

Lemma await_run {A B : Type} (m : Async A) (k : A -> Async B)
    (w w1 : World) (a : A) :
  m w = Settled a w1 -> (x <- m ;; k x) w = k a w1.
Proof. unfold await. by intros ->. Qed.

Lemma await_unsettled {A B : Type} (m : Async A) (k : A -> Async B)
    (w w1 : World) :
  m w = Unsettled w1 -> (x <- m ;; k x) w = Unsettled w1.
Proof. unfold await. by intros ->. Qed.

Lemma forOf_cons {A S : Type} (body : S -> A -> Async S) (x : A)
    (xs : list A) (s : S) :
  forOf body (x :: xs) s = (s' <- body s x ;; forOf body xs s').
Proof. reflexivity. Qed.

Lemma find_some {A : Type} (p : A -> bool) (xs : list A) (x : A) :
  JS.find p xs = Some x -> x ∈ xs /\ p x = true.
Proof.
  induction xs as [|y xs IH]; [discriminate|]. simpl.
  destruct (p y) eqn:Hy.
  - intros [= ->]. split; [left | done].
  - intros H. destruct (IH H). split; [by right | done].
Qed.

Lemma find_none {A : Type} (p : A -> bool) (xs : list A) :
  JS.find p xs = None <-> forall x, x ∈ xs -> p x = false.
Proof.
  induction xs as [|y xs IH]; simpl.
  - split; [intros _ x Hx; by apply elem_of_nil in Hx | done].
  - destruct (p y) eqn:Hy.
    + split; [discriminate|]. intros H. specialize (H y ltac:(left)). congruence.
    + rewrite IH. split.
      * intros H x [->|Hx]%elem_of_cons; auto.
      * intros H x Hx. apply H. by right.
Qed.

Lemma find_app {A : Type} (p : A -> bool) (xs ys : list A) :
  JS.find p (xs ++ ys)
  = match JS.find p xs with Some x => Some x | None => JS.find p ys end.
Proof.
  induction xs as [|x xs IH]; [reflexivity|]. simpl.
  destruct (p x); [reflexivity | exact IH].
Qed.

Lemma some_true {A : Type} (p : A -> bool) (xs : list A) :
  JS.some p xs = true <-> exists x, x ∈ xs /\ p x = true.
Proof.
  induction xs as [|y xs IH]; simpl.
  - split; [discriminate | intros (x & Hx & _); by apply elem_of_nil in Hx].
  - rewrite orb_true_iff, IH. split.
    + intros [Hy|(x & Hx & Hp)]; [exists y | exists x]; split; auto; by constructor.
    + intros (x & [->|Hx]%elem_of_cons & Hp); [by left | right; eauto].
Qed.

Lemma streq_true (a b : string) : JS.streq a b = true <-> a = b.
Proof. unfold JS.streq. apply bool_decide_eq_true. Qed.

Lemma opteq_true (a b : option string) : JS.opteq a b = true <-> a = b.
Proof. unfold JS.opteq. apply bool_decide_eq_true. Qed.

(** ** C5: what [#encryptFile] does with a content hash *)

Lemma getUuid_run `{P : Platform} (w : World) :
  cryptoUtils.getUuid None w
  = Settled (generatedId (drawn w)) (mkWorld (fs w) (journal w) (drawn w + 16)).
Proof. reflexivity. Qed.

Lemma generatePwd_run `{P : Platform} (n : nat) (w : World) :
  cryptoUtils.generatePwd n cryptoUtils.defaultChars w
  = Settled (generatedPwd (drawn w) n)
            (mkWorld (fs w) (journal w) (drawn w + 4 * n)).
Proof. reflexivity. Qed.

Lemma calcFileHash_run `{P : Platform} (fullName : string)
    (content : list byte) (w : World) :
  fs w !! fullName = Some (File content) ->
  cryptoUtils.calcFileHash fullName w = Settled (hex (sha256 content)) w.
Proof.
  intros Hfile. unfold cryptoUtils.calcFileHash, await, readFile.
  by rewrite Hfile.
Qed.

Lemma encryptFileToFile_run `{P : Platform} (self : AESFileCryptor.t)
    (srcFile tgtFile : string) (content : list byte) (w : World) :
  fs w !! srcFile = Some (File content) ->
  AESFileCryptor.encryptFileToFile self srcFile tgtFile w
  = Settled tt
      (mkWorld (<[tgtFile := File (AESFileCryptor.encrypted self
                                     (map csprng (seq (drawn w) 16)) content)]> (fs w))
               (journal w ++ [Wrote tgtFile]) (drawn w + 16)).
Proof.
  intros Hfile.
  unfold AESFileCryptor.encryptFileToFile, AESFileCryptor.fileExists, await, ret,
    existsSync, readFile.
  rewrite bool_decide_eq_true_2 by eauto. rewrite Hfile. reflexivity.
Qed.

(** ** C1: the round trip of the cipher pipeline *)

Lemma pipe_attached (iv : list byte) (chunks : list (list byte)) :
  concat (AttachInitVect.pipe (AttachInitVect.mk iv true) chunks) = concat chunks.
Proof.
  induction chunks as [|c chunks IH]; [reflexivity|].
  simpl. by rewrite IH.
Qed.

Lemma pipe_new (iv : list byte) (chunks : list (list byte)) :
  chunks <> [] ->
  concat (AttachInitVect.pipe (AttachInitVect.new iv) chunks)
  = (iv ++ concat chunks)%list.
Proof.
  destruct chunks as [|c chunks]; [done|]. intros _.
  simpl. by rewrite pipe_attached.
Qed.

Section RoundTrip.
Context `{P : Platform} `{!PlatformLaws P}.

Lemma encrypted_format (self : AESFileCryptor.t) (iv content : list byte) :
  AESFileCryptor.encrypted self iv content
  = (iv ++ cipher (AESFileCryptor.cipherKey self) iv (gzip content))%list.
Proof.
  unfold AESFileCryptor.encrypted.
  rewrite pipe_new, chunked_concat; [reflexivity|].
  intros Hnil.
  apply (cipher_nonempty (AESFileCryptor.cipherKey self) iv (gzip content)).
  rewrite <- (chunked_concat (cipher (AESFileCryptor.cipherKey self) iv (gzip content))).
  by rewrite Hnil.
Qed.

Lemma decrypted_encrypted (self : AESFileCryptor.t) (iv content : list byte) :
  length iv = 16%nat ->
  AESFileCryptor.decrypted self (AESFileCryptor.encrypted self iv content)
  = (Ended content, []).
Proof.
  intros Hiv. rewrite encrypted_format. unfold AESFileCryptor.decrypted.
  rewrite take_app_length' by done. rewrite drop_app_length' by done.
  rewrite bool_decide_eq_true_2 by done.
  by rewrite decipher_cipher, unzip_gzip.
Qed.

End RoundTrip.

(** C1: a blob written by [encryptStreamToFile] under a password is the
    sixteen-byte initialization vector followed by the AES ciphertext, under
    the SHA-256 of the password, of the gzip of the content; decrypting it
    with the same password reads the first sixteen bytes as the vector and
    delivers exactly the content to the write stream, which finishes. *)
Theorem decrypt_encrypt_round_trip `{P : Platform} `{!PlatformLaws P}
    (password : string) (content : list byte) (tgtFile : string) (w : World) :
  let self := AESFileCryptor.new password in
  let iv := map csprng (seq (drawn w) 16) in
  let blob := (iv ++ cipher (sha256 (list_byte_of_string password)) iv
                            (gzip content))%list in
  length iv = 16%nat /\
  AESFileCryptor.encryptStreamToFile self content tgtFile w
    = Settled tt (mkWorld (<[tgtFile := File blob]> (fs w))
                          (journal w ++ [Wrote tgtFile]) (drawn w + 16)) /\
  AESFileCryptor.decrypted self blob = (Ended content, []) /\
  (forall w1 writeStream,
      fs w1 !! tgtFile = Some (File blob) ->
      AESFileCryptor.decryptFileToStream self tgtFile writeStream w1
      = (writeStream content true ;;; ret content) w1) /\
  (forall w1 out,
      fs w1 !! tgtFile = Some (File blob) -> out <> tgtFile ->
      exists w2,
        AESFileCryptor.decryptFileToFile self tgtFile out w1 = Settled tt w2 /\
        fs w2 !! out = Some (File content)).
Proof.
  intros self iv blob.
  assert (Hiv : length iv = 16%nat) by (unfold iv; by rewrite length_map, length_seq).
  assert (Hblob : AESFileCryptor.encrypted self iv content = blob)
    by apply encrypted_format.
  assert (Hdec : AESFileCryptor.decrypted self blob = (Ended content, [])).
  { rewrite <- Hblob. by apply decrypted_encrypted. }
  assert (Hstream : forall w1 writeStream,
      fs w1 !! tgtFile = Some (File blob) ->
      AESFileCryptor.decryptFileToStream self tgtFile writeStream w1
      = (writeStream content true ;;; ret content) w1).
  { intros w1 writeStream Hfile.
    unfold AESFileCryptor.decryptFileToStream, await at 1, existsSync.
    rewrite bool_decide_eq_true_2 by eauto.
    unfold await at 1, readFile. rewrite Hfile, Hdec. reflexivity. }
  split; [exact Hiv|]. split; [|split; [exact Hdec|split; [exact Hstream|]]].
  - unfold AESFileCryptor.encryptStreamToFile, await, randomBytes, writeFile.
    fold iv. by rewrite Hblob.
  - intros w1 out Hfile Hout.
    unfold AESFileCryptor.decryptFileToFile.
    unfold await at 1, openFile.
    unfold await at 1. rewrite Hstream by (simpl; by rewrite lookup_insert_ne).
    eexists. split; [reflexivity|]. simpl. by rewrite lookup_insert_eq.
Qed.

(** ** C7: an absent source is an empty result *)

(** C7: when nothing exists at the source path, [decryptFileToStream]
    fulfils its promise without delivering a byte and without touching
    the world, [decryptFileToJson] returns the (falsy) empty value, and
    [loadEntries] on the path of the manifest leaves the directory as it
    was, which for a new directory means no path entries and no files. *)
Theorem absent_source_is_empty `{P : Platform} (srcFile : string) (w : World) :
  fs w !! srcFile = None ->
  (forall self writeStream,
      AESFileCryptor.decryptFileToStream self srcFile writeStream w = Settled [] w) /\
  (forall self, AESFileCryptor.decryptFileToJson self srcFile w = Settled None w) /\
  (forall directory encDir pwd,
      path_join encDir (FSDirectory.defaultFileName directory) = srcFile ->
      FSDirectory.loadEntries directory encDir pwd w
      = Settled (directory, FSDirectory.getEntries directory) w) /\
  (forall encDir pwd,
      path_join encDir nilObjectId = srcFile ->
      (directory <- FSDirectory.new ;; FSDirectory.loadEntries directory encDir pwd) w
      = Settled (FSDirectory.mk nilObjectId [] [], FSDirectory.mkEntries [] []) w).
Proof.
  intros Habsent.
  assert (Hstream : forall self writeStream,
      AESFileCryptor.decryptFileToStream self srcFile writeStream w = Settled [] w).
  { intros self writeStream.
    unfold AESFileCryptor.decryptFileToStream, await, existsSync.
    rewrite bool_decide_eq_false_2; [reflexivity|].
    rewrite Habsent. by intros [? ?]. }
  assert (Hjson : forall self,
      AESFileCryptor.decryptFileToJson self srcFile w = Settled None w).
  { intros self. unfold AESFileCryptor.decryptFileToJson.
    rewrite (await_run _ _ _ _ _ (Hstream self _)). reflexivity. }
  assert (Hload : forall directory encDir pwd,
      path_join encDir (FSDirectory.defaultFileName directory) = srcFile ->
      FSDirectory.loadEntries directory encDir pwd w
      = Settled (directory, FSDirectory.getEntries directory) w).
  { intros directory encDir pwd Hpath.
    unfold FSDirectory.loadEntries, FSDirectory.getAesFileCryptorAndFile.
    rewrite Hpath. rewrite (await_run _ _ _ _ _ (Hjson _)). reflexivity. }
  split; [exact Hstream|]. split; [exact Hjson|]. split; [exact Hload|].
  intros encDir pwd Hpath.
  unfold FSDirectory.new.
  unfold await at 1. unfold await at 1.
  change (cryptoUtils.getNilUuid w) with (Settled nilObjectId w).
  unfold ret at 1. by rewrite Hload.
Qed.

(** ** The shape of an identifier *)

Lemma chars_replaceAll_dash (s : string) :
  JS.chars (JS.replaceAll "-" "" s)
  = filter (fun c => c <> "-"%char) (JS.chars s).
Proof.
  unfold JS.replaceAll. induction s as [|c s IH]; [reflexivity|].
  rewrite replaceAll_dash_cons.
  change (JS.chars (String c s)) with (c :: JS.chars s).
  rewrite filter_cons. case_bool_decide as Hc.
  - subst c. by rewrite decide_False by (intros H; by apply H).
  - rewrite decide_True by congruence. simpl. by rewrite IH.
Qed.

Lemma chars_toUpperCase (s : string) :
  JS.chars (JS.toUpperCase s) = map JS.upper (JS.chars s).
Proof. induction s as [|c s IH]; [reflexivity|]. simpl. by rewrite IH. Qed.

Lemma hexDigit_upper (n : Z) :
  hexDigit n <> "-"%char /\
  JS.upper (hexDigit n) ∈ JS.chars "0123456789ABCDEF".
Proof.
  unfold hexDigit. generalize (Z.to_nat n). intros k.
  do 16 (destruct k as [|k];
         [split; [discriminate
                 | refine (bool_decide_unpack _ _); vm_compute; exact I]|]).
  split; [discriminate | refine (bool_decide_unpack _ _); vm_compute; exact I].
Qed.

Lemma hex_chars (bs : list byte) :
  length (JS.chars (hex bs)) = (2 * length bs)%nat /\
  Forall (fun c => c <> "-"%char /\
                   JS.upper c ∈ JS.chars "0123456789ABCDEF")
         (JS.chars (hex bs)).
Proof.
  unfold hex. rewrite chars_join.
  induction bs as [|b bs [IHlen IHall]]; [split; [reflexivity | constructor]|].
  split.
  - cbn [map concat length]. rewrite length_app, IHlen. simpl. lia.
  - cbn [map concat]. apply Forall_app. split; [|exact IHall].
    change (JS.chars (hexByte b))
      with [hexDigit (Z.shiftr (Z_of_byte b) 4);
            hexDigit (Z.land (Z_of_byte b) 15)].
    apply Forall_cons. split; [apply hexDigit_upper|].
    apply Forall_cons. split; [apply hexDigit_upper | constructor].
Qed.

Lemma filter_all {A : Type} (P : A -> Prop) `{!forall x, Decision (P x)}
    (l : list A) :
  Forall P l -> filter P l = l.
Proof.
  induction 1 as [|x l Hx _ IH]; [reflexivity|].
  by rewrite filter_cons, decide_True, IH.
Qed.

Lemma hex_without_dash (bs : list byte) :
  filter (fun c => c <> "-"%char) (JS.chars (hex bs)) = JS.chars (hex bs).
Proof.
  apply filter_all. eapply Forall_impl; [exact (proj2 (hex_chars bs))|].
  by intros c [Hc _].
Qed.

Lemma generatedId_objectId `{P : Platform} (n : nat) : objectId (generatedId n).
Proof.
  unfold objectId, generatedId.
  set (rnds := cryptoUtils.v4bits (map csprng (seq n 16))).
  assert (Hlen : length rnds = 16%nat).
  { unfold rnds, cryptoUtils.v4bits.
    by rewrite !length_alter, length_map, length_seq. }
  assert (Hchars :
    JS.chars (JS.toUpperCase (JS.replaceAll "-" "" (cryptoUtils.stringify rnds)))
    = map JS.upper
        (JS.chars (hex (take 4 rnds)) ++ JS.chars (hex (take 2 (drop 4 rnds)))
         ++ JS.chars (hex (take 2 (drop 6 rnds)))
         ++ JS.chars (hex (take 2 (drop 8 rnds)))
         ++ JS.chars (hex (take 6 (drop 10 rnds))))%list).
  { rewrite chars_toUpperCase, chars_replaceAll_dash. f_equal.
    unfold cryptoUtils.stringify. rewrite !chars_append.
    change (JS.chars "-") with ["-"%char].
    rewrite !filter_app.
    assert (Hdash : filter (fun c => c <> "-"%char) ["-"%char] = []).
    { rewrite filter_cons. by rewrite decide_False by (intros H; by apply H). }
    rewrite Hdash. cbn [app].
    by rewrite !hex_without_dash. }
  split.
  - rewrite <- chars_length, Hchars, length_map, !length_app.
    rewrite !(proj1 (hex_chars _)), !length_take, !length_drop. lia.
  - rewrite Hchars. apply Forall_forall.
    intros c (x & -> & Hx)%list_elem_of_fmap.
    rewrite !elem_of_app in Hx.
    assert (Hok : forall bs, x ∈ JS.chars (hex bs) ->
                             JS.upper x ∈ JS.chars "0123456789ABCDEF").
    { intros bs Hin.
      exact (proj2 (proj1 (Forall_forall _ _) (proj2 (hex_chars bs)) x Hin)). }
    destruct Hx as [Hx|[Hx|[Hx|[Hx|Hx]]]]; by apply Hok in Hx.
Qed.

Lemma nilObjectId_objectId : objectId nilObjectId.
Proof.
  split; [reflexivity|]. rewrite nil_chars.
  apply Forall_forall. intros c [-> _]%elem_of_replicate.
  refine (bool_decide_unpack _ _). vm_compute. exact I.
Qed.

Lemma objectId_truthy (id : string) : objectId id -> JS.truthy id = true.
Proof. intros [Hlen _]. by destruct id. Qed.

Lemma referenced_find (self : CryptDir.t) (id : string) :
  FSDirectory.findFileById (CryptDir.fsDirectory self) id = None <->
  ~ referenced self id.
Proof.
  unfold FSDirectory.findFileById, referenced. rewrite find_none. split.
  - intros Hnone (f & Hf & Hid). specialize (Hnone f Hf).
    by rewrite (proj2 (streq_true _ _) Hid) in Hnone.
  - intros Hno f Hf. destruct (JS.streq (file.fileId f) id) eqn:Heq; [|done].
    destruct Hno. exists f. split; [done|]. by apply streq_true.
Qed.

(** ** C6: obsolete entries and the blobs removed for them *)

Lemma getObsoleteDirents_spec (current previous : FSDirectory.t) (d : dirent.t) :
  d ∈ FSDirectory.getObsoleteDirents current previous <->
  d ∈ FSDirectory.dirents previous /\
  ~ exists e, e ∈ FSDirectory.dirents current /\
              dirent.path e = dirent.path d /\
              dirent.fileId e = dirent.fileId d.
Proof.
  unfold FSDirectory.getObsoleteDirents.
  rewrite list_elem_of_In, filter_In, <- list_elem_of_In.
  rewrite negb_true_iff, <- not_true_iff_false, some_true.
  split; intros [Hin Hno]; split; try done; intros (e & He & Hp).
  - apply Hno. exists e. split; [done|].
    apply andb_true_iff. by rewrite streq_true, opteq_true.
  - apply Hno. exists e. split; [done|].
    apply andb_true_iff in Hp. by rewrite streq_true, opteq_true in Hp.
Qed.

Lemma logDirentProc_run (path : string) (isDir : bool) (proc : string) (w : World) :
  exists msg, CryptDir.logDirentProc path isDir proc w
              = Settled tt (mkWorld (fs w) (journal w ++ [Logged msg]) (drawn w)).
Proof. eexists. reflexivity. Qed.

Lemma removeObsoleteDirent_run `{P : Platform} (self : CryptDir.t) (d : dirent.t)
    (w : World) :
  exists w' evs,
    CryptDir.removeObsoleteDirent self d w = Settled tt w' /\
    drawn w' = drawn w /\
    journal w' = (journal w ++ evs)%list /\ Forall removal_event evs /\
    (forall id, doomed self d id ->
                fs w' = delete (CryptDir.getEncFilePath self id) (fs w)) /\
    ((forall id, ~ doomed self d id) -> fs w' = fs w).
Proof.
  unfold CryptDir.removeObsoleteDirent, doomed.
  set (logging := if _ : bool then _ else _).
  assert (Hlog : forall w0, exists evs,
             logging w0 = Settled tt (mkWorld (fs w0) (journal w0 ++ evs) (drawn w0))
             /\ Forall removal_event evs).
  { intros w0. unfold logging. destruct (_ || _).
    - destruct (logDirentProc_run (dirent.path d)
        (match dirent.fileId d with Some id => negb (JS.truthy id) | None => true end)
        "Removed" w0) as [msg Hmsg].
      exists [Logged msg]. split; [exact Hmsg|]. apply Forall_singleton. exact I.
    - exists []. split; [|constructor]. unfold ret. rewrite app_nil_r. by destruct w0. }
  clearbody logging.
  destruct (dirent.fileId d) as [id|] eqn:Hid.
  - destruct (JS.truthy id) eqn:Htruthy; simpl.
    + destruct (FSDirectory.findFileById (CryptDir.fsDirectory self) id) as [f|] eqn:Hf.
      * rewrite bool_decide_eq_true_2 by eauto. simpl.
        destruct (Hlog w) as (evs & Hrun & Hevs).
        exists (mkWorld (fs w) (journal w ++ evs) (drawn w)), evs.
        unfold await, ret. rewrite Hrun.
        repeat split; try done. intros id' (Heq & _ & Hnone).
        injection Heq as <-. apply referenced_find in Hnone. congruence.
      * rewrite bool_decide_eq_false_2 by (by intros [? ?]). simpl.
        apply referenced_find in Hf.
        unfold CryptDir.rmSyncWithCheck, await, ret, existsSync, rmSync.
        case_bool_decide as Hex.
        -- destruct (Hlog (mkWorld (delete (CryptDir.getEncFilePath self id) (fs w))
                             (journal w ++ [Removed (CryptDir.getEncFilePath self id)])
                             (drawn w))) as (evs & Hrun & Hevs).
           rewrite Hrun. simpl.
           eexists _, (Removed (CryptDir.getEncFilePath self id) :: evs).
           split; [reflexivity|]. simpl. rewrite <- app_assoc. simpl.
           repeat split; try done.
           ++ constructor; [exact I | done].
           ++ intros id' (Heq & _). by injection Heq as <-.
           ++ intros Hno. by destruct (Hno id).
        -- destruct (Hlog w) as (evs & Hrun & Hevs). rewrite Hrun.
           eexists _, evs. split; [reflexivity|]. simpl.
           repeat split; try done.
           intros id' (Heq & _). injection Heq as <-.
           symmetry. apply delete_id.
           destruct (fs w !! CryptDir.getEncFilePath self id) eqn:Hl; [|done].
           destruct Hex. eauto.
    + destruct (Hlog w) as (evs & Hrun & Hevs).
      exists (mkWorld (fs w) (journal w ++ evs) (drawn w)), evs.
      unfold await, ret. rewrite Hrun.
      repeat split; try done. intros id' (Heq & Ht & _).
      injection Heq as <-. congruence.
  - destruct (Hlog w) as (evs & Hrun & Hevs).
    exists (mkWorld (fs w) (journal w ++ evs) (drawn w)), evs.
    unfold await, ret. rewrite Hrun.
    repeat split; try done. intros id' (Heq & _). discriminate.
Qed.

Lemma doomed_dec (self : CryptDir.t) (d : dirent.t) :
  (exists id, doomed self d id) \/ (forall id, ~ doomed self d id).
Proof.
  unfold doomed. destruct (dirent.fileId d) as [id|].
  - destruct (JS.truthy id) eqn:Ht.
    + destruct (FSDirectory.findFileById (CryptDir.fsDirectory self) id) eqn:Hf.
      * right. intros id' ([= <-] & _ & Hnone).
        apply referenced_find in Hnone. congruence.
      * left. exists id. apply referenced_find in Hf. by repeat split.
    + right. intros id' ([= <-] & Ht' & _). congruence.
  - right. intros id' (Habs & _). discriminate.
Qed.

Lemma removeObsoleteDirents_loop `{P : Platform} (self : CryptDir.t)
    (ds : list dirent.t) (w : World) :
  exists w' evs,
    forOf (fun _ d => CryptDir.removeObsoleteDirent self d) ds tt w = Settled tt w' /\
    drawn w' = drawn w /\
    journal w' = (journal w ++ evs)%list /\ Forall removal_event evs /\
    (forall p, fs w !! p = None -> fs w' !! p = None) /\
    (forall d id, d ∈ ds -> doomed self d id ->
                  fs w' !! CryptDir.getEncFilePath self id = None) /\
    (forall p, (forall d id, d ∈ ds -> doomed self d id ->
                             p <> CryptDir.getEncFilePath self id) ->
               fs w' !! p = fs w !! p).
Proof.
  revert w. induction ds as [|d ds IH]; intros w.
  - exists w, []. split; [reflexivity|]. rewrite app_nil_r.
    repeat split; try done. intros d id Hd. by apply elem_of_nil in Hd.
  - destruct (removeObsoleteDirent_run self d w)
      as (w1 & evs1 & Hrun1 & Hdrawn1 & Hj1 & Hev1 & Hdoomed1 & Hkept1).
    destruct (IH w1) as (w' & evs & Hrun & Hdrawn & Hj & Hev & Hmono & Hgone & Hframe).
    exists w', (evs1 ++ evs)%list.
    assert (Hmono1 : forall p, fs w !! p = None -> fs w1 !! p = None).
    { intros p Hp. destruct (doomed_dec self d) as [[id Hid]|Hno].
      - rewrite (Hdoomed1 id Hid).
        destruct (decide (CryptDir.getEncFilePath self id = p)) as [<-|Hne].
        + apply lookup_delete_eq.
        + by rewrite lookup_delete_ne.
      - by rewrite (Hkept1 Hno). }
    split; [rewrite forOf_cons; by rewrite (await_run _ _ _ _ _ Hrun1)|].
    split; [congruence|]. split; [by rewrite Hj, Hj1, app_assoc|].
    split; [by apply Forall_app|].
    split; [intros p Hp; auto|]. split.
    + intros d0 id [->|Hd0]%elem_of_cons Hid; [|by apply (Hgone d0 id)].
      apply Hmono. rewrite (Hdoomed1 id Hid). apply lookup_delete_eq.
    + intros p Hp. rewrite Hframe.
      * destruct (doomed_dec self d) as [[id Hid]|Hno].
        -- rewrite (Hdoomed1 id Hid). apply lookup_delete_ne.
           intros Heq. apply (Hp d id); [left | done | done].
        -- by rewrite (Hkept1 Hno).
      * intros d0 id Hd0 Hid. apply (Hp d0 id); [by right | done].
Qed.

(** C6: the obsolete entries are exactly the entries of the previous
    snapshot whose (path, fileId) pair does not occur among the current
    path entries. After [#removeObsoleteDirents] the blob of an obsolete
    file entry is gone from the store if and only if no file object of the
    current directory carries its identifier; this for a snapshot whose
    entries carry object identifiers, the store keeping different object
    identifiers under different paths. Every path that is not the blob of
    such an entry keeps what it held. *)
Theorem obsolete_entries_and_removed_blobs `{P : Platform} (self : CryptDir.t)
    (previous : FSDirectory.t) (w : World) :
  let obsolete :=
    FSDirectory.getObsoleteDirents (CryptDir.fsDirectory self) previous in
  (forall d, d ∈ obsolete <->
     d ∈ FSDirectory.dirents previous /\
     ~ exists e, e ∈ FSDirectory.dirents (CryptDir.fsDirectory self) /\
                 dirent.path e = dirent.path d /\
                 dirent.fileId e = dirent.fileId d) /\
  exists w',
    CryptDir.removeObsoleteDirents self previous w = Settled tt w' /\
    ((forall d id, d ∈ obsolete -> dirent.fileId d = Some id -> objectId id) ->
     (forall id id', objectId id -> objectId id' ->
                     CryptDir.getEncFilePath self id
                     = CryptDir.getEncFilePath self id' -> id = id') ->
     forall d id blob,
       d ∈ obsolete -> dirent.fileId d = Some id ->
       fs w !! CryptDir.getEncFilePath self id = Some blob ->
       (fs w' !! CryptDir.getEncFilePath self id = None <->
        ~ exists f, f ∈ FSDirectory.files (CryptDir.fsDirectory self) /\
                    file.fileId f = id)) /\
    (forall p,
        (forall d id, d ∈ obsolete -> doomed self d id ->
                      p <> CryptDir.getEncFilePath self id) ->
        fs w' !! p = fs w !! p).
Proof.
  intros obsolete. split; [intros d; apply getObsoleteDirents_spec|].
  destruct (removeObsoleteDirents_loop self obsolete w)
    as (w' & evs & Hrun & _ & _ & _ & _ & Hgone & Hframe).
  exists w'. split; [exact Hrun|]. split; [|exact Hframe].
  intros Hobj Hinj d id blob Hd Hid Hblob.
  pose proof (Hobj d id Hd Hid) as Hoid. split.
  - intros Hnone Href.
    rewrite Hframe in Hnone; [congruence|].
    intros d0 id0 Hd0 (Hid0 & _ & Hfree) Heq.
    apply Hinj in Heq; [|done|by apply (Hobj d0)].
    subst id0. by apply Hfree.
  - intros Hfree. apply (Hgone d id Hd).
    split; [done|]. split; [by apply objectId_truthy | exact Hfree].
Qed.

(** ** Loading the manifest leaves the world alone *)

Lemma decrypted_ended `{P : Platform} (self : AESFileCryptor.t)
    (source plain : list byte) (messages : list string) :
  AESFileCryptor.decrypted self source = (Ended plain, messages) -> messages = [].
Proof.
  unfold AESFileCryptor.decrypted. case_bool_decide; [|discriminate].
  destruct (decipher _ _ _) as [zipped|zipped]; destruct (unzip zipped);
    intros [= _ <-] || discriminate; reflexivity.
Qed.

Lemma decryptFileToJson_settled `{P : Platform} (self : AESFileCryptor.t)
    (srcFile : string) (w w' : World) (r : option JSON.value) :
  AESFileCryptor.decryptFileToJson self srcFile w = Settled r w' -> w' = w.
Proof.
  unfold AESFileCryptor.decryptFileToJson, AESFileCryptor.decryptFileToStream.
  unfold await at 1 2, existsSync.
  destruct (bool_decide _).
  - unfold await at 1, readFile.
    destruct (fs w !! srcFile) as [[source|]|]; try discriminate.
    destruct (AESFileCryptor.decrypted self source) as [[plain|partial] messages] eqn:Hd.
    + apply decrypted_ended in Hd as ->. unfold await, ret. simpl.
      destruct (JS.truthy _); [|by intros [= _ <-]].
      destruct (JSON.parse _); [by intros [= _ <-] | discriminate].
    + unfold await at 1.
      destruct (forOf _ messages tt w); [|discriminate].
      unfold await, ret, never. discriminate.
  - unfold ret. simpl. by intros [= _ <-].
Qed.

Lemma loadEntries_settled `{P : Platform} (directory : FSDirectory.t)
    (encDir pwd : string) (w w' : World) (r : FSDirectory.t * FSDirectory.entries) :
  FSDirectory.loadEntries directory encDir pwd w = Settled r w' ->
  w' = w /\ FSDirectory.e_dirents (snd r) = FSDirectory.dirents (fst r)
         /\ FSDirectory.e_files (snd r) = FSDirectory.files (fst r).
Proof.
  unfold FSDirectory.loadEntries, FSDirectory.getAesFileCryptorAndFile.
  intros (loaded & w1 & Hjson & Hrest)%await_settled.
  apply decryptFileToJson_settled in Hjson as ->.
  destruct loaded as [[| | | | |members]|];
    try (injection Hrest as <- <-; by repeat split).
  destruct (FSDirectory.assign directory members); [|discriminate].
  injection Hrest as <- <-. by repeat split.
Qed.

(** ** The loop of [encrypt] over the source entries *)

Lemma generatedId_not_nil `{P : Platform} (d : nat) : generatedId d <> nilObjectId.
Proof.
  intros Heq.
  assert (Hin : "4"%char ∈ JS.chars nilObjectId).
  { rewrite <- Heq. change "4"%char with (JS.upper "4"%char).
    apply toUpperCase_keeps, replaceAll_dash_keeps; [|done].
    apply stringify_has_version. by rewrite length_map, length_seq. }
  rewrite nil_chars in Hin. apply elem_of_replicate in Hin as [Hin _]. done.
Qed.

Lemma logDirentEncryption_run (path : string) (isDir : bool)
    (params : CryptDir.fileParams) (currDirectory : FSDirectory.t) (w : World) :
  exists evs,
    CryptDir.logDirentEncryption path isDir params currDirectory w
    = Settled tt (mkWorld (fs w) (journal w ++ evs) (drawn w)) /\
    Forall (fun e => exists msg, e = Logged msg) evs.
Proof.
  unfold CryptDir.logDirentEncryption.
  destruct (FSDirectory.findDirent currDirectory path) as [d|].
  - destruct (negb _).
    + destruct (logDirentProc_run path isDir "Updated" w) as [msg ->].
      exists [Logged msg]. split; [done|]. apply Forall_singleton. eauto.
    + exists []. rewrite app_nil_r. split; [by destruct w | constructor].
  - destruct (logDirentProc_run path isDir "Added" w) as [msg ->].
    exists [Logged msg]. split; [done|]. apply Forall_singleton. eauto.
Qed.

(** What one call of [#encryptFile] returns and leaves, case by case. *)
Lemma encryptFile_known `{P : Platform} (self : CryptDir.t)
    (currDirectory : FSDirectory.t) (fullName : string) (content : list byte)
    (f : file.t) (w : World) :
  fs w !! fullName = Some (File content) ->
  FSDirectory.findFileByHash (CryptDir.fsDirectory self) (hex (sha256 content))
    = Some f ->
  CryptDir.encryptFile self fullName currDirectory w
  = Settled (Some (file.fileId f), None) w.
Proof.
  intros Hfile Hs. unfold CryptDir.encryptFile.
  rewrite (await_run _ _ _ _ _ (calcFileHash_run _ _ _ Hfile)).
  by rewrite Hs.
Qed.

Lemma encryptFile_carried `{P : Platform} (self : CryptDir.t)
    (currDirectory : FSDirectory.t) (fullName : string) (content : list byte)
    (f : file.t) (w : World) :
  fs w !! fullName = Some (File content) ->
  FSDirectory.findFileByHash (CryptDir.fsDirectory self) (hex (sha256 content))
    = None ->
  FSDirectory.findFileByHash currDirectory (hex (sha256 content)) = Some f ->
  CryptDir.encryptFile self fullName currDirectory w
  = Settled (Some (file.fileId f),
             Some (file.mk (file.fileId f) (hex (sha256 content)) (file.pwd f))) w.
Proof.
  intros Hfile Hs Hc. unfold CryptDir.encryptFile.
  rewrite (await_run _ _ _ _ _ (calcFileHash_run _ _ _ Hfile)).
  rewrite Hs. unfold CryptDir.getFileData. by rewrite Hc.
Qed.

Lemma encryptFile_fresh `{P : Platform} (self : CryptDir.t)
    (currDirectory : FSDirectory.t) (fullName : string) (content : list byte)
    (w : World) :
  fs w !! fullName = Some (File content) ->
  FSDirectory.findFileByHash (CryptDir.fsDirectory self) (hex (sha256 content))
    = None ->
  FSDirectory.findFileByHash currDirectory (hex (sha256 content)) = None ->
  CryptDir.encryptFile self fullName currDirectory w
  = Settled (Some (generatedId (drawn w)),
             Some (file.mk (generatedId (drawn w)) (hex (sha256 content))
                           (generatedPwd (drawn w + 16) 48)))
      (mkWorld
         (<[CryptDir.getEncFilePath self (generatedId (drawn w)) :=
              File (AESFileCryptor.encrypted
                      (AESFileCryptor.new (generatedPwd (drawn w + 16) 48))
                      (map csprng (seq (drawn w + 16 + 4 * 48) 16)) content)]>
            (fs w))
         (journal w ++ [Wrote (CryptDir.getEncFilePath self (generatedId (drawn w)))])
         (drawn w + 16 + 4 * 48 + 16)).
Proof.
  intros Hfile Hs Hc. unfold CryptDir.encryptFile.
  rewrite (await_run _ _ _ _ _ (calcFileHash_run _ _ _ Hfile)).
  rewrite Hs. unfold CryptDir.getFileData. rewrite Hc.
  unfold await at 1. unfold await at 1. rewrite getUuid_run.
  unfold await at 1. rewrite generatePwd_run.
  unfold ret at 1. unfold await at 1.
  cbn [CryptDir.exists_ negb CryptDir.fd_pwd CryptDir.fd_fileId].
  rewrite (encryptFileToFile_run _ _ _ content) by exact Hfile.
  reflexivity.
Qed.

Lemma encryptFile_settled `{P : Platform} (self : CryptDir.t)
    (currDirectory : FSDirectory.t) (fullName : string)
    (w w' : World) (params : CryptDir.fileParams) :
  CryptDir.encryptFile self fullName currDirectory w = Settled params w' ->
  exists content, fs w !! fullName = Some (File content).
Proof.
  unfold CryptDir.encryptFile, cryptoUtils.calcFileHash.
  unfold await at 1 2, readFile.
  destruct (fs w !! fullName) as [[content|]|]; [eauto | discriminate..].
Qed.

(** One turn of the loop: the entry added, the events left, the paths
    touched, and, for a file, what its content hash resolved to. *)
Lemma encryptDirent_step `{P : Platform} (self self' : CryptDir.t) (d : fs_Dirent)
    (currDirectory : FSDirectory.t) (w w' : World) :
  CryptDir.encryptDirent self d currDirectory w = Settled self' w' ->
  exists (fileId : option string) (file : option file.t) (evs : list event),
    self' = CryptDir.mk (CryptDir.srcDir self) (CryptDir.encDir self)
              (FSDirectory.addEntry (CryptDir.fsDirectory self)
                 (CryptDir.getRelativePath self (CryptDir.getDirentFullName d))
                 fileId file) /\
    journal w' = (journal w ++ evs)%list /\ Forall (encrypt_event self) evs /\
    (forall p, (forall n, p <> CryptDir.getEncFilePath self (generatedId n)) ->
               fs w' !! p = fs w !! p) /\
    (isDirectory d = true -> fileId = None /\ file = None) /\
    (isDirectory d = false ->
     exists content,
       fs w !! CryptDir.getDirentFullName d = Some (File content) /\
       match FSDirectory.findFileByHash (CryptDir.fsDirectory self)
               (hex (sha256 content)) with
       | Some f => fileId = Some (file.fileId f) /\ file = None
       | None => exists id pwd,
           fileId = Some id /\ file = Some (file.mk id (hex (sha256 content)) pwd)
       end).
Proof.
  unfold CryptDir.encryptDirent. fold (CryptDir.getDirentFullName d).
  intros ([fileId file] & w1 & Hparams & Hrest)%await_settled.
  apply await_settled in Hrest as ([] & w2 & Hlog & Hret).
  injection Hret as <- <-.
  destruct (logDirentEncryption_run
              (CryptDir.getRelativePath self (CryptDir.getDirentFullName d))
              (isDirectory d) (fileId, file) currDirectory w1) as (logs & Hlogs & Hall).
  rewrite Hlogs in Hlog. injection Hlog as <-.
  assert (Hlogged : Forall (encrypt_event self) logs).
  { eapply Forall_impl; [exact Hall|]. by intros e [msg ->]. }
  destruct (isDirectory d) eqn:Hdir; simpl in Hparams.
  - injection Hparams as <- <- <-.
    exists None, None, logs. simpl. repeat split; try done.
  - destruct (encryptFile_settled _ _ _ _ _ _ Hparams) as [content Hfile].
    destruct (FSDirectory.findFileByHash (CryptDir.fsDirectory self)
                (hex (sha256 content))) as [f|] eqn:Hs.
    + rewrite (encryptFile_known _ _ _ _ _ _ Hfile Hs) in Hparams.
      injection Hparams as <- <- <-.
      exists (Some (file.fileId f)), None, logs. simpl.
      repeat split; try done. intros _. exists content. by rewrite Hs.
    + destruct (FSDirectory.findFileByHash currDirectory (hex (sha256 content)))
        as [f|] eqn:Hc.
      * rewrite (encryptFile_carried _ _ _ _ _ _ Hfile Hs Hc) in Hparams.
        injection Hparams as <- <- <-.
        eexists _, _, logs. simpl. repeat split; try done.
        intros _. exists content. rewrite Hs. eauto.
      * rewrite (encryptFile_fresh _ _ _ _ _ Hfile Hs Hc) in Hparams.
        injection Hparams as <- <- <-.
        eexists _, _, (Wrote _ :: logs). simpl. rewrite <- app_assoc. simpl.
        repeat split; try done.
        -- constructor; [|done]. by eexists.
        -- intros p Hp. by rewrite lookup_insert_ne.
        -- intros _. exists content. rewrite Hs. eauto.
Qed.

Lemma findFileByHash_own (files : list file.t) (f : file.t) :
  JS.find (fun g => JS.streq (file.fileHash g) (file.fileHash f)) files = None ->
  JS.find (fun g => JS.streq (file.fileHash g) (file.fileHash f)) (files ++ [f])
  = Some f.
Proof.
  intros Hnone. rewrite find_app, Hnone. simpl.
  by rewrite (proj2 (streq_true _ _) eq_refl).
Qed.

Lemma find_none_not_hash (files : list file.t) (h : string) :
  JS.find (fun g => JS.streq (file.fileHash g) h) files = None ->
  h ∉ map file.fileHash files.
Proof.
  intros Hnone (g & -> & Hg)%list_elem_of_fmap.
  rewrite find_none in Hnone. specialize (Hnone g Hg).
  by rewrite (proj2 (streq_true _ _) eq_refl) in Hnone.
Qed.

(** What one turn of the loop establishes. *)
Lemma encryptDirent_summary `{P : Platform} (self self' : CryptDir.t) (d : fs_Dirent)
    (currDirectory : FSDirectory.t) (w w' : World) :
  CryptDir.encryptDirent self d currDirectory w = Settled self' w' ->
  CryptDir.srcDir self' = CryptDir.srcDir self /\
  CryptDir.encDir self' = CryptDir.encDir self /\
  FSDirectory.defaultFileName (CryptDir.fsDirectory self')
    = FSDirectory.defaultFileName (CryptDir.fsDirectory self) /\
  (exists e,
      FSDirectory.dirents (CryptDir.fsDirectory self')
        = (FSDirectory.dirents (CryptDir.fsDirectory self) ++ [e])%list /\
      dirent.path e
        = CryptDir.getRelativePath self (CryptDir.getDirentFullName d) /\
      (isDirectory d = true -> dirent.fileId e = None) /\
      (forall content,
          isDirectory d = false ->
          fs w !! CryptDir.getDirentFullName d = Some (File content) ->
          exists f,
            FSDirectory.findFileByHash (CryptDir.fsDirectory self')
              (hex (sha256 content)) = Some f /\
            dirent.fileId e = recorded (file.fileId f))) /\
  (exists added,
      FSDirectory.files (CryptDir.fsDirectory self')
        = (FSDirectory.files (CryptDir.fsDirectory self) ++ added)%list) /\
  (NoDup (map file.fileHash (FSDirectory.files (CryptDir.fsDirectory self))) ->
   NoDup (map file.fileHash (FSDirectory.files (CryptDir.fsDirectory self')))) /\
  (exists evs, journal w' = (journal w ++ evs)%list /\
               Forall (encrypt_event self) evs) /\
  (forall p, (forall n, p <> CryptDir.getEncFilePath self (generatedId n)) ->
             fs w' !! p = fs w !! p).
Proof.
  intros (fileId & file & evs & -> & Hj & Hevs & Hframe & Hdir & Hfile)%encryptDirent_step.
  split; [done|]. split; [done|]. split; [done|].
  split; [|split; [|split; [|split; [by exists evs | exact Hframe]]]].
  - eexists. split; [reflexivity|]. split; [reflexivity|]. split.
    + intros Hd. by destruct (Hdir Hd) as [-> _].
    + intros content Hd Hcontent.
      destruct (Hfile Hd) as (content' & Hcontent' & Hcase).
      assert (content' = content) as -> by congruence.
      unfold FSDirectory.findFileByHash in *. simpl.
      destruct (JS.find _ (FSDirectory.files (CryptDir.fsDirectory self)))
        as [f|] eqn:Hfind.
      * destruct Hcase as [-> ->]. exists f. by rewrite Hfind.
      * destruct Hcase as (id & pwd & -> & ->).
        exists (file.mk id (hex (sha256 content)) pwd). split; [|done].
        by apply (findFileByHash_own _ (file.mk id (hex (sha256 content)) pwd)).
  - simpl. destruct file as [f|]; [by exists [f] | exists []; by rewrite app_nil_r].
  - simpl. intros Hnodup. destruct file as [f|]; [|done].
    destruct (isDirectory d) eqn:Hd; [by destruct (Hdir eq_refl) as [_ ?]|].
    destruct (Hfile eq_refl) as (content & _ & Hcase).
    unfold FSDirectory.findFileByHash in Hcase.
    destruct (JS.find _ (FSDirectory.files (CryptDir.fsDirectory self))) eqn:Hfind;
      [by destruct Hcase as [_ ?]|].
    destruct Hcase as (id & pwd & _ & [= ->]).
    rewrite map_app. apply NoDup_app. split; [done|]. split.
    + intros h Hh [->|Hin%elem_of_nil]%elem_of_cons; [|done].
      by apply find_none_not_hash in Hfind.
    + apply NoDup_singleton.
Qed.

Lemma encrypt_event_same `{P : Platform} (self self' : CryptDir.t) (e : event) :
  CryptDir.encDir self' = CryptDir.encDir self ->
  encrypt_event self' e -> encrypt_event self e.
Proof.
  intros Henc. destruct e; simpl; try done.
  unfold CryptDir.getEncFilePath. by rewrite Henc.
Qed.

(** The loop of [encrypt] over the listed source entries: one path entry
    is appended per source entry, file objects are only appended and keep
    distinct content hashes, nothing but blobs in the store and log lines is
    produced, and a listed file whose path is not a path of the store gets
    the identifier of the one file object with its content hash. *)
Lemma encrypt_loop `{P : Platform} (currDirectory : FSDirectory.t)
    (ds : list fs_Dirent) :
  forall (self self' : CryptDir.t) (w w' : World),
  forOf (fun s x => CryptDir.encryptDirent s x currDirectory) ds self w
    = Settled self' w' ->
  CryptDir.srcDir self' = CryptDir.srcDir self /\
  CryptDir.encDir self' = CryptDir.encDir self /\
  FSDirectory.defaultFileName (CryptDir.fsDirectory self')
    = FSDirectory.defaultFileName (CryptDir.fsDirectory self) /\
  (exists added,
      FSDirectory.dirents (CryptDir.fsDirectory self')
        = (FSDirectory.dirents (CryptDir.fsDirectory self) ++ added)%list /\
      length added = length ds) /\
  (exists added,
      FSDirectory.files (CryptDir.fsDirectory self')
        = (FSDirectory.files (CryptDir.fsDirectory self) ++ added)%list) /\
  (NoDup (map file.fileHash (FSDirectory.files (CryptDir.fsDirectory self))) ->
   NoDup (map file.fileHash (FSDirectory.files (CryptDir.fsDirectory self')))) /\
  (exists evs, journal w' = (journal w ++ evs)%list /\
               Forall (encrypt_event self) evs) /\
  (forall p, (forall n, p <> CryptDir.getEncFilePath self (generatedId n)) ->
             fs w' !! p = fs w !! p) /\
  (forall k d content,
      ds !! k = Some d -> isDirectory d = false ->
      fs w !! CryptDir.getDirentFullName d = Some (File content) ->
      (forall n, CryptDir.getDirentFullName d
                 <> CryptDir.getEncFilePath self (generatedId n)) ->
      exists f e,
        FSDirectory.findFileByHash (CryptDir.fsDirectory self')
          (hex (sha256 content)) = Some f /\
        FSDirectory.dirents (CryptDir.fsDirectory self')
          !! (length (FSDirectory.dirents (CryptDir.fsDirectory self)) + k)%nat
          = Some e /\
        dirent.fileId e = recorded (file.fileId f) /\
        dirent.path e
          = CryptDir.getRelativePath self (CryptDir.getDirentFullName d)).
Proof.
  induction ds as [|d0 ds IH]; intros self self' w w' Hrun.
  - injection Hrun as <- <-.
    split; [done|]. split; [done|]. split; [done|].
    split; [exists []; by rewrite app_nil_r|].
    split; [exists []; by rewrite app_nil_r|].
    split; [done|].
    split; [exists []; by rewrite app_nil_r|].
    split; [done|]. intros k d content Hk. by rewrite lookup_nil in Hk.
  - rewrite forOf_cons in Hrun.
    apply await_settled in Hrun as (self1 & w1 & Hstep & Hrest).
    apply encryptDirent_summary in Hstep
      as (Hsrc1 & Henc1 & Hname1 & (e0 & Hd1 & Hpath0 & _ & Hfile0)
          & (addedf1 & Hf1) & Hnodup1 & (evs1 & Hj1 & Hev1) & Hframe1).
    apply IH in Hrest
      as (Hsrc & Henc & Hname & (added & Hd & Hlen) & (addedf & Hf) & Hnodup
          & (evs & Hj & Hev) & Hframe & Hindex).
    assert (Hpaths : forall id, CryptDir.getEncFilePath self1 id
                                = CryptDir.getEncFilePath self id).
    { intros id. unfold CryptDir.getEncFilePath. by rewrite Henc1. }
    split; [congruence|]. split; [congruence|]. split; [congruence|].
    split; [exists (e0 :: added); split;
            [by rewrite Hd, Hd1, <- app_assoc | simpl; by rewrite Hlen]|].
    split; [exists (addedf1 ++ addedf)%list; by rewrite Hf, Hf1, app_assoc|].
    split; [auto|].
    split.
    { exists (evs1 ++ evs)%list. split; [by rewrite Hj, Hj1, app_assoc|].
      apply Forall_app. split; [done|].
      eapply Forall_impl; [exact Hev|].
      intros e. by apply encrypt_event_same. }
    split.
    { intros p Hp. rewrite Hframe; [by apply Hframe1|].
      intros id. rewrite Hpaths. apply Hp. }
    intros k d content Hk Hdir Hcontent Hsep.
    destruct k as [|k]; simpl in Hk.
    + injection Hk as ->.
      destruct (Hfile0 content Hdir Hcontent) as (f & Hfind & Hid).
      exists f, e0. split; [|split; [|done]].
      * unfold FSDirectory.findFileByHash in *. by rewrite Hf, find_app, Hfind.
      * rewrite Hd, Hd1, <- app_assoc, Nat.add_0_r.
        by rewrite lookup_app_r, Nat.sub_diag.
    + destruct (Hindex k d content Hk Hdir) as (f & e & Hfind & He & Hid & Hpath).
      * rewrite Hframe1; [done|]. intros id. apply Hsep.
      * intros id. rewrite Hpaths. apply Hsep.
      * exists f, e. split; [done|]. split; [|split; [done|]].
        -- rewrite <- He. f_equal. rewrite Hd1, length_app. simpl. lia.
        -- rewrite Hpath. unfold CryptDir.getRelativePath. by rewrite Hsrc1.
Qed.

(** ** The phases of [encrypt] *)

Lemma FSDirectory_new_run `{P : Platform} (w : World) :
  FSDirectory.new w = Settled (FSDirectory.mk nilObjectId [] []) w.
Proof. reflexivity. Qed.

Lemma getSrcDirents_settled `{P : Platform} (self : CryptDir.t) (w w' : World)
    (listing : option (list fs_Dirent)) :
  CryptDir.getSrcDirents self w = Settled listing w' -> w' = w.
Proof.
  unfold CryptDir.getSrcDirents, await, existsSync, ret.
  destruct (bool_decide _); [|by intros [= _ <-]].
  destruct (fs w !! CryptDir.srcDir self) as [[content|]|];
    [discriminate | by intros [= _ <-] | by intros [= _ <-]].
Qed.

Lemma mkdirSyncWithCheck_run (path : string) (w : World) :
  exists made evs,
    CryptDir.mkdirSyncWithCheck path w
    = Settled made (mkWorld (if made : bool then <[path := Directory]> (fs w)
                             else fs w)
                            (journal w ++ evs) (drawn w)) /\
    Forall (fun e => e = MadeDir path) evs.
Proof.
  unfold CryptDir.mkdirSyncWithCheck, await, existsSync, mkdirSync, ret.
  destruct (bool_decide _).
  - exists false, []. rewrite app_nil_r. split; [by destruct w | constructor].
  - exists true, [MadeDir path]. split; [done | by apply Forall_singleton].
Qed.

Lemma saveToFile_run `{P : Platform} (directory : FSDirectory.t)
    (encDir pwd : string) (w : World) :
  FSDirectory.dirents directory <> [] ->
  exists blob,
    FSDirectory.saveToFile directory encDir pwd w
    = Settled tt
        (mkWorld (<[path_join encDir (FSDirectory.defaultFileName directory)
                    := File blob]> (fs w))
                 (journal w ++ [Wrote (path_join encDir
                                         (FSDirectory.defaultFileName directory))])
                 (drawn w + 16)).
Proof.
  unfold FSDirectory.saveToFile. destruct (FSDirectory.dirents directory); [done|].
  intros _. eexists. reflexivity.
Qed.

(** The run of [encrypt], phase by phase: the load, the listing, and for a
    listing with entries the loop, the removals and the decision to save. *)
Lemma encrypt_settled `{P : Platform} (self self' : CryptDir.t)
    (masterPwd : string) (w w' : World) :
  CryptDir.encrypt self masterPwd w = Settled self' w' ->
  exists previous entries listing,
    FSDirectory.loadEntries (FSDirectory.mk nilObjectId [] [])
      (CryptDir.encDir self) masterPwd w = Settled (previous, entries) w /\
    CryptDir.getSrcDirents self w = Settled listing w /\
    match listing with
    | Some (d :: ds) =>
        exists made w1 w2 w3,
          CryptDir.mkdirSyncWithCheck (CryptDir.encDir self) w = Settled made w1 /\
          forOf (fun s x => CryptDir.encryptDirent s x previous) (d :: ds) self w1
            = Settled self' w2 /\
          CryptDir.removeObsoleteDirents self' previous w2 = Settled tt w3 /\
          (if FSDirectory.equals (CryptDir.fsDirectory self')
                (FSDirectory.e_dirents entries)
           then w' = w3
           else FSDirectory.saveToFile (CryptDir.fsDirectory self')
                  (CryptDir.encDir self) masterPwd w3 = Settled tt w')
    | Some [] =>
        self' = self /\
        exists removed w1,
          CryptDir.rmSyncRecWithCheck (CryptDir.encDir self) w = Settled removed w1 /\
          w' = (if removed
                then mkWorld (fs w1)
                       (journal w1 ++ [Logged ("Removed directory '"
                                               +:+ CryptDir.encDir self +:+ "'")])
                       (drawn w1)
                else w1)
    | None =>
        self' = self /\
        w' = mkWorld (fs w)
               (journal w ++ [Logged ("Invalid source directory '"
                                      +:+ CryptDir.srcDir self +:+ "'")])
               (drawn w)
    end.
Proof.
  unfold CryptDir.encrypt. intros Hrun.
  rewrite (await_run _ _ _ _ _ (FSDirectory_new_run w)) in Hrun.
  apply await_settled in Hrun as ([[self0 previous] entries] & w0 & Hload & Hrun).
  unfold CryptDir.loadDecEntries in Hload.
  apply await_settled in Hload as ([previous' entries'] & w0' & Hload & Hret).
  injection Hret as <- <- <- <-.
  destruct (loadEntries_settled _ _ _ _ _ _ Hload) as (-> & _).
  apply await_settled in Hrun as (listing & w0 & Hlisting & Hrun).
  pose proof (getSrcDirents_settled _ _ _ _ Hlisting) as ->.
  simpl in Hrun.
  exists previous', entries', listing. split; [exact Hload|]. split; [exact Hlisting|].
  destruct listing as [[|d ds]|].
  - apply await_settled in Hrun as (removed & w1 & Hrm & Hrun).
    apply await_settled in Hrun as ([] & w2 & Hlog & Hret).
    injection Hret as <- <-. split; [done|]. exists removed, w1. split; [done|].
    destruct removed; by injection Hlog as <-.
  - apply await_settled in Hrun as (made & w1 & Hmk & Hrun).
    apply await_settled in Hrun as (self1 & w2 & Hloop & Hrun).
    apply await_settled in Hrun as ([] & w3 & Hrm & Hrun).
    apply await_settled in Hrun as ([] & w4 & Hsave & Hret).
    injection Hret as <- <-.
    exists made, w1, w2, w3. split; [done|]. split; [done|]. split; [done|].
    destruct (FSDirectory.equals _ _); simpl in Hsave; [by injection Hsave | done].
  - apply await_settled in Hrun as ([] & w1 & Hlog & Hret).
    injection Hret as <- <-. split; [done|]. by injection Hlog as <-.
Qed.

(** ** C2: identical content is stored once *)

Lemma prefix_refl (s : string) : String.prefix s s = true.
Proof.
  induction s as [|c s IH]; [reflexivity|]. simpl.
  destruct (ascii_dec c c); [exact IH | done].
Qed.

Lemma getSrcDirents_outside_store `{P : Platform} (self : CryptDir.t) (w : World)
    (ds : list fs_Dirent) (d : fs_Dirent) :
  CryptDir.getSrcDirents self w = Settled (Some ds) w ->
  d ∈ ds ->
  JS.startsWith (CryptDir.getDirentFullName d) (CryptDir.encDir self) = false.
Proof.
  unfold CryptDir.getSrcDirents, await, existsSync, ret.
  destruct (bool_decide _); [|discriminate].
  destruct (fs w !! CryptDir.srcDir self) as [[content|]|]; [discriminate| |];
    intros [= <-] Hd;
  apply list_elem_of_In, filter_In in Hd as [_ Hd];
  apply andb_true_iff in Hd as [Hd _]; by apply negb_true_iff in Hd.
Qed.

Lemma unique_hash_filter (files : list file.t) (f : file.t) (h : string) :
  NoDup (map file.fileHash files) ->
  JS.find (fun g => JS.streq (file.fileHash g) h) files = Some f ->
  List.filter (fun g => JS.streq (file.fileHash g) h) files = [f].
Proof.
  induction files as [|g files IH]; [discriminate|].
  simpl. intros Hnodup%NoDup_cons. destruct Hnodup as [Hg Hnodup].
  destruct (JS.streq (file.fileHash g) h) eqn:Hgh.
  - intros [= ->]. f_equal. apply streq_true in Hgh as <-.
    clear IH Hnodup. induction files as [|x files IH]; [reflexivity|].
    simpl. destruct (JS.streq _ _) eqn:Hx.
    + apply streq_true in Hx. destruct Hg. rewrite <- Hx. left.
    + apply IH. intros Hin. apply Hg. by right.
  - auto.
Qed.

(** The identifiers of the session's file objects are identifiers of the
    snapshot's file objects or made by [getUuid]. *)
Lemma encryptDirent_ids `{P : Platform} (Q : string -> Prop)
    (self self' : CryptDir.t) (d : fs_Dirent) (currDirectory : FSDirectory.t)
    (w w' : World) :
  (forall n, Q (generatedId n)) ->
  (forall f, f ∈ FSDirectory.files currDirectory -> Q (file.fileId f)) ->
  CryptDir.encryptDirent self d currDirectory w = Settled self' w' ->
  (forall f, f ∈ FSDirectory.files (CryptDir.fsDirectory self) ->
             Q (file.fileId f)) ->
  forall f, f ∈ FSDirectory.files (CryptDir.fsDirectory self') ->
            Q (file.fileId f).
Proof.
  intros Hgen Hcurr Hrun Hself.
  unfold CryptDir.encryptDirent in Hrun.
  apply await_settled in Hrun as ([fileId file] & w1 & Hparams & Hrest).
  apply await_settled in Hrest as ([] & w2 & Hlog & Hret).
  injection Hret as <- <-.
  cbn [CryptDir.fsDirectory FSDirectory.addEntry FSDirectory.files fst snd].
  destruct (isDirectory d) eqn:Hdir; simpl in Hparams.
  - injection Hparams as <- <- <-. exact Hself.
  - fold (CryptDir.getDirentFullName d) in Hparams.
    destruct (encryptFile_settled _ _ _ _ _ _ Hparams) as [content Hfile].
    destruct (FSDirectory.findFileByHash (CryptDir.fsDirectory self)
                (hex (sha256 content))) as [g|] eqn:Hs.
    + rewrite (encryptFile_known _ _ _ _ _ _ Hfile Hs) in Hparams.
      injection Hparams as <- <- <-. exact Hself.
    + destruct (FSDirectory.findFileByHash currDirectory (hex (sha256 content)))
        as [g|] eqn:Hc.
      * rewrite (encryptFile_carried _ _ _ _ _ _ Hfile Hs Hc) in Hparams.
        injection Hparams as <- <- <-.
        intros f [Hf|Hf]%elem_of_app; [by apply Hself|].
        apply list_elem_of_singleton in Hf as ->. cbn [file.fileId].
        apply Hcurr. by apply find_some in Hc as [Hc _].
      * rewrite (encryptFile_fresh _ _ _ _ _ Hfile Hs Hc) in Hparams.
        injection Hparams as <- <- <-.
        intros f [Hf|Hf]%elem_of_app; [by apply Hself|].
        apply list_elem_of_singleton in Hf as ->. apply Hgen.
Qed.

Lemma encrypt_loop_ids `{P : Platform} (Q : string -> Prop)
    (currDirectory : FSDirectory.t) (ds : list fs_Dirent) :
  (forall n, Q (generatedId n)) ->
  (forall f, f ∈ FSDirectory.files currDirectory -> Q (file.fileId f)) ->
  forall (self self' : CryptDir.t) (w w' : World),
  forOf (fun s x => CryptDir.encryptDirent s x currDirectory) ds self w
    = Settled self' w' ->
  (forall f, f ∈ FSDirectory.files (CryptDir.fsDirectory self) ->
             Q (file.fileId f)) ->
  forall f, f ∈ FSDirectory.files (CryptDir.fsDirectory self') ->
            Q (file.fileId f).
Proof.
  intros Hgen Hcurr.
  induction ds as [|d ds IH]; intros self self' w w' Hrun Hself.
  - by injection Hrun as <- <-.
  - rewrite forOf_cons in Hrun.
    apply await_settled in Hrun as (self1 & w1 & Hstep & Hrest).
    apply (IH _ _ _ _ Hrest).
    by apply (encryptDirent_ids Q _ _ _ _ _ _ Hgen Hcurr Hstep).
Qed.

(** C2: after [encrypt] has completed on a new [CryptDir] whose listing holds
    two different file entries with byte-identical content, the path entries
    recorded at their two positions carry the same object identifier, that
    of the file object with the content's hash, and the manifest holds
    exactly one file object with that hash. The file objects of the manifest
    loaded at the start carry object identifiers, the store directory is
    there or can be made, and the store keeps its objects under paths that
    start with the store directory. *)
Theorem identical_content_shares_one_object `{P : Platform}
    (self self' : CryptDir.t) (masterPwd : string) (w w' : World)
    (previous : FSDirectory.t) (entries : FSDirectory.entries)
    (ds : list fs_Dirent) (i j : nat) (di dj : fs_Dirent) (content : list byte) :
  FSDirectory.dirents (CryptDir.fsDirectory self) = [] ->
  FSDirectory.files (CryptDir.fsDirectory self) = [] ->
  store_reachable self w ->
  (forall id, objectId id ->
              JS.startsWith (CryptDir.getEncFilePath self id)
                            (CryptDir.encDir self) = true) ->
  FSDirectory.loadEntries (FSDirectory.mk nilObjectId [] [])
    (CryptDir.encDir self) masterPwd w = Settled (previous, entries) w ->
  (forall f, f ∈ FSDirectory.files previous -> objectId (file.fileId f)) ->
  CryptDir.getSrcDirents self w = Settled (Some ds) w ->
  ds !! i = Some di -> ds !! j = Some dj -> i <> j ->
  isDirectory di = false -> isDirectory dj = false ->
  fs w !! CryptDir.getDirentFullName di = Some (File content) ->
  fs w !! CryptDir.getDirentFullName dj = Some (File content) ->
  CryptDir.encrypt self masterPwd w = Settled self' w' ->
  exists ei ej f,
    FSDirectory.dirents (CryptDir.fsDirectory self') !! i = Some ei /\
    FSDirectory.dirents (CryptDir.fsDirectory self') !! j = Some ej /\
    dirent.path ei = CryptDir.getRelativePath self (CryptDir.getDirentFullName di) /\
    dirent.path ej = CryptDir.getRelativePath self (CryptDir.getDirentFullName dj) /\
    dirent.fileId ei = Some (file.fileId f) /\
    dirent.fileId ej = Some (file.fileId f) /\
    objectId (file.fileId f) /\
    List.filter (fun g => JS.streq (file.fileHash g) (hex (sha256 content)))
      (FSDirectory.files (CryptDir.fsDirectory self')) = [f].
Proof.
  intros Hnodirents Hnofiles _ Hstore Hload Hids Hlisting Hi Hj Hij Hfi Hfj Hci
    Hcj Hrun.
  apply encrypt_settled in Hrun
    as (previous' & entries' & listing & Hload' & Hlisting' & Hphases).
  rewrite Hlisting in Hlisting'. injection Hlisting' as <-.
  rewrite Hload in Hload'. injection Hload' as <- <-.
  destruct ds as [|d0 ds]; [by rewrite lookup_nil in Hi|].
  destruct Hphases as (made & w1 & w2 & w3 & Hmk & Hloop & _ & _).
  assert (Hout : forall d, d ∈ d0 :: ds ->
            CryptDir.getDirentFullName d <> CryptDir.encDir self /\
            forall n, CryptDir.getDirentFullName d
                      <> CryptDir.getEncFilePath self (generatedId n)).
  { intros d Hd.
    pose proof (getSrcDirents_outside_store self w _ d Hlisting Hd) as Hpre.
    split.
    - intros Heq. rewrite Heq in Hpre. unfold JS.startsWith in Hpre.
      by rewrite prefix_refl in Hpre.
    - intros n Heq.
      rewrite Heq, (Hstore _ (generatedId_objectId n)) in Hpre. discriminate. }
  assert (Hkept : forall d, d ∈ d0 :: ds ->
            fs w1 !! CryptDir.getDirentFullName d
            = fs w !! CryptDir.getDirentFullName d).
  { intros d Hd. destruct (Hout d Hd) as [Hne _].
    destruct (mkdirSyncWithCheck_run (CryptDir.encDir self) w)
      as (made' & evs & Hmk' & _).
    rewrite Hmk' in Hmk. injection Hmk as _ <-. simpl.
    destruct made'; [by rewrite lookup_insert_ne | done]. }
  assert (Hobj : forall f, f ∈ FSDirectory.files (CryptDir.fsDirectory self') ->
                           objectId (file.fileId f)).
  { apply (encrypt_loop_ids objectId previous (d0 :: ds)
             generatedId_objectId Hids _ _ _ _ Hloop).
    rewrite Hnofiles. intros f Hf. by apply elem_of_nil in Hf. }
  apply encrypt_loop in Hloop
    as (_ & _ & _ & _ & _ & Hnodup & _ & _ & Hindex).
  rewrite Hnofiles in Hnodup. specialize (Hnodup (NoDup_nil_2)).
  rewrite Hnodirents in Hindex. simpl in Hindex.
  assert (Hdi : di ∈ d0 :: ds) by (apply list_elem_of_lookup; eauto).
  assert (Hdj : dj ∈ d0 :: ds) by (apply list_elem_of_lookup; eauto).
  destruct (Hindex i di content Hi Hfi) as (f & ei & Hfind & Hei & Hidi & Hpi);
    [by rewrite Hkept | apply (Hout di Hdi) |].
  destruct (Hindex j dj content Hj Hfj) as (f' & ej & Hfind' & Hej & Hidj & Hpj);
    [by rewrite Hkept | apply (Hout dj Hdj) |].
  assert (f' = f) as -> by congruence.
  assert (Hf : objectId (file.fileId f)).
  { apply Hobj. by apply find_some in Hfind as [Hfind _]. }
  unfold recorded in Hidi, Hidj. rewrite (objectId_truthy _ Hf) in Hidi, Hidj.
  exists ei, ej, f. repeat split; try done.
  - apply Hf.
  - apply Hf.
  - by apply unique_hash_filter.
Qed.

(** ** C3: when the manifest is saved *)

Lemma rmSyncRecWithCheck_run `{P : Platform} (path : string) (w : World) :
  exists removed w1 evs,
    CryptDir.rmSyncRecWithCheck path w = Settled removed w1 /\
    journal w1 = (journal w ++ evs)%list /\
    Forall (fun e => e = RemovedTree path) evs.
Proof.
  unfold CryptDir.rmSyncRecWithCheck, await, existsSync, rmSyncRec, ret.
  destruct (bool_decide _).
  - eexists _, _, [RemovedTree path]. split; [reflexivity|].
    split; [reflexivity | by apply Forall_singleton].
  - exists false, w, []. rewrite app_nil_r. split; [done|]. split; [done | constructor].
Qed.

(** C3 (amended): when the listing of the source has entries, a completed
    [encrypt] writes the manifest (a write to the path of the all-zero
    identifier in the store) if and only if the serialized path entries of
    the session directory differ from the serialized path entries loaded at
    the start; the file objects are not compared. When the listing is empty
    or the source directory is missing, nothing is written at all. The
    manifest in the store, if there is one, is a manifest as [saveToFile]
    writes it, the store keeps the other object identifiers under other
    paths than the manifest, and when there are entries to encrypt the
    store directory is there or can be made. *)
Theorem manifest_saved_iff_dirents_changed `{P : Platform}
    (self self' : CryptDir.t) (masterPwd : string) (w w' : World)
    (listing : option (list fs_Dirent)) :
  FSDirectory.defaultFileName (CryptDir.fsDirectory self) = nilObjectId ->
  (forall id, objectId id -> id <> nilObjectId ->
              CryptDir.getEncFilePath self id
              <> CryptDir.getEncFilePath self nilObjectId) ->
  manifest_as_saved (CryptDir.encDir self) masterPwd w ->
  match listing with
  | Some (_ :: _) => store_reachable self w
  | _ => True
  end ->
  CryptDir.getSrcDirents self w = Settled listing w ->
  CryptDir.encrypt self masterPwd w = Settled self' w' ->
  exists previous entries evs,
    FSDirectory.loadEntries (FSDirectory.mk nilObjectId [] [])
      (CryptDir.encDir self) masterPwd w = Settled (previous, entries) w /\
    journal w' = (journal w ++ evs)%list /\
    match listing with
    | Some (_ :: _) =>
        Wrote (CryptDir.getEncFilePath self nilObjectId) ∈ evs <->
        JSON.stringify (FSDirectory.dirents_json
                          (FSDirectory.dirents (CryptDir.fsDirectory self')))
        <> JSON.stringify (FSDirectory.dirents_json (FSDirectory.e_dirents entries))
    | _ => forall p, Wrote p ∉ evs
    end.
Proof.
  intros Hname Hsep _ _ Hlisting Hrun.
  apply encrypt_settled in Hrun
    as (previous & entries & listing' & Hload & Hlisting' & Hphases).
  rewrite Hlisting in Hlisting'. injection Hlisting' as <-.
  exists previous, entries.
  destruct listing as [[|d ds]|].
  - destruct Hphases as (-> & removed & w1 & Hrm & ->).
    destruct (rmSyncRecWithCheck_run (CryptDir.encDir self) w)
      as (removed' & w1' & evs & Hrm' & Hj & Hevs).
    rewrite Hrm' in Hrm. injection Hrm as -> ->.
    destruct removed.
    + eexists (evs ++ [_])%list. split; [done|].
      split; [simpl; by rewrite Hj, app_assoc|].
      intros p [Hin|Hin]%elem_of_app.
      * rewrite Forall_forall in Hevs. by specialize (Hevs _ Hin).
      * by apply list_elem_of_singleton in Hin.
    + exists evs. split; [done|]. split; [done|].
      intros p Hin. rewrite Forall_forall in Hevs. by specialize (Hevs _ Hin).
  - destruct Hphases as (made & w1 & w2 & w3 & Hmk & Hloop & Hrm & Hsave).
    destruct (mkdirSyncWithCheck_run (CryptDir.encDir self) w)
      as (made' & evs0 & Hmk' & Hev0).
    rewrite Hmk' in Hmk. injection Hmk as _ <-.
    apply encrypt_loop in Hloop
      as (_ & Henc & Hname' & (added & Hadded & Hlen) & _ & _
          & (evs1 & Hj1 & Hev1) & _).
    unfold CryptDir.removeObsoleteDirents in Hrm.
    destruct (removeObsoleteDirents_loop self'
                (FSDirectory.getObsoleteDirents (CryptDir.fsDirectory self') previous)
                w2) as (w3' & evs2 & Hrm' & _ & Hj2 & Hev2 & _).
    rewrite Hrm' in Hrm. injection Hrm as ->.
    set (manifest := CryptDir.getEncFilePath self nilObjectId).
    assert (Hquiet : Wrote manifest ∉ (evs0 ++ evs1 ++ evs2)%list).
    { rewrite !elem_of_app. intros [Hin|[Hin|Hin]].
      - rewrite Forall_forall in Hev0. by specialize (Hev0 _ Hin).
      - rewrite Forall_forall in Hev1. specialize (Hev1 _ Hin).
        destruct Hev1 as (n & Hpath).
        by apply (Hsep (generatedId n)
                    (generatedId_objectId n) (generatedId_not_nil n)).
      - rewrite Forall_forall in Hev2. by specialize (Hev2 _ Hin). }
    assert (Hjournal : journal w3 = (journal w ++ evs0 ++ evs1 ++ evs2)%list).
    { rewrite Hj2, Hj1. simpl. by rewrite !app_assoc. }
    unfold FSDirectory.equals in Hsave.
    unfold JS.streq in Hsave. case_bool_decide as Hsame.
    + subst w'. exists (evs0 ++ evs1 ++ evs2)%list.
      split; [done|]. split; [done|]. split; [done|].
      intros Hdiff. by rewrite Hsame in Hdiff.
    + destruct (saveToFile_run (CryptDir.fsDirectory self')
                  (CryptDir.encDir self) masterPwd w3) as [blob Hsave'].
      { rewrite Hadded. destruct added; [simpl in Hlen; lia|].
        by destruct (FSDirectory.dirents (CryptDir.fsDirectory self)). }
      rewrite Hsave' in Hsave. injection Hsave as <-.
      exists ((evs0 ++ evs1 ++ evs2) ++ [Wrote manifest])%list.
      split; [done|]. split.
      * simpl. rewrite Hjournal, Hname', Hname. by rewrite !app_assoc.
      * split; [intros _; by intros Heq; apply Hsame|].
        intros _. apply elem_of_app. right. by apply list_elem_of_singleton.
  - destruct Hphases as (-> & ->).
    eexists [_]. split; [done|]. split; [done|].
    intros p Hin. by apply list_elem_of_singleton in Hin.
Qed.

(** ** C4: a failed object stops the traversal *)

Lemma decryptFileToFile_errored `{P : Platform} (self : AESFileCryptor.t)
    (srcFile tgtFile : string) (source partial : list byte)
    (messages : list string) (w : World) :
  fs w !! srcFile = Some (File source) ->
  srcFile <> tgtFile ->
  AESFileCryptor.decrypted self source = (Errored partial, messages) ->
  exists w',
    AESFileCryptor.decryptFileToFile self srcFile tgtFile w = Unsettled w' /\
    fs w' = <[tgtFile := File partial]> (<[tgtFile := File []]> (fs w)) /\
    drawn w' = drawn w.
Proof.
  intros Hsrc Hne Hdec.
  unfold AESFileCryptor.decryptFileToFile, AESFileCryptor.decryptFileToStream.
  unfold await at 1, openFile. unfold await at 1. unfold await at 1, existsSync.
  cbn [fs]. rewrite lookup_insert_ne by done.
  rewrite bool_decide_eq_true_2 by eauto.
  unfold await at 1, readFile. cbn [fs]. rewrite lookup_insert_ne by done.
  rewrite Hsrc, Hdec. unfold await at 1.
  assert (Hlogs : forall w0, exists w1,
            forOf (fun (_ : unit) m => log m) messages tt w0 = Settled tt w1 /\
            fs w1 = fs w0 /\ drawn w1 = drawn w0).
  { clear. induction messages as [|m ms IH]; intros w0; [by exists w0|].
    destruct (IH (mkWorld (fs w0) (journal w0 ++ [Logged m]) (drawn w0)))
      as (w1 & Hrun & Hfs & Hdrawn).
    exists w1. split; [exact Hrun | done]. }
  destruct (Hlogs (mkWorld (<[tgtFile := File []]> (fs w))
                     (journal w ++ [Opened tgtFile]) (drawn w)))
    as (w1 & -> & Hfs & Hdrawn).
  eexists. split; [reflexivity|]. simpl. by rewrite Hfs, Hdrawn.
Qed.

(** When the object of a file entry cannot be decrypted, the loop of
    [decrypt] never gets past that entry: the awaited promise is not
    settled, and no other path of the file system is touched. *)
Lemma decrypt_loop_stops `{P : Platform} (self : CryptDir.t) (d : dirent.t)
    (rest : list dirent.t) (id : string) (f : file.t)
    (source partial : list byte) (messages : list string) (w : World) :
  dirent.fileId d = Some id -> JS.truthy id = true ->
  FSDirectory.findFileById (CryptDir.fsDirectory self) id = Some f ->
  fs w !! path_join (CryptDir.srcDir self) (dirent.path d) = None ->
  fs w !! CryptDir.getEncFilePath self (file.fileId f) = Some (File source) ->
  AESFileCryptor.decrypted (AESFileCryptor.new (file.pwd f)) source
    = (Errored partial, messages) ->
  exists w',
    forOf (fun _ x => CryptDir.decryptDirent self x) (d :: rest) tt w = Unsettled w' /\
    forall p, p <> path_join (CryptDir.srcDir self) (dirent.path d) ->
              fs w' !! p = fs w !! p.
Proof.
  intros Hid Htruthy Hfind Hmissing Hblob Hdec.
  destruct (decryptFileToFile_errored (AESFileCryptor.new (file.pwd f))
              (CryptDir.getEncFilePath self (file.fileId f))
              (path_join (CryptDir.srcDir self) (dirent.path d))
              source partial messages w Hblob) as (w' & Hrun & Hfs & _);
    [congruence | exact Hdec |].
  exists w'. split.
  - rewrite forOf_cons. apply await_unsettled.
    unfold CryptDir.decryptDirent. unfold await at 1, existsSync.
    rewrite Hid, Htruthy, Hfind.
    rewrite bool_decide_eq_false_2 by (rewrite Hmissing; by intros [? ?]).
    unfold CryptDir.decryptFile. unfold await at 1. cbn [negb]. unfold ret at 1.
    apply await_unsettled. exact Hrun.
  - intros p Hp. rewrite Hfs. by rewrite !lookup_insert_ne.
Qed.

(** ** C10: the relative path *)

Lemma replace_unfold (pat rep s : string) :
  JS.replace pat rep s
  = if String.prefix pat s then rep +:+ JS.slice (String.length pat) s
    else match s with
         | EmptyString => EmptyString
         | String c s' => String c (JS.replace pat rep s')
         end.
Proof. by destruct s. Qed.

Lemma prefix_append (pat rest : string) : String.prefix pat (pat +:+ rest) = true.
Proof.
  induction pat as [|c pat IH]; [by destruct rest|].
  change (String c pat +:+ rest) with (String c (pat +:+ rest)). simpl.
  destruct (ascii_dec c c); [exact IH | done].
Qed.

Lemma slice_append (pat rest : string) :
  JS.slice (String.length pat) (pat +:+ rest) = rest.
Proof. induction pat as [|c pat IH]; [by destruct rest | exact IH]. Qed.

Lemma prefix_chars (pat s : string) (c : ascii) :
  String.prefix pat s = true -> c ∈ JS.chars pat -> c ∈ JS.chars s.
Proof.
  revert s. induction pat as [|x pat IH]; intros s Hpre Hc;
    [by apply elem_of_nil in Hc|].
  destruct s as [|y s]; [discriminate|]. simpl in Hpre.
  destruct (ascii_dec x y) as [<-|]; [|discriminate].
  change (JS.chars (String x pat)) with (x :: JS.chars pat) in Hc.
  change (JS.chars (String x s)) with (x :: JS.chars s).
  apply elem_of_cons in Hc as [->|Hc]; [left | right; eauto].
Qed.

Lemma slice_chars (n : nat) (s : string) (c : ascii) :
  c ∈ JS.chars (JS.slice n s) -> c ∈ JS.chars s.
Proof.
  revert s. induction n as [|n IH]; intros s Hc; [by destruct s|].
  destruct s as [|x s]; [done|].
  change (JS.chars (String x s)) with (x :: JS.chars s). right. by apply IH.
Qed.

(** Replacing the first occurrence: nothing before it matches. *)
Lemma replace_first (pat rep before after : string) :
  (forall j, (j < String.length before)%nat ->
             String.prefix pat (JS.slice j (before +:+ pat +:+ after)) = false) ->
  JS.replace pat rep (before +:+ pat +:+ after) = before +:+ rep +:+ after.
Proof.
  induction before as [|c before IH]; intros Hfirst.
  - rewrite replace_unfold.
    change (EmptyString +:+ pat +:+ after) with (pat +:+ after).
    by rewrite prefix_append, slice_append.
  - rewrite replace_unfold.
    pose proof (Hfirst 0%nat ltac:(simpl; lia)) as Hhead.
    cbn [JS.slice] in Hhead. rewrite Hhead.
    change (String c before +:+ pat +:+ after)
      with (String c (before +:+ pat +:+ after)).
    change (String c before +:+ rep +:+ after)
      with (String c (before +:+ rep +:+ after)).
    f_equal. apply IH. intros j Hj.
    apply (Hfirst (S j)). simpl. lia.
Qed.

Lemma replace_absent (pat rep s : string) :
  (forall j, String.prefix pat (JS.slice j s) = false) ->
  JS.replace pat rep s = s.
Proof.
  induction s as [|c s IH]; intros Habsent.
  - rewrite replace_unfold. pose proof (Habsent 0%nat) as Hhead.
    cbn [JS.slice] in Hhead. by rewrite Hhead.
  - rewrite replace_unfold. pose proof (Habsent 0%nat) as Hhead.
    cbn [JS.slice] in Hhead. rewrite Hhead.
    f_equal. apply IH. intros j. apply (Habsent (S j)).
Qed.

Lemma prefix_split (pat s : string) :
  String.prefix pat s = true -> s = pat +:+ JS.slice (String.length pat) s.
Proof.
  revert s. induction pat as [|c pat IH]; intros s Hpre; [by destruct s|].
  destruct s as [|x s]; [discriminate|]. simpl in Hpre.
  destruct (ascii_dec c x) as [<-|]; [|discriminate].
  change (String c pat +:+ JS.slice (String.length (String c pat)) (String c s))
    with (String c (pat +:+ JS.slice (String.length pat) s)).
  f_equal. by apply IH.
Qed.

Lemma replace_occurs (pat s : string) :
  (exists j, String.prefix pat (JS.slice j s) = true) ->
  (String.length (JS.replace pat "" s) + String.length pat)%nat = String.length s.
Proof.
  induction s as [|c s IH]; intros [j Hj].
  - assert (Hpre : String.prefix pat "" = true) by (by destruct j).
    destruct pat; [reflexivity | discriminate].
  - rewrite replace_unfold.
    destruct (String.prefix pat (String c s)) eqn:Hpre.
    + pose proof (prefix_split _ _ Hpre) as Hs.
      apply (f_equal String.length) in Hs.
      rewrite append_length in Hs.
      change ("" +:+ JS.slice (String.length pat) (String c s))
        with (JS.slice (String.length pat) (String c s)).
      lia.
    + destruct j as [|j]; [cbn [JS.slice] in Hj; congruence|].
      cbn [JS.slice] in Hj. simpl. rewrite <- (IH (ex_intro _ j Hj)). lia.
Qed.

Lemma replace_unchanged (pat s : string) :
  pat <> "" ->
  (JS.replace pat "" s = s <-> forall j, String.prefix pat (JS.slice j s) = false).
Proof.
  intros Hpat. split; [|apply replace_absent].
  intros Hsame j. destruct (String.prefix pat (JS.slice j s)) eqn:Hj; [|done].
  pose proof (replace_occurs pat s (ex_intro _ j Hj)) as Hlen.
  rewrite Hsame in Hlen. destruct pat; [done|]. simpl in Hlen. lia.
Qed.

Lemma encryptDirent_records_relative_path `{P : Platform} (self self' : CryptDir.t)
    (d : fs_Dirent) (currDirectory : FSDirectory.t) (w w' : World) :
  CryptDir.encryptDirent self d currDirectory w = Settled self' w' ->
  exists e,
    FSDirectory.dirents (CryptDir.fsDirectory self')
    = (FSDirectory.dirents (CryptDir.fsDirectory self) ++ [e])%list /\
    dirent.path e = CryptDir.getRelativePath self (CryptDir.getDirentFullName d).
Proof.
  intros (_ & _ & _ & (e & He & Hpath & _) & _)%encryptDirent_summary. eauto.
Qed.

(** C10 (amended): the path [#encryptDirent] records for an entry is its
    full name with the first occurrence of the source directory followed by
    a backslash removed. The full name is recorded unchanged, source
    directory prefix included, exactly when that text does not occur in it,
    as is the case for a name joined with forward slashes that holds no
    backslash at all. *)
Theorem getRelativePath_removes_backslash_prefix `{P : Platform}
    (self : CryptDir.t) :
  let pat := CryptDir.srcDir self +:+ "\" in
  (forall before after,
      (forall j, (j < String.length before)%nat ->
                 String.prefix pat (JS.slice j (before +:+ pat +:+ after)) = false) ->
      CryptDir.getRelativePath self (before +:+ pat +:+ after) = before +:+ after) /\
  (forall relative,
      CryptDir.getRelativePath self (CryptDir.srcDir self +:+ "\" +:+ relative)
      = relative) /\
  (forall fullName,
      CryptDir.getRelativePath self fullName = fullName <->
      forall j, String.prefix pat (JS.slice j fullName) = false) /\
  (forall rest,
      "\"%char ∉ JS.chars (CryptDir.srcDir self +:+ "/" +:+ rest) ->
      CryptDir.getRelativePath self (CryptDir.srcDir self +:+ "/" +:+ rest)
      = CryptDir.srcDir self +:+ "/" +:+ rest) /\
  (forall d currDirectory w recorded w',
      CryptDir.encryptDirent self d currDirectory w = Settled recorded w' ->
      exists e,
        FSDirectory.dirents (CryptDir.fsDirectory recorded)
        = (FSDirectory.dirents (CryptDir.fsDirectory self) ++ [e])%list /\
        dirent.path e
        = JS.replace pat "" (path_join (parentPath d) (name d))).
Proof.
  intros pat.
  assert (Habsent : forall fullName,
      (forall j, String.prefix pat (JS.slice j fullName) = false) ->
      CryptDir.getRelativePath self fullName = fullName).
  { intros fullName Hno. by apply replace_absent. }
  split; [|split; [|split; [|split]]].
  - intros before after Hfirst. unfold CryptDir.getRelativePath. fold pat.
    by rewrite (replace_first pat "" before after Hfirst).
  - intros relative. unfold CryptDir.getRelativePath. fold pat.
    rewrite replace_unfold.
    assert (Heq : CryptDir.srcDir self +:+ "\" +:+ relative = pat +:+ relative).
    { unfold pat. clear. induction (CryptDir.srcDir self) as [|c s IH]; [done|].
      change (String c s +:+ "\" +:+ relative) with (String c (s +:+ "\" +:+ relative)).
      by rewrite IH. }
    by rewrite Heq, prefix_append, slice_append.
  - intros fullName. apply replace_unchanged.
    unfold pat. by destruct (CryptDir.srcDir self).
  - intros rest Hno. apply Habsent. intros j.
    destruct (String.prefix pat _) eqn:Hpre; [|done].
    destruct Hno. apply (slice_chars j). apply (prefix_chars pat); [done|].
    unfold pat. rewrite chars_append. apply elem_of_app. right. left.
  - intros d currDirectory w recorded w' Hrun.
    apply encryptDirent_records_relative_path in Hrun as (e & He & Hpath).
    exists e. split; [done|]. exact Hpath.
Qed.

(** ** The sample platform obeys the laws *)

Lemma Sample_laws : PlatformLaws Sample.platform.
Proof.
  split.
  - reflexivity.
  - intros key iv data. simpl. unfold Sample.decipher, Sample.cipher.
    rewrite app_assoc, <- length_app.
    rewrite take_app_length, drop_app_length.
    by rewrite bool_decide_eq_true_2.
  - discriminate.
  - intros [|b [|c rest]]; simpl; by rewrite ?app_nil_r.
Qed.

Lemma append_inj_l (a x y : string) : a +:+ x = a +:+ y -> x = y.
Proof.
  induction a as [|c a IH]; [done|].
  change (String c a +:+ x) with (String c (a +:+ x)).
  change (String c a +:+ y) with (String c (a +:+ y)).
  intros [= Heq]. auto.
Qed.

Lemma Sample_paths_distinct (encDir id id' : string) :
  id <> id' -> Sample.path_join encDir id <> Sample.path_join encDir id'.
Proof.
  intros Hne Heq. apply Hne.
  by apply (append_inj_l "\"), (append_inj_l encDir).
Qed.

(** ** The claims about [getUuid] and [#encryptFile] *)

(** C8: [getNilUuid()] is the canonical form (upper case, no hyphens) of the
    all-zero identifier, thirty-two zeros, and no identifier [getUuid()]
    generates equals it, whatever the random source delivers. *)
Theorem getUuid_never_nil `{P : Platform} (w : World) :
  cryptoUtils.getNilUuid w = Settled nilObjectId w /\
  nilObjectId = JS.toUpperCase (JS.replaceAll "-" "" cryptoUtils.NIL_UUID) /\
  JS.chars nilObjectId = replicate 32 "0"%char /\
  exists id,
    cryptoUtils.getUuid None w
      = Settled id (mkWorld (fs w) (journal w) (drawn w + 16)) /\
    "4"%char ∈ JS.chars id /\
    id <> nilObjectId.
Proof.
  split; [reflexivity|]. split; [reflexivity|]. split; [exact nil_chars|].
  exists (generatedId (drawn w)). split; [apply getUuid_run|].
  split; [|apply generatedId_not_nil].
  unfold generatedId. change "4"%char with (JS.upper "4"%char).
  apply toUpperCase_keeps, replaceAll_dash_keeps; [|done].
  apply stringify_has_version. by rewrite length_map, length_seq.
Qed.



(** ** Instances on the sample platform *)

(** The round trip on the sample platform: a text encrypted under a
    password is delivered back by the decryption under that password. *)
Lemma decrypt_encrypt_round_trip_witness :
  exists w1,
    AESFileCryptor.encryptStreamToFile (P := Sample.platform)
      (AESFileCryptor.new "secret") (list_byte_of_string "plain text") "blob"
      (mkWorld ∅ [] 0) = Settled tt w1 /\
    AESFileCryptor.decryptFileToStream (P := Sample.platform)
      (AESFileCryptor.new "secret") "blob" (fun _ _ => ret tt) w1
    = Settled (list_byte_of_string "plain text") w1.
Proof.
  destruct (decrypt_encrypt_round_trip (P := Sample.platform)
              (PlatformLaws0 := Sample_laws)
              "secret" (list_byte_of_string "plain text") "blob" (mkWorld ∅ [] 0))
    as (_ & Henc & _ & Hstream & _).
  eexists. split; [exact Henc|].
  rewrite Hstream; [reflexivity|]. apply lookup_insert_eq.
Defined.

(** The sample tree: a.txt and b.txt hold the same text, and after
    [encrypt] their entries carry one object identifier, that of the one
    file object with the hash of the text. *)
Lemma identical_content_shares_one_object_witness :
  exists self' w' ei ej f,
    CryptDir.encrypt (P := Sample.platform) Scenario.cryptDir "master" Sample.tree
      = Settled self' w' /\
    FSDirectory.dirents (CryptDir.fsDirectory self') !! 0%nat = Some ei /\
    FSDirectory.dirents (CryptDir.fsDirectory self') !! 1%nat = Some ej /\
    dirent.path ei = "a.txt" /\ dirent.path ej = "b.txt" /\
    dirent.fileId ei = Some (file.fileId f) /\
    dirent.fileId ej = Some (file.fileId f) /\
    List.filter (fun g => JS.streq (file.fileHash g)
                            (hex (Sample.sha256 (list_byte_of_string "same"))))
      (FSDirectory.files (CryptDir.fsDirectory self')) = [f].
Proof.
  assert (Hrun : exists self' w',
             CryptDir.encrypt (P := Sample.platform) Scenario.cryptDir "master"
               Sample.tree = Settled self' w')
    by (eexists _, _; vm_compute; reflexivity).
  destruct Hrun as (self' & w' & Hrun).
  assert (Hload :
    FSDirectory.loadEntries (P := Sample.platform)
      (FSDirectory.mk nilObjectId [] []) "C:\src\.cryptdir" "master" Sample.tree
    = Settled (FSDirectory.mk nilObjectId [] [], FSDirectory.mkEntries [] [])
              Sample.tree)
    by (vm_compute; reflexivity).
  destruct (identical_content_shares_one_object (P := Sample.platform)
              Scenario.cryptDir self' "master" Sample.tree w'
              (FSDirectory.mk nilObjectId [] []) (FSDirectory.mkEntries [] [])
              [mkDirent "a.txt" "C:\src" false; mkDirent "b.txt" "C:\src" false;
               mkDirent "c.txt" "C:\src" false]
              0 1 (mkDirent "a.txt" "C:\src" false) (mkDirent "b.txt" "C:\src" false)
              (list_byte_of_string "same"))
    as (ei & ej & f & Hi & Hj & Hpi & Hpj & Hidi & Hidj & _ & Hone);
    [reflexivity | reflexivity
    | right; split; vm_compute; reflexivity
    | intros id _; reflexivity | exact Hload
    | intros f Hf; apply elem_of_nil in Hf; destruct Hf
    | vm_compute; reflexivity | reflexivity | reflexivity | lia
    | reflexivity | reflexivity | reflexivity | reflexivity | exact Hrun |].
  exists self', w', ei, ej, f.
  split; [exact Hrun|]. split; [exact Hi|]. split; [exact Hj|].
  split; [exact Hpi|]. split; [exact Hpj|]. split; [exact Hidi|].
  split; [exact Hidj | exact Hone].
Defined.

(** A first [encrypt] on the sample tree: nothing was loaded, and the
    manifest is written exactly when the session has path entries to
    serialize differently from the empty list. *)
Lemma manifest_saved_iff_dirents_changed_witness :
  exists self' w' evs,
    CryptDir.encrypt (P := Sample.platform) Scenario.cryptDir "master" Sample.tree
      = Settled self' w' /\
    journal w' = (journal Sample.tree ++ evs)%list /\
    (Wrote "C:\src\.cryptdir\00000000000000000000000000000000" ∈ evs <->
     JSON.stringify (FSDirectory.dirents_json
                       (FSDirectory.dirents (CryptDir.fsDirectory self')))
     <> JSON.stringify (FSDirectory.dirents_json [])).
Proof.
  assert (Hrun : exists self' w',
             CryptDir.encrypt (P := Sample.platform) Scenario.cryptDir "master"
               Sample.tree = Settled self' w')
    by (eexists _, _; vm_compute; reflexivity).
  destruct Hrun as (self' & w' & Hrun).
  assert (Hlisting :
    CryptDir.getSrcDirents (P := Sample.platform) Scenario.cryptDir Sample.tree
    = Settled (Some [mkDirent "a.txt" "C:\src" false; mkDirent "b.txt" "C:\src" false;
                     mkDirent "c.txt" "C:\src" false]) Sample.tree)
    by (vm_compute; reflexivity).
  assert (Hreach : store_reachable (P := Sample.platform) Scenario.cryptDir
                     Sample.tree)
    by (right; split; vm_compute; reflexivity).
  destruct (manifest_saved_iff_dirents_changed (P := Sample.platform)
              Scenario.cryptDir self' "master" Sample.tree w'
              (Some [mkDirent "a.txt" "C:\src" false; mkDirent "b.txt" "C:\src" false;
                     mkDirent "c.txt" "C:\src" false])
              eq_refl
              (fun id _ Hid => Sample_paths_distinct _ id nilObjectId Hid)
              (or_introl eq_refl) Hreach Hlisting Hrun)
    as (previous & entries & evs & Hload & Hjournal & Hiff).
  assert (Hentries : FSDirectory.e_dirents entries = []).
  { vm_compute in Hload. by injection Hload as _ <-. }
  rewrite Hentries in Hiff.
  exists self', w', evs. split; [exact Hrun|]. split; [exact Hjournal | exact Hiff].
Defined.

(** C3, the claim as stated fails on two runs of the command line tool.
    (1) After a first run the source files are removed: the second run
    loads a manifest with three path entries, ends with an empty session
    manifest, and writes nothing (it removes the store). (2) The store
    holds a manifest with a file object that no path entry names: the run
    ends with a manifest whose serialization differs from the loaded one
    (in its files only) and writes nothing. *)
Lemma manifest_not_saved_although_changed :
  (let run := cli.encrypt (P := Sample.platform) "C:\src" None "master"
                Scenario.emptied in
   exists previous entries cd w',
     FSDirectory.loadEntries (P := Sample.platform)
       (FSDirectory.mk nilObjectId [] []) "C:\src\.cryptdir" "master"
       Scenario.emptied = Settled (previous, entries) Scenario.emptied /\
     run = Settled cd w' /\
     length (FSDirectory.e_dirents entries) = 3%nat /\
     FSDirectory.dirents (CryptDir.fsDirectory cd) = [] /\
     JS.streq
       (JSON.stringify (FSDirectory.entries_json
                          (FSDirectory.getEntries (CryptDir.fsDirectory cd))))
       (JSON.stringify (FSDirectory.entries_json entries)) = false /\
     events_since Scenario.emptied run
     = [RemovedTree "C:\src\.cryptdir";
        Logged "Removed directory 'C:\src\.cryptdir'"]) /\
  (let run := cli.encrypt (P := Sample.platform) "C:\src" None "master"
                Scenario.annotated in
   exists previous entries cd w',
     FSDirectory.loadEntries (P := Sample.platform)
       (FSDirectory.mk nilObjectId [] []) "C:\src\.cryptdir" "master"
       Scenario.annotated = Settled (previous, entries) Scenario.annotated /\
     run = Settled cd w' /\
     FSDirectory.e_files entries
     = [file.mk "AA" "6104" "pw"; file.mk "BB" "ffff" "pw2"] /\
     FSDirectory.files (CryptDir.fsDirectory cd) = [file.mk "AA" "6104" "pw"] /\
     JS.streq
       (JSON.stringify (FSDirectory.entries_json
                          (FSDirectory.getEntries (CryptDir.fsDirectory cd))))
       (JSON.stringify (FSDirectory.entries_json entries)) = false /\
     events_since Scenario.annotated run = []).
Proof.
  split; cbv zeta; eexists _, _, _, _;
    (split; [vm_compute; reflexivity|]);
    (split; [vm_compute; reflexivity|]);
    repeat split; vm_compute; reflexivity.
Qed.

(** C4, on the sample store, restoring into the existing directory D:\out:
    with every object intact [decrypt] restores the three files; with the
    object of a.txt overwritten, [decrypt] opens a.txt, logs 'Incorrect
    password', its promise is never settled, and b.txt and c.txt are never
    restored although the object of c.txt is intact; with a wrong master
    password neither [decrypt] nor [encrypt] gets past the load of the
    manifest. *)
Theorem decrypt_stalls_at_failed_object :
  let intact := cli.decrypt (P := Sample.platform) "D:\out"
                  (Some "C:\src\.cryptdir") "master" Scenario.synced_out in
  let failed := cli.decrypt (P := Sample.platform) "D:\out"
                  (Some "C:\src\.cryptdir") "master" Scenario.damaged_out in
  (fs Scenario.synced_out !! "D:\out" = Some Directory /\
   fs Scenario.damaged_out !! "D:\out" = Some Directory) /\
  (is_settled intact = true /\
   fs (final_world intact) !! "D:\out\a.txt" = Some (Sample.text "same") /\
   fs (final_world intact) !! "D:\out\b.txt" = Some (Sample.text "same") /\
   fs (final_world intact) !! "D:\out\c.txt" = Some (Sample.text "other")) /\
  (is_settled failed = false /\
   events_since Scenario.damaged_out failed
   = [Opened "D:\out\a.txt"; Logged "Incorrect password"] /\
   fs (final_world failed) !! "D:\out\b.txt" = None /\
   fs (final_world failed) !! "D:\out\c.txt" = None) /\
  (is_settled (cli.decrypt (P := Sample.platform) "D:\out"
                 (Some "C:\src\.cryptdir") "wrong" Scenario.synced_out) = false /\
   is_settled (cli.encrypt (P := Sample.platform) "C:\src" None "wrong"
                 Scenario.synced_out) = false).
Proof.
  cbv zeta. repeat split; vm_compute; reflexivity.
Qed.


(** A store without a manifest: the new directory stays empty. *)
Lemma absent_source_is_empty_witness :
  (directory <- FSDirectory.new (P := Sample.platform) ;;
   FSDirectory.loadEntries directory "C:\src\.cryptdir" "master") Sample.tree
  = Settled (FSDirectory.mk nilObjectId [] [], FSDirectory.mkEntries [] [])
            Sample.tree.
Proof.
  apply (absent_source_is_empty (P := Sample.platform)
           "C:\src\.cryptdir\00000000000000000000000000000000" Sample.tree eq_refl).
  reflexivity.
Defined.

(** Both entries of the snapshot are obsolete: a.txt was renamed and its
    identifier is still carried by a file object, so its blob stays; the
    identifier of c.txt is carried by none, so its blob goes. *)
Lemma obsolete_entries_and_removed_blobs_witness :
  exists w',
    CryptDir.removeObsoleteDirents (P := Sample.platform) Scenario.renamed
      Scenario.snapshot Scenario.blobs = Settled tt w' /\
    fs w' !! CryptDir.getEncFilePath (P := Sample.platform) Scenario.renamed
               Scenario.idB = None /\
    fs w' !! CryptDir.getEncFilePath (P := Sample.platform) Scenario.renamed
               Scenario.idA <> None.
Proof.
  destruct (obsolete_entries_and_removed_blobs (P := Sample.platform)
              Scenario.renamed Scenario.snapshot Scenario.blobs)
    as (_ & w' & Hrun & Hiff & _).
  assert (HA : objectId Scenario.idA).
  { split; [reflexivity|]. refine (bool_decide_unpack _ _). vm_compute. exact I. }
  assert (HB : objectId Scenario.idB).
  { split; [reflexivity|]. refine (bool_decide_unpack _ _). vm_compute. exact I. }
  assert (Hobj : forall d id,
    d ∈ FSDirectory.getObsoleteDirents (CryptDir.fsDirectory Scenario.renamed)
          Scenario.snapshot ->
    dirent.fileId d = Some id -> objectId id).
  { intros d id Hd Hid. apply list_elem_of_lookup in Hd as [k Hk].
    destruct k as [|[|k]]; [| |discriminate].
    - injection Hk as <-. injection Hid as <-. exact HA.
    - injection Hk as <-. injection Hid as <-. exact HB. }
  assert (Hinj : forall id id', objectId id -> objectId id' ->
    CryptDir.getEncFilePath (P := Sample.platform) Scenario.renamed id
    = CryptDir.getEncFilePath (P := Sample.platform) Scenario.renamed id' ->
    id = id').
  { intros id id' _ _ Heq.
    by apply (append_inj_l "\"), (append_inj_l "C:\src\.cryptdir"). }
  specialize (Hiff Hobj Hinj).
  exists w'. split; [exact Hrun|]. split.
  - apply (Hiff (dirent.mk "c.txt" (Some Scenario.idB)) Scenario.idB (File [x02]));
      [apply list_elem_of_lookup; by exists 1%nat | reflexivity | reflexivity |].
    intros (f & Hf & Hid). apply list_elem_of_lookup in Hf as [k Hk].
    destruct k as [|k]; [|discriminate].
    injection Hk as <-. discriminate.
  - intros Hgone.
    apply (Hiff (dirent.mk "a.txt" (Some Scenario.idA)) Scenario.idA (File [x01]))
      in Hgone;
      [|apply list_elem_of_lookup; by exists 0%nat | reflexivity | reflexivity].
    apply Hgone. exists (file.mk Scenario.idA "6104" "pw").
    split; [apply list_elem_of_lookup; by exists 0%nat | reflexivity].
Defined.

(** A Windows style name loses the source directory, a POSIX style name
    without backslash keeps it. *)
Lemma getRelativePath_removes_backslash_prefix_witness :
  CryptDir.getRelativePath Scenario.cryptDir "C:\src\dir\a.txt" = "dir\a.txt" /\
  CryptDir.getRelativePath Scenario.posix "/home/u/docs/a.txt"
  = "/home/u/docs/a.txt".
Proof.
  split.
  - exact (proj1 (proj2 (getRelativePath_removes_backslash_prefix
                           (P := Sample.platform) Scenario.cryptDir))
             "dir\a.txt").
  - apply (proj1 (proj2 (proj2 (proj2
             (getRelativePath_removes_backslash_prefix
                (P := Sample.platform) Scenario.posix)))) "a.txt").
    refine (bool_decide_unpack _ _). vm_compute. exact I.
Defined.

(** C10, the claim as stated fails for a name joined with a forward slash:
    below the source directory docs, the file named docs\old.txt (a
    backslash is an ordinary character of a POSIX file name) has the full
    name docs/docs\old.txt, and the path recorded for it is docs/old.txt,
    not the full name. *)
Lemma getRelativePath_changes_posix_name :
  let self := CryptDir.mk "docs" "docs/.cryptdir"
                (FSDirectory.mk nilObjectId [] []) in
  let fullName := "docs" +:+ "/" +:+ "docs\old.txt" in
  CryptDir.getRelativePath self fullName = "docs/old.txt" /\
  CryptDir.getRelativePath self fullName <> fullName.
Proof. cbv zeta. split; [vm_compute; reflexivity | by vm_compute]. Qed.

(** ** The manifest as JSON text *)

(** The text [saveToFile] encrypts for the annotated manifest parses back
    to the value it was made from, and [assign] rebuilds the directory. *)
Example manifest_json_parses_back :
  let json := FSDirectory.entries_json
                (FSDirectory.getEntries Scenario.annotated_manifest) in
  JSON.parse (JSON.stringify json) = Some json /\
  match json with
  | JSON.Obj members =>
      FSDirectory.assign (FSDirectory.mk nilObjectId [] []) members
      = Some Scenario.annotated_manifest
  | _ => False
  end.
Proof. split; vm_compute; reflexivity. Qed.

(* ================================================================== *)
(** * Further properties of the code *)
(* ================================================================== *)

(** ** attachInitVect.mjs *)

Lemma pipe_attached_chunks (iv : list byte) (chunks : list (list byte)) :
  AttachInitVect.pipe (AttachInitVect.mk iv true) chunks = chunks.
Proof.
  induction chunks as [|c chunks IH]; [reflexivity|].
  simpl. by rewrite IH.
Qed.

(** X1: the transform pushes the initialization vector once, as a chunk of
    its own before the first chunk, and passes every chunk on unchanged; a
    stream without chunks gets no vector at all. *)
Theorem attachInitVect_once_before_first_chunk (iv : list byte)
    (chunks : list (list byte)) :
  AttachInitVect.pipe (AttachInitVect.new iv) chunks
  = match chunks with
    | [] => []
    | _ :: _ => iv :: chunks
    end.
Proof.
  destruct chunks as [|c chunks]; [reflexivity|].
  simpl. by rewrite pipe_attached_chunks.
Qed.

(** ** aesFileCryptor.mjs: sources that are not there *)

(** X2: [encryptFileToFile] on a source path at which nothing exists logs
    that the file was not found and fulfils its promise: no target is
    written and no random byte is drawn. *)
Theorem encryptFileToFile_missing_source `{P : Platform}
    (self : AESFileCryptor.t) (srcFile tgtFile : string) (w : World) :
  fs w !! srcFile = None ->
  AESFileCryptor.encryptFileToFile self srcFile tgtFile w
  = Settled tt (mkWorld (fs w)
                  (journal w ++ [Logged ("File '" +:+ srcFile +:+ "' not found")])
                  (drawn w)).
Proof.
  intros Habsent.
  unfold AESFileCryptor.encryptFileToFile, AESFileCryptor.fileExists.
  unfold await at 1 2, existsSync.
  rewrite bool_decide_eq_false_2 by (rewrite Habsent; by intros [? ?]).
  reflexivity.
Qed.

Lemma encryptFileToFile_missing_source_witness :
  AESFileCryptor.encryptFileToFile (P := Sample.platform)
    (AESFileCryptor.new "pw") "C:\src\gone.txt" "C:\src\.cryptdir\AA" Sample.tree
  = Settled tt (mkWorld (fs Sample.tree)
                  [Logged "File 'C:\src\gone.txt' not found"] 0).
Proof.
  exact (encryptFileToFile_missing_source (P := Sample.platform)
           (AESFileCryptor.new "pw") "C:\src\gone.txt" "C:\src\.cryptdir\AA"
           Sample.tree eq_refl).
Defined.


(** ** cryptDir.mjs: one entry of [decrypt] *)



(** X4: an entry whose destination already holds the content of the
    recorded hash is skipped by [decrypt]: nothing is read from the store,
    nothing is written and nothing is logged. *)
Theorem decryptDirent_skips_matching_destination `{P : Platform}
    (self : CryptDir.t) (d : dirent.t) (id : string) (f : file.t)
    (content : list byte) (w : World) :
  dirent.fileId d = Some id -> JS.truthy id = true ->
  FSDirectory.findFileById (CryptDir.fsDirectory self) id = Some f ->
  fs w !! path_join (CryptDir.srcDir self) (dirent.path d) = Some (File content) ->
  hex (sha256 content) = file.fileHash f ->
  CryptDir.decryptDirent self d w = Settled tt w.
Proof.
  intros Hid Htruthy Hfind Hdest Hhash.
  unfold CryptDir.decryptDirent. unfold await at 1, existsSync.
  rewrite Hid, Htruthy, Hfind.
  rewrite bool_decide_eq_true_2 by eauto.
  unfold CryptDir.decryptFile. cbn [negb].
  unfold await at 1.
  rewrite (await_run _ _ _ _ _ (calcFileHash_run _ _ _ Hdest)).
  unfold ret at 1. rewrite Hhash.
  by rewrite (proj2 (streq_true _ _) eq_refl).
Qed.


Lemma decryptDirent_skips_matching_destination_witness :
  CryptDir.decryptDirent (P := Sample.platform) Scenario.current
    (dirent.mk "a.txt" (Some "AA")) Sample.tree
  = Settled tt Sample.tree.
Proof.
  apply (decryptDirent_skips_matching_destination (P := Sample.platform)
           Scenario.current (dirent.mk "a.txt" (Some "AA")) "AA"
           (file.mk "AA" "6104" "pw") (list_byte_of_string "same") Sample.tree);
    reflexivity.
Defined.


(** ** cryptoUtils.mjs: passwords over any alphabet *)

Lemma join_charAt_empty (indexes : list nat) :
  JS.join (map (JS.charAt EmptyString) indexes) = EmptyString.
Proof. induction indexes as [|i indexes IH]; [reflexivity | exact IH]. Qed.

(** X6: for every alphabet that is not empty [generatePwd(length, chars)]
    returns exactly [length] characters, each one a character of [chars],
    and draws four random bytes per character; with the empty alphabet it
    returns the empty string whatever length is asked for. *)
Theorem generatePwd_over_any_alphabet `{P : Platform} (n : nat) (chars : string)
    (w : World) :
  exists pwd,
    cryptoUtils.generatePwd n chars w
      = Settled pwd (mkWorld (fs w) (journal w) (drawn w + 4 * n)) /\
    (chars = EmptyString -> pwd = EmptyString) /\
    (chars <> EmptyString ->
     String.length pwd = n /\
     forall c, c ∈ JS.chars pwd -> c ∈ JS.chars chars).
Proof.
  eexists. split; [reflexivity|]. split.
  - intros ->. rewrite <- (map_map _ (JS.charAt EmptyString)).
    apply join_charAt_empty.
  - intros Hne.
    assert (Hpos : (0 < String.length chars)%nat)
      by (destruct chars; [done | simpl; lia]).
    set (units := cryptoUtils.uint32s (map csprng (seq (drawn w) (4 * n)))).
    assert (Hunits : length units = n)
      by (apply uint32s_length; by rewrite length_map, length_seq).
    pose proof (pwd_chars chars units "0"%char Hpos) as Hchars.
    split.
    + by rewrite <- chars_length, Hchars, length_map.
    + intros c. rewrite Hchars. intros (x & -> & _)%list_elem_of_fmap.
      apply list_elem_of_In, nth_In. rewrite chars_length.
      assert (0 <= x mod Z.of_nat (String.length chars)
              < Z.of_nat (String.length chars))%Z by (apply Z.mod_pos_bound; lia).
      lia.
Qed.

(** ** fsDirectory.mjs: adding and finding *)

(** X7: [addEntry] appends and never replaces: after it, [findDirent]
    still returns the earliest entry with the path asked for, and the new
    entry only when the path was not there before (its [fileId] kept only
    when it is a non-empty string); [findFileById] likewise returns the
    earliest file object with the identifier. *)
Theorem addEntry_keeps_earliest_match (self : FSDirectory.t) (path : string)
    (fileId : option string) (f : option file.t) (asked : string) :
  FSDirectory.findDirent (FSDirectory.addEntry self path fileId f) asked
  = match FSDirectory.findDirent self asked with
    | Some e => Some e
    | None => if bool_decide (path = asked)
              then Some (dirent.mk path (match fileId with
                                         | Some id => recorded id
                                         | None => None
                                         end))
              else None
    end /\
  FSDirectory.findFileById (FSDirectory.addEntry self path fileId f) asked
  = match FSDirectory.findFileById self asked, f with
    | Some g, _ => Some g
    | None, Some g => if bool_decide (file.fileId g = asked) then Some g else None
    | None, None => None
    end.
Proof.
  unfold FSDirectory.findDirent, FSDirectory.findFileById, FSDirectory.addEntry.
  cbn [FSDirectory.dirents FSDirectory.files]. split.
  - rewrite find_app. destruct (JS.find _ (FSDirectory.dirents self)); [done|].
    reflexivity.
  - destruct f as [g|].
    + rewrite find_app. by destruct (JS.find _ (FSDirectory.files self)).
    + by destruct (JS.find _ (FSDirectory.files self)).
Qed.

(** ** cryptDir.mjs: the listing of the source *)

Lemma filter_sublist {A : Type} (p : A -> bool) (xs : list A) :
  List.filter p xs `sublist_of` xs.
Proof.
  induction xs as [|x xs IH]; [constructor|]. simpl.
  destruct (p x); by constructor.
Qed.

(** X8: [#getSrcDirents] answers [undefined] when nothing exists at the
    source directory. When the source path is a regular file the listing
    throws: the call does not return, and an [encrypt] on such a source is
    never fulfilled (it does not log 'Invalid source directory'). When the
    source is a directory the call returns the sorted listing, in its order,
    without the entries whose full name starts with the store directory and
    without those whose name starts with '.~lock.'. *)
Theorem getSrcDirents_excludes_store_and_locks `{P : Platform}
    (self : CryptDir.t) (w : World) :
  let sorted := localeSort CryptDir.getDirentFullName
                  (readdirSync (fs w) (CryptDir.srcDir self)) in
  (fs w !! CryptDir.srcDir self = None ->
   CryptDir.getSrcDirents self w = Settled None w) /\
  (forall content,
     fs w !! CryptDir.srcDir self = Some (File content) ->
     CryptDir.getSrcDirents self w = Unsettled w /\
     forall masterPwd,
       is_settled (CryptDir.encrypt self masterPwd w) = false) /\
  (fs w !! CryptDir.srcDir self = Some Directory ->
   exists ds,
     CryptDir.getSrcDirents self w = Settled (Some ds) w /\
     ds `sublist_of` sorted /\
     forall d, d ∈ ds <->
       d ∈ sorted /\
       JS.startsWith (CryptDir.getDirentFullName d) (CryptDir.encDir self) = false /\
       JS.startsWith (name d) ".~lock." = false).
Proof.
  intros sorted. split; [|split].
  - intros Hnone. unfold CryptDir.getSrcDirents, await, existsSync.
    by rewrite bool_decide_eq_false_2 by (rewrite Hnone; by intros [? ?]).
  - intros content Hfile.
    assert (Hthrows : CryptDir.getSrcDirents self w = Unsettled w).
    { unfold CryptDir.getSrcDirents, await, existsSync.
      rewrite bool_decide_eq_true_2 by (rewrite Hfile; eauto).
      by rewrite Hfile. }
    split; [exact Hthrows|]. intros masterPwd.
    unfold CryptDir.encrypt.
    rewrite (await_run _ _ _ _ _ (FSDirectory_new_run w)).
    unfold CryptDir.loadDecEntries. unfold await at 1. unfold await at 1.
    destruct (FSDirectory.loadEntries _ _ _ w) as [loaded w0|w0] eqn:Hload;
      [|reflexivity].
    apply loadEntries_settled in Hload as (-> & _).
    unfold ret at 1. unfold await at 1. by rewrite Hthrows.
  - intros Hdir. unfold CryptDir.getSrcDirents, await, existsSync.
    rewrite bool_decide_eq_true_2 by (rewrite Hdir; eauto). rewrite Hdir.
    eexists. split; [reflexivity|]. split; [apply filter_sublist|].
    intros d. rewrite list_elem_of_In, filter_In, <- list_elem_of_In.
    rewrite andb_true_iff, !negb_true_iff.
    unfold CryptDir.filterDirentByName, CryptDir.defaultNameFilters. simpl.
    rewrite orb_false_r. tauto.
Qed.

(** ** cryptDir.mjs: what [encrypt] touches *)

Lemma rmSyncRec_lookup `{P : Platform} (path p : string) (w : World) :
  exists w',
    rmSyncRec path w = Settled tt w' /\
    drawn w' = drawn w /\
    journal w' = (journal w ++ [RemovedTree path])%list /\
    fs w' !! p
    = if bool_decide (p = path) then None
      else if JS.startsWith p (path +:+ path_sep) then None
      else fs w !! p.
Proof.
  eexists. split; [reflexivity|]. split; [reflexivity|]. split; [reflexivity|].
  cbn [fs]. case_bool_decide as Hp.
  - subst. apply lookup_delete_eq.
  - rewrite lookup_delete_ne by done.
    destruct (JS.startsWith p (path +:+ path_sep)) eqn:Hpre.
    + apply map_lookup_filter_None. right. intros x _. simpl. congruence.
    + destruct (fs w !! p) as [x|] eqn:Hx.
      * apply map_lookup_filter_Some. by split.
      * apply map_lookup_filter_None. by left.
Qed.

Lemma encrypt_after_load `{P : Platform} (self : CryptDir.t) (masterPwd : string)
    (previous : FSDirectory.t) (entries : FSDirectory.entries) (w w0 : World) :
  FSDirectory.loadEntries (FSDirectory.mk nilObjectId [] [])
    (CryptDir.encDir self) masterPwd w = Settled (previous, entries) w0 ->
  CryptDir.encrypt self masterPwd w
  = (srcDirents <- CryptDir.getSrcDirents self ;;
     match srcDirents with
     | Some (d :: ds) =>
         CryptDir.mkdirSyncWithCheck (CryptDir.encDir self) ;;;
         self' <- forOf (fun s x => CryptDir.encryptDirent s x previous)
                    (d :: ds) self ;;
         CryptDir.removeObsoleteDirents self' previous ;;;
         (if negb (FSDirectory.equals (CryptDir.fsDirectory self')
                     (FSDirectory.e_dirents entries))
          then FSDirectory.saveToFile (CryptDir.fsDirectory self')
                 (CryptDir.encDir self) masterPwd
          else ret tt) ;;;
         ret self'
     | Some [] =>
         removed <- CryptDir.rmSyncRecWithCheck (CryptDir.encDir self) ;;
         (if removed
          then log ("Removed directory '" +:+ CryptDir.encDir self +:+ "'")
          else ret tt) ;;;
         ret self
     | None =>
         log ("Invalid source directory '" +:+ CryptDir.srcDir self +:+ "'") ;;;
         ret self
     end) w.
Proof.
  intros Hload.
  destruct (loadEntries_settled _ _ _ _ _ _ Hload) as (-> & _).
  unfold CryptDir.encrypt.
  rewrite (await_run _ _ _ _ _ (FSDirectory_new_run w)).
  unfold CryptDir.loadDecEntries.
  unfold await at 1. unfold await at 1. rewrite Hload. reflexivity.
Qed.

(** X9: a run of [encrypt] that loads the manifest and lists no source
    entry gives the store up: when the store directory exists it is removed
    with everything below it and the removal is logged; when it does not
    exist nothing happens. Paths outside the store directory keep what they
    hold, the session directory stays as it was, and no random byte is
    drawn. *)
Theorem encrypt_empty_listing_removes_store `{P : Platform} (self : CryptDir.t)
    (masterPwd : string) (previous : FSDirectory.t)
    (entries : FSDirectory.entries) (w w0 : World) :
  FSDirectory.loadEntries (FSDirectory.mk nilObjectId [] [])
    (CryptDir.encDir self) masterPwd w = Settled (previous, entries) w0 ->
  CryptDir.getSrcDirents self w = Settled (Some []) w ->
  exists w',
    CryptDir.encrypt self masterPwd w = Settled self w' /\
    drawn w' = drawn w /\
    (is_Some (fs w !! CryptDir.encDir self) ->
     fs w' !! CryptDir.encDir self = None /\
     (forall p, JS.startsWith p (CryptDir.encDir self +:+ path_sep) = true ->
                fs w' !! p = None) /\
     journal w'
     = (journal w ++ [RemovedTree (CryptDir.encDir self);
                      Logged ("Removed directory '"
                              +:+ CryptDir.encDir self +:+ "'")])%list) /\
    (fs w !! CryptDir.encDir self = None -> w' = w) /\
    (forall p, p <> CryptDir.encDir self ->
               JS.startsWith p (CryptDir.encDir self +:+ path_sep) = false ->
               fs w' !! p = fs w !! p).
Proof.
  intros Hload Hlisting.
  rewrite (encrypt_after_load _ _ _ _ _ _ Hload).
  rewrite (await_run _ _ _ _ _ Hlisting).
  unfold CryptDir.rmSyncRecWithCheck. unfold await at 1 2, existsSync.
  case_bool_decide as Hex.
  - unfold await at 1.
    assert (Hrm : rmSyncRec (CryptDir.encDir self) w
                  = Settled tt
                      (mkWorld
                         (delete (CryptDir.encDir self)
                            (filter (fun kv => JS.startsWith (fst kv)
                                       (CryptDir.encDir self +:+ path_sep) = false)
                                    (fs w)))
                         (journal w ++ [RemovedTree (CryptDir.encDir self)])
                         (drawn w))) by reflexivity.
    rewrite Hrm. unfold ret at 1. unfold await at 1, log, record.
    cbn [fs journal drawn]. eexists. split; [reflexivity|].
    cbn [fs journal drawn]. split; [done|].
    assert (Hlookup : forall p,
      delete (CryptDir.encDir self)
        (filter (fun kv => JS.startsWith (fst kv)
                   (CryptDir.encDir self +:+ path_sep) = false) (fs w)) !! p
      = if bool_decide (p = CryptDir.encDir self) then None
        else if JS.startsWith p (CryptDir.encDir self +:+ path_sep) then None
        else fs w !! p).
    { intros p. destruct (rmSyncRec_lookup (CryptDir.encDir self) p w)
        as (w1 & Hrun & _ & _ & Hl).
      rewrite Hrm in Hrun. injection Hrun as <-. exact Hl. }
    split; [|split].
    + intros _. split; [|split].
      * rewrite Hlookup. by rewrite bool_decide_eq_true_2.
      * intros p Hp. rewrite Hlookup, Hp. by case_bool_decide.
      * by rewrite <- app_assoc.
    + intros Hnone. rewrite Hnone in Hex. by destruct Hex.
    + intros p Hne Hpre. rewrite Hlookup, Hpre.
      by rewrite bool_decide_eq_false_2.
  - exists w. split; [reflexivity|]. split; [done|]. split; [done|].
    split; [done|]. done.
Qed.

(** After a first run the three source files are removed: the second run
    removes the store, and with it the manifest and the blob of a.txt. *)
Lemma encrypt_empty_listing_removes_store_witness :
  exists w',
    CryptDir.encrypt (P := Sample.platform) Scenario.cryptDir "master"
      Scenario.emptied = Settled Scenario.cryptDir w' /\
    fs w' !! "C:\src\.cryptdir" = None /\
    fs w' !! "C:\src\.cryptdir\00000000000000000000000000000000" = None /\
    fs w' !! Scenario.blob_a = None /\
    fs w' !! "C:\src" = Some Directory.
Proof.
  assert (Hload : exists previous entries,
    FSDirectory.loadEntries (P := Sample.platform)
      (FSDirectory.mk nilObjectId [] []) "C:\src\.cryptdir" "master"
      Scenario.emptied = Settled (previous, entries) Scenario.emptied)
    by (eexists _, _; vm_compute; reflexivity).
  destruct Hload as (previous & entries & Hload).
  destruct (encrypt_empty_listing_removes_store (P := Sample.platform)
              Scenario.cryptDir "master" previous entries
              Scenario.emptied Scenario.emptied Hload)
    as (w' & Hrun & _ & Hstore & _ & Hframe).
  { vm_compute. reflexivity. }
  destruct Hstore as (Hdir & Hbelow & _).
  { eexists. vm_compute. reflexivity. }
  exists w'. split; [exact Hrun|]. split; [exact Hdir|].
  split; [apply Hbelow; vm_compute; reflexivity|].
  split; [apply Hbelow; vm_compute; reflexivity|].
  rewrite Hframe; [vm_compute; reflexivity| discriminate | vm_compute; reflexivity].
Defined.

Lemma saveToFile_frame `{P : Platform} (directory : FSDirectory.t)
    (encDir pwd : string) (w w' : World) (p : string) :
  FSDirectory.saveToFile directory encDir pwd w = Settled tt w' ->
  p <> path_join encDir (FSDirectory.defaultFileName directory) ->
  fs w' !! p = fs w !! p.
Proof.
  intros Hrun Hp. destruct (FSDirectory.dirents directory) as [|e es] eqn:Hds.
  - unfold FSDirectory.saveToFile in Hrun. rewrite Hds in Hrun.
    by injection Hrun as <-.
  - destruct (saveToFile_run directory encDir pwd w) as [blob Hsave];
      [by rewrite Hds|].
    rewrite Hsave in Hrun. injection Hrun as <-. cbn [fs].
    by rewrite lookup_insert_ne.
Qed.

(** X10: a completed [encrypt] leaves every path alone that is neither the
    store directory nor a path below it: the source files are read, never
    written, renamed or removed. The store keeps its objects below the
    store directory, and the file entries of the manifest loaded at the
    start carry object identifiers. *)
Theorem encrypt_changes_only_the_store `{P : Platform} (self self' : CryptDir.t)
    (masterPwd : string) (previous : FSDirectory.t)
    (entries : FSDirectory.entries) (w w' : World) (p : string) :
  FSDirectory.defaultFileName (CryptDir.fsDirectory self) = nilObjectId ->
  (forall id, objectId id ->
              JS.startsWith (CryptDir.getEncFilePath self id)
                            (CryptDir.encDir self +:+ path_sep) = true) ->
  FSDirectory.loadEntries (FSDirectory.mk nilObjectId [] [])
    (CryptDir.encDir self) masterPwd w = Settled (previous, entries) w ->
  (forall d id, d ∈ FSDirectory.dirents previous ->
                dirent.fileId d = Some id -> objectId id) ->
  CryptDir.encrypt self masterPwd w = Settled self' w' ->
  p <> CryptDir.encDir self ->
  JS.startsWith p (CryptDir.encDir self +:+ path_sep) = false ->
  fs w' !! p = fs w !! p.
Proof.
  intros Hnil Hstore Hload Hids Hrun Hdir Hbelow.
  assert (Hobj : forall id, objectId id -> p <> CryptDir.getEncFilePath self id).
  { intros id Hid Heq. rewrite Heq, (Hstore id Hid) in Hbelow. discriminate. }
  apply encrypt_settled in Hrun
    as (previous' & entries' & listing & Hload' & _ & Hcase).
  rewrite Hload in Hload'. injection Hload' as <- <-.
  destruct listing as [[|d ds]|].
  - destruct Hcase as (_ & removed & w1 & Hrm & ->).
    assert (Hw1 : fs w1 !! p = fs w !! p).
    { unfold CryptDir.rmSyncRecWithCheck, await, existsSync in Hrm.
      destruct (bool_decide _).
      - destruct (rmSyncRec_lookup (CryptDir.encDir self) p w)
          as (w2 & Hrun2 & _ & _ & Hl).
        rewrite Hrun2 in Hrm. injection Hrm as _ <-.
        rewrite Hl, Hbelow. by rewrite bool_decide_eq_false_2.
      - by injection Hrm as _ <-. }
    by destruct removed.
  - destruct Hcase as (made & w1 & w2 & w3 & Hmk & Hloop & Hrm & Hsave).
    assert (Hw1 : fs w1 !! p = fs w !! p).
    { destruct (mkdirSyncWithCheck_run (CryptDir.encDir self) w)
        as (made' & evs & Hmk' & _).
      rewrite Hmk' in Hmk. injection Hmk as _ <-. cbn [fs].
      destruct made'; [by rewrite lookup_insert_ne | done]. }
    apply encrypt_loop in Hloop as (_ & Henc & Hname & _ & _ & _ & _ & Hframe & _).
    assert (Hw2 : fs w2 !! p = fs w1 !! p).
    { apply Hframe. intros n. apply Hobj, generatedId_objectId. }
    assert (Hw3 : fs w3 !! p = fs w2 !! p).
    { unfold CryptDir.removeObsoleteDirents in Hrm.
      destruct (removeObsoleteDirents_loop self'
                  (FSDirectory.getObsoleteDirents (CryptDir.fsDirectory self')
                     previous) w2)
        as (w3' & evs & Hrm' & _ & _ & _ & _ & _ & Hframe').
      rewrite Hrm' in Hrm. injection Hrm as <-. apply Hframe'.
      intros d0 id Hd0 (Hid & _).
      apply getObsoleteDirents_spec in Hd0 as [Hd0 _].
      unfold CryptDir.getEncFilePath. rewrite Henc.
      apply Hobj. by apply (Hids d0). }
    destruct (FSDirectory.equals _ _).
    + subst w'. congruence.
    + rewrite (saveToFile_frame _ _ _ _ _ p Hsave); [congruence|].
      rewrite Hname, Hnil. apply Hobj, nilObjectId_objectId.
  - destruct Hcase as (_ & ->). done.
Qed.

(** On the sample tree the three source files hold after [encrypt] what
    they held before. *)
Lemma encrypt_changes_only_the_store_witness :
  exists self' w',
    CryptDir.encrypt (P := Sample.platform) Scenario.cryptDir "master" Sample.tree
      = Settled self' w' /\
    fs w' !! "C:\src\a.txt" = fs Sample.tree !! "C:\src\a.txt" /\
    fs w' !! "C:\src\c.txt" = fs Sample.tree !! "C:\src\c.txt".
Proof.
  assert (Hrun : exists self' w',
             CryptDir.encrypt (P := Sample.platform) Scenario.cryptDir "master"
               Sample.tree = Settled self' w')
    by (eexists _, _; vm_compute; reflexivity).
  destruct Hrun as (self' & w' & Hrun).
  assert (Hload :
    FSDirectory.loadEntries (P := Sample.platform)
      (FSDirectory.mk nilObjectId [] []) "C:\src\.cryptdir" "master" Sample.tree
    = Settled (FSDirectory.mk nilObjectId [] [], FSDirectory.mkEntries [] [])
              Sample.tree)
    by (vm_compute; reflexivity).
  assert (Hids : forall (d : dirent.t) (id : string),
            d ∈ FSDirectory.dirents (FSDirectory.mk nilObjectId [] []) ->
            dirent.fileId d = Some id -> objectId id).
  { intros d id Hd. apply elem_of_nil in Hd. destruct Hd. }
  assert (Hstore : forall id, objectId id ->
            JS.startsWith
              (CryptDir.getEncFilePath (P := Sample.platform) Scenario.cryptDir id)
              (CryptDir.encDir Scenario.cryptDir +:+ path_sep) = true).
  { intros id _. destruct id; reflexivity. }
  exists self', w'. split; [exact Hrun|]. split.
  - apply (encrypt_changes_only_the_store (P := Sample.platform)
             Scenario.cryptDir self' "master" _ _ Sample.tree w' "C:\src\a.txt"
             eq_refl Hstore Hload Hids Hrun);
      [discriminate | vm_compute; reflexivity].
  - apply (encrypt_changes_only_the_store (P := Sample.platform)
             Scenario.cryptDir self' "master" _ _ Sample.tree w' "C:\src\c.txt"
             eq_refl Hstore Hload Hids Hrun);
      [discriminate | vm_compute; reflexivity].
Defined.

(** ** cryptDir.mjs: the manifest [encrypt] builds *)

Lemma findFileById_grows (files added : list file.t) (id : string) :
  is_Some (JS.find (fun f => JS.streq (file.fileId f) id) files) ->
  is_Some (JS.find (fun f => JS.streq (file.fileId f) id) (files ++ added)).
Proof. intros [f Hf]. rewrite find_app, Hf. eauto. Qed.

Lemma encryptDirent_closed `{P : Platform} (self self' : CryptDir.t) (d : fs_Dirent)
    (currDirectory : FSDirectory.t) (w w' : World) :
  CryptDir.encryptDirent self d currDirectory w = Settled self' w' ->
  (forall e id, e ∈ FSDirectory.dirents (CryptDir.fsDirectory self) ->
                dirent.fileId e = Some id ->
                is_Some (FSDirectory.findFileById (CryptDir.fsDirectory self) id)) ->
  CryptDir.srcDir self' = CryptDir.srcDir self /\
  (exists e,
     FSDirectory.dirents (CryptDir.fsDirectory self')
     = (FSDirectory.dirents (CryptDir.fsDirectory self) ++ [e])%list /\
     dirent.path e = CryptDir.getRelativePath self (CryptDir.getDirentFullName d) /\
     (isDirectory d = true -> dirent.fileId e = None)) /\
  (forall e id, e ∈ FSDirectory.dirents (CryptDir.fsDirectory self') ->
                dirent.fileId e = Some id ->
                is_Some (FSDirectory.findFileById (CryptDir.fsDirectory self') id)).
Proof.
  intros (fileId & file & evs & -> & _ & _ & _ & Hdir & Hfile)%encryptDirent_step
    Hclosed.
  split; [done|]. split.
  - eexists. split; [reflexivity|]. split; [reflexivity|].
    intros Hd. by destruct (Hdir Hd) as [-> _].
  - cbn [CryptDir.fsDirectory FSDirectory.addEntry FSDirectory.dirents
         FSDirectory.files FSDirectory.findFileById].
    assert (Hgrow : forall id,
      is_Some (FSDirectory.findFileById (CryptDir.fsDirectory self) id) ->
      is_Some (JS.find (fun f => JS.streq (file.fileId f) id)
                 match file with
                 | Some f => (FSDirectory.files (CryptDir.fsDirectory self) ++ [f])%list
                 | None => FSDirectory.files (CryptDir.fsDirectory self)
                 end)).
    { intros id Hid. destruct file; [by apply findFileById_grows | done]. }
    intros e id [He|He]%elem_of_app Hid; [by eapply Hgrow, Hclosed|].
    apply list_elem_of_singleton in He as ->. cbn [dirent.fileId] in Hid.
    destruct (isDirectory d) eqn:Hd.
    { destruct (Hdir eq_refl) as [-> _]. discriminate. }
    destruct (Hfile eq_refl) as (content & _ & Hcase).
    destruct (FSDirectory.findFileByHash (CryptDir.fsDirectory self)
                (hex (sha256 content))) as [f|] eqn:Hhash.
    + destruct Hcase as [-> ->].
      destruct (JS.truthy (file.fileId f)); [|discriminate].
      injection Hid as <-.
      apply find_some in Hhash as [Hin _].
      destruct (JS.find (fun g => JS.streq (file.fileId g) (file.fileId f))
                  (FSDirectory.files (CryptDir.fsDirectory self))) eqn:Hfind;
        [eauto|].
      rewrite find_none in Hfind. specialize (Hfind f Hin).
      by rewrite (proj2 (streq_true _ _) eq_refl) in Hfind.
    + destruct Hcase as (id' & pwd & -> & ->).
      destruct (JS.truthy id'); [|discriminate]. injection Hid as <-.
      unfold FSDirectory.findFileById, FSDirectory.addEntry.
      cbn [FSDirectory.files]. rewrite find_app.
      destruct (JS.find _ (FSDirectory.files (CryptDir.fsDirectory self)));
        [eauto|].
      cbn [JS.find file.fileId]. rewrite (proj2 (streq_true _ _) eq_refl). eauto.
Qed.

Lemma encrypt_loop_closed `{P : Platform} (currDirectory : FSDirectory.t)
    (ds : list fs_Dirent) :
  forall (self self' : CryptDir.t) (w w' : World),
  forOf (fun s x => CryptDir.encryptDirent s x currDirectory) ds self w
    = Settled self' w' ->
  (forall e id, e ∈ FSDirectory.dirents (CryptDir.fsDirectory self) ->
                dirent.fileId e = Some id ->
                is_Some (FSDirectory.findFileById (CryptDir.fsDirectory self) id)) ->
  (exists added,
     FSDirectory.dirents (CryptDir.fsDirectory self')
     = (FSDirectory.dirents (CryptDir.fsDirectory self) ++ added)%list /\
     Forall2 (fun d e =>
                dirent.path e
                = CryptDir.getRelativePath self (CryptDir.getDirentFullName d) /\
                (isDirectory d = true -> dirent.fileId e = None))
             ds added) /\
  (forall e id, e ∈ FSDirectory.dirents (CryptDir.fsDirectory self') ->
                dirent.fileId e = Some id ->
                is_Some (FSDirectory.findFileById (CryptDir.fsDirectory self') id)).
Proof.
  induction ds as [|d ds IH]; intros self self' w w' Hrun Hclosed.
  - injection Hrun as <- <-. split; [|done].
    exists []. rewrite app_nil_r. split; [done | constructor].
  - rewrite forOf_cons in Hrun.
    apply await_settled in Hrun as (self1 & w1 & Hstep & Hrest).
    destruct (encryptDirent_closed _ _ _ _ _ _ Hstep Hclosed)
      as (Hsrc & (e & Hds & Hpath & Hdir) & Hclosed1).
    destruct (IH _ _ _ _ Hrest Hclosed1) as ((added & Hds' & Hall) & Hclosed').
    split; [|done]. exists (e :: added). split.
    + by rewrite Hds', Hds, <- app_assoc.
    + constructor; [done|].
      eapply Forall2_impl; [exact Hall|]. intros d0 e0 [Hp Hd0].
      split; [|done]. rewrite Hp. unfold CryptDir.getRelativePath. by rewrite Hsrc.
Qed.

(** X11: the manifest of a completed [encrypt] has no dangling reference.
    If every path entry of the session that names a file object finds one
    at the start, then so it is at the end; the session gained one path
    entry per listed source entry, in the order of the listing, under its
    relative path, and the entry of a directory names no file object. *)
Theorem encrypt_manifest_is_closed `{P : Platform} (self self' : CryptDir.t)
    (masterPwd : string) (w w' : World) :
  CryptDir.encrypt self masterPwd w = Settled self' w' ->
  (forall e id, e ∈ FSDirectory.dirents (CryptDir.fsDirectory self) ->
                dirent.fileId e = Some id ->
                is_Some (FSDirectory.findFileById (CryptDir.fsDirectory self) id)) ->
  exists listing added,
    CryptDir.getSrcDirents self w = Settled listing w /\
    FSDirectory.dirents (CryptDir.fsDirectory self')
    = (FSDirectory.dirents (CryptDir.fsDirectory self) ++ added)%list /\
    Forall2 (fun d e =>
               dirent.path e
               = CryptDir.getRelativePath self (CryptDir.getDirentFullName d) /\
               (isDirectory d = true -> dirent.fileId e = None))
            (default [] listing) added /\
    (forall e id, e ∈ FSDirectory.dirents (CryptDir.fsDirectory self') ->
                  dirent.fileId e = Some id ->
                  is_Some (FSDirectory.findFileById (CryptDir.fsDirectory self') id)).
Proof.
  intros Hrun Hclosed.
  apply encrypt_settled in Hrun
    as (previous & entries & listing & _ & Hlisting & Hcase).
  exists listing. destruct listing as [[|d ds]|].
  - destruct Hcase as (-> & _). exists []. rewrite app_nil_r.
    split; [done|]. split; [done|]. split; [constructor | done].
  - destruct Hcase as (made & w1 & w2 & w3 & _ & Hloop & _).
    destruct (encrypt_loop_closed _ _ _ _ _ _ Hloop Hclosed)
      as ((added & Hds & Hall) & Hclosed').
    exists added. split; [done|]. split; [done|]. split; done.
  - destruct Hcase as (-> & _). exists []. rewrite app_nil_r.
    split; [done|]. split; [done|]. split; [constructor | done].
Qed.

(** On the sample tree, every path entry written by a first [encrypt]
    names a file object of the manifest. *)
Lemma encrypt_manifest_is_closed_witness :
  exists self' w',
    CryptDir.encrypt (P := Sample.platform) Scenario.cryptDir "master" Sample.tree
      = Settled self' w' /\
    map dirent.path (FSDirectory.dirents (CryptDir.fsDirectory self'))
    = ["a.txt"; "b.txt"; "c.txt"] /\
    forall e id, e ∈ FSDirectory.dirents (CryptDir.fsDirectory self') ->
                 dirent.fileId e = Some id ->
                 is_Some (FSDirectory.findFileById (CryptDir.fsDirectory self') id).
Proof.
  assert (Hrun : exists self' w',
             CryptDir.encrypt (P := Sample.platform) Scenario.cryptDir "master"
               Sample.tree = Settled self' w' /\
             map dirent.path (FSDirectory.dirents (CryptDir.fsDirectory self'))
             = ["a.txt"; "b.txt"; "c.txt"])
    by (eexists _, _; split; [vm_compute; reflexivity | vm_compute; reflexivity]).
  destruct Hrun as (self' & w' & Hrun & Hpaths).
  destruct (encrypt_manifest_is_closed (P := Sample.platform)
              Scenario.cryptDir self' "master" Sample.tree w' Hrun)
    as (listing & added & _ & _ & _ & Hclosed).
  { intros e id He. apply elem_of_nil in He. destruct He. }
  exists self', w'. split; [exact Hrun|]. split; [exact Hpaths | exact Hclosed].
Defined.

(** ** cryptDir.mjs: a source whose contents the snapshot knows *)





(** ** cryptDir.mjs: restoring one file *)

Lemma decryptFileToFile_restores `{P : Platform} `{!PlatformLaws P}
    (self : AESFileCryptor.t) (srcFile tgtFile : string)
    (iv content : list byte) (w : World) :
  length iv = 16%nat ->
  fs w !! srcFile = Some (File (AESFileCryptor.encrypted self iv content)) ->
  srcFile <> tgtFile ->
  AESFileCryptor.decryptFileToFile self srcFile tgtFile w
  = Settled tt (mkWorld (<[tgtFile := File content]> (fs w))
                        (journal w ++ [Opened tgtFile; Wrote tgtFile]) (drawn w)).
Proof.
  intros Hiv Hblob Hne.
  unfold AESFileCryptor.decryptFileToFile, AESFileCryptor.decryptFileToStream.
  unfold await at 1, openFile. unfold await at 1. unfold await at 1, existsSync.
  cbn [fs]. rewrite lookup_insert_ne by done.
  rewrite bool_decide_eq_true_2 by eauto.
  unfold await at 1, readFile. cbn [fs]. rewrite lookup_insert_ne by done.
  rewrite Hblob, (decrypted_encrypted _ _ _ Hiv).
  cbn [forOf]. unfold await, ret, writeFile. cbn [fs journal drawn].
  by rewrite insert_insert_eq, <- app_assoc.
Qed.

(** X13: [decrypt] restores a file from its object and then leaves it
    alone. For an entry whose file object is in the manifest, whose blob is
    what [encryptStreamToFile] writes for a content with the recorded hash
    under the object's password, and whose destination is missing or holds
    other content, one turn of the loop puts exactly that content at the
    destination and logs it; a second turn on the result changes nothing.
    The directory the destination lies in exists. *)
Theorem decryptDirent_restores_then_skips `{P : Platform} `{!PlatformLaws P}
    (self : CryptDir.t) (d : dirent.t) (id : string) (f : file.t)
    (iv content : list byte) (w : World) :
  fs w !! path_dirname (path_join (CryptDir.srcDir self) (dirent.path d))
  = Some Directory ->
  dirent.fileId d = Some id -> JS.truthy id = true ->
  FSDirectory.findFileById (CryptDir.fsDirectory self) id = Some f ->
  length iv = 16%nat ->
  fs w !! CryptDir.getEncFilePath self (file.fileId f)
  = Some (File (AESFileCryptor.encrypted
                  (AESFileCryptor.new (file.pwd f)) iv content)) ->
  hex (sha256 content) = file.fileHash f ->
  CryptDir.getEncFilePath self (file.fileId f)
  <> path_join (CryptDir.srcDir self) (dirent.path d) ->
  (fs w !! path_join (CryptDir.srcDir self) (dirent.path d) = None \/
   exists old,
     fs w !! path_join (CryptDir.srcDir self) (dirent.path d) = Some (File old) /\
     hex (sha256 old) <> file.fileHash f) ->
  exists w',
    CryptDir.decryptDirent self d w = Settled tt w' /\
    w' = mkWorld
           (<[path_join (CryptDir.srcDir self) (dirent.path d) := File content]>
              (fs w))
           (journal w ++
              [Opened (path_join (CryptDir.srcDir self) (dirent.path d));
               Wrote (path_join (CryptDir.srcDir self) (dirent.path d));
               Logged ("Decrypted file '"
                       +:+ CryptDir.getRelativePath self
                             (path_join (CryptDir.srcDir self) (dirent.path d))
                       +:+ "'")])
           (drawn w) /\
    CryptDir.decryptDirent self d w' = Settled tt w'.
Proof.
  intros _ Hid Htruthy Hfind Hiv Hblob Hhash Hne Hdest.
  set (fullName := path_join (CryptDir.srcDir self) (dirent.path d)) in *.
  eexists. split; [|split; [reflexivity|]].
  - unfold CryptDir.decryptDirent. fold fullName.
    unfold await at 1, existsSync. rewrite Hid, Htruthy, Hfind.
    unfold CryptDir.decryptFile.
    assert (Hdiffers :
      (if negb (bool_decide (is_Some (fs w !! fullName))) then ret true
       else (h <- cryptoUtils.calcFileHash fullName ;;
             ret (negb (JS.streq (file.fileHash f) h)))) w = Settled true w).
    { destruct Hdest as [Hnone|(old & Hold & Hother)].
      - rewrite bool_decide_eq_false_2 by (rewrite Hnone; by intros [? ?]).
        reflexivity.
      - rewrite bool_decide_eq_true_2 by eauto. cbn [negb].
        rewrite (await_run _ _ _ _ _ (calcFileHash_run _ _ _ Hold)).
        unfold ret. f_equal. apply negb_true_iff, not_true_iff_false.
        rewrite streq_true. congruence. }
    rewrite (await_run _ _ _ _ _ Hdiffers).
    unfold CryptDir.getAesFileCryptorByPwd.
    rewrite (await_run _ _ _ _ _
               (decryptFileToFile_restores _ _ _ _ _ _ Hiv Hblob Hne)).
    unfold log, record. cbn [fs journal drawn]. by rewrite <- app_assoc.
  - unfold CryptDir.decryptDirent. fold fullName.
    unfold await at 1, existsSync. rewrite Hid, Htruthy, Hfind. cbn [fs].
    rewrite lookup_insert_eq. rewrite bool_decide_eq_true_2 by eauto.
    unfold CryptDir.decryptFile. cbn [negb]. unfold await at 1.
    assert (Hthere :
      fs (mkWorld (<[fullName := File content]> (fs w))
            (journal w ++
               [Opened fullName; Wrote fullName;
                Logged ("Decrypted file '"
                        +:+ CryptDir.getRelativePath self fullName +:+ "'")])
            (drawn w)) !! fullName = Some (File content))
      by apply lookup_insert_eq.
    rewrite (await_run _ _ _ _ _ (calcFileHash_run _ _ _ Hthere)).
    unfold ret at 1. rewrite Hhash.
    by rewrite (proj2 (streq_true _ _) eq_refl).
Qed.

(** A store holding the object AA of the text of a.txt, and the directory
    C:\src without a.txt: a.txt is restored. *)
Lemma decryptDirent_restores_then_skips_witness :
  exists w',
    CryptDir.decryptDirent (P := Sample.platform) Scenario.current
      (dirent.mk "a.txt" (Some "AA"))
      (mkWorld (<["C:\src" := Directory]>
               (<["C:\src\.cryptdir\AA"
                  := File (AESFileCryptor.encrypted (P := Sample.platform)
                             (AESFileCryptor.new "pw") (replicate 16 x07)
                             (list_byte_of_string "same"))]> ∅)) [] 0)
    = Settled tt w' /\
    fs w' !! "C:\src\a.txt" = Some (File (list_byte_of_string "same")).
Proof.
  destruct (decryptDirent_restores_then_skips (P := Sample.platform)
              (PlatformLaws0 := Sample_laws)
              Scenario.current (dirent.mk "a.txt" (Some "AA")) "AA"
              (file.mk "AA" "6104" "pw") (replicate 16 x07)
              (list_byte_of_string "same")
              (mkWorld (<["C:\src" := Directory]>
               (<["C:\src\.cryptdir\AA"
                  := File (AESFileCryptor.encrypted (P := Sample.platform)
                             (AESFileCryptor.new "pw") (replicate 16 x07)
                             (list_byte_of_string "same"))]> ∅)) [] 0))
    as (w' & Hrun & -> & _);
    [vm_compute; reflexivity | reflexivity | reflexivity | reflexivity
    | reflexivity | vm_compute; reflexivity
    | reflexivity | discriminate | left; vm_compute; reflexivity |].
  eexists. split; [exact Hrun|]. apply lookup_insert_eq.
Defined.

(** ** cryptoUtils.mjs: the shape of an identifier *)

(** X14: an identifier made by [getUuid()] is thirty-two characters long
    and consists of decimal digits and the upper-case letters A to F: the
    hyphens of the uuid text are gone and no lower-case digit is left.
    Making it settles and leaves the file system and the journal alone. *)
Theorem getUuid_is_32_upper_hex_digits `{P : Platform} (w : World) :
  exists id w',
    cryptoUtils.getUuid None w = Settled id w' /\
    fs w' = fs w /\ journal w' = journal w /\
    String.length id = 32%nat /\
    forall c, c ∈ JS.chars id -> c ∈ JS.chars "0123456789ABCDEF".
Proof.
  eexists _, _. split; [apply getUuid_run|].
  split; [reflexivity|]. split; [reflexivity|].
  destruct (generatedId_objectId (drawn w)) as [Hlen Hchars].
  split; [exact Hlen|]. by apply Forall_forall.
Qed.

(** ** stringUtils.mjs and dateTimeUtils.mjs *)


Lemma String_repeat_length (c : ascii) (n : nat) :
  String.length (stringUtils.String_repeat (String c EmptyString) n) = n.
Proof.
  induction n as [|n IH]; [reflexivity|].
  cbn [stringUtils.String_repeat]. by rewrite append_length, IH.
Qed.

Lemma padded_length (size : nat) (num : Z) :
  (String.length (pretty num) <= size)%nat ->
  String.length (padded size num) = size.
Proof.
  intros Hfit. unfold padded. rewrite append_length, String_repeat_length. lia.
Qed.

Lemma padNumber_fits (num size : Z) (width : nat) :
  (if (size =? 0)%Z then 2%Z else size) = Z.of_nat width ->
  (String.length (pretty num) <= width)%nat ->
  stringUtils.padNumber num size = Some (padded width num).
Proof.
  intros Hwidth Hfit. unfold stringUtils.padNumber, padded. rewrite Hwidth.
  destruct (Z.eqb_spec (Z.of_nat width - Z.of_nat (String.length (pretty num))) 0)
    as [Hzero|Hpos].
  - by replace (width - String.length (pretty num))%nat with 0%nat by lia.
  - unfold stringUtils.getCharsByCount.
    rewrite (proj2 (Z.eqb_neq _ _) Hpos).
    rewrite (proj2 (Z.ltb_ge _ _)) by lia.
    by rewrite <- Nat2Z.inj_sub, Nat2Z.id by lia.
Qed.

Lemma padNumber_throws (num size : Z) :
  ((if (size =? 0)%Z then 2 else size)
   < Z.of_nat (String.length (pretty num)))%Z ->
  stringUtils.padNumber num size = None.
Proof.
  intros Hlong. unfold stringUtils.padNumber, stringUtils.getCharsByCount.
  set (diff := ((if (size =? 0)%Z then 2 else size)
                - Z.of_nat (String.length (pretty num)))%Z).
  assert (Hneg : (diff < 0)%Z) by (unfold diff; lia).
  rewrite (proj2 (Z.eqb_neq diff 0)) by lia.
  by rewrite (proj2 (Z.ltb_lt diff 0)) by lia.
Qed.

(** X15: for an integer that a double holds exactly and a width a string
    can have, [padNumber] writes the number with leading zeros to exactly
    the asked size (two when the size is 0) as long as the number's text is
    not longer than that; for a longer text it does not return the text as
    it is, it throws, since [repeat] is called with a negative count. *)
Theorem padNumber_pads_or_throws (num size : Z) (width : nat) :
  (Z.abs num <= 9007199254740991)%Z ->
  let text := pretty num in
  ((if (size =? 0)%Z then 2%Z else size) = Z.of_nat width ->
   (Z.of_nat width <= 16777216)%Z ->
   (String.length text <= width)%nat ->
   stringUtils.padNumber num size
   = Some (stringUtils.String_repeat "0" (width - String.length text) +:+ text) /\
   String.length
     (stringUtils.String_repeat "0" (width - String.length text) +:+ text)
   = width) /\
  (((if (size =? 0)%Z then 2 else size) < Z.of_nat (String.length text))%Z ->
   stringUtils.padNumber num size = None).
Proof.
  intros _ text. split.
  - intros Hwidth _ Hfit. split.
    + by apply padNumber_fits.
    + by apply (padded_length width num).
  - apply padNumber_throws.
Qed.

(** Seven is padded to two characters when no size is given, and a number
    of three digits cannot be padded to two. *)
Lemma padNumber_pads_or_throws_witness :
  stringUtils.padNumber 7 0 = Some "07" /\
  stringUtils.padNumber 123 2 = None.
Proof.
  split.
  - destruct (padNumber_pads_or_throws 7 0 2) as [Hfit _]; [lia|].
    destruct Hfit as [Hrun _]; [reflexivity | lia | vm_compute; lia|].
    exact Hrun.
  - destruct (padNumber_pads_or_throws 123 2 2) as [_ Hlong]; [lia|].
    apply Hlong. vm_compute. reflexivity.
Defined.

Lemma pretty_length_small (n : Z) :
  (0 <= n < 1000)%Z ->
  (String.length (pretty n) <= 3)%nat /\
  ((n < 100)%Z -> (String.length (pretty n) <= 2)%nat).
Proof.
  intros Hn.
  assert (Hall :
    forallb (fun k => (String.length (pretty (Z.of_nat k)) <=? 3)%nat
                      && ((100 <=? k)%nat
                          || (String.length (pretty (Z.of_nat k)) <=? 2)%nat))
            (seq 0 1000) = true) by (vm_compute; reflexivity).
  rewrite forallb_forall in Hall.
  assert (Hin : In (Z.to_nat n) (seq 0 1000)) by (apply in_seq; lia).
  specialize (Hall (Z.to_nat n) Hin).
  rewrite Z2Nat.id in Hall by lia.
  apply andb_true_iff in Hall as [Hthree Htwo].
  split; [by apply Nat.leb_le|].
  intros Hsmall. apply orb_true_iff in Htwo as [Hbig|Htwo].
  - apply Nat.leb_le in Hbig. lia.
  - by apply Nat.leb_le.
Qed.

Lemma padNumber_two (n : Z) :
  (0 <= n < 100)%Z ->
  stringUtils.padNumber n 2 = Some (padded 2 n) /\
  String.length (padded 2 n) = 2%nat.
Proof.
  intros Hn.
  assert (Hfit : (String.length (pretty n) <= 2)%nat)
    by (apply pretty_length_small; lia).
  split; [by apply padNumber_fits | by apply padded_length].
Qed.

Lemma padNumber_three (n : Z) :
  (0 <= n < 1000)%Z ->
  stringUtils.padNumber n 3 = Some (padded 3 n) /\
  String.length (padded 3 n) = 3%nat.
Proof.
  intros Hn.
  assert (Hfit : (String.length (pretty n) <= 3)%nat)
    by (apply pretty_length_small; lia).
  split; [by apply padNumber_fits | by apply padded_length].
Qed.

(** X16: for a date whose calendar fields are in their ranges and whose
    zone offset is less than a day, [getLocaleISOString] does not throw and
    returns the year as it is written (not padded), then month, day, hours,
    minutes and seconds in two digits, the milliseconds in three, and the
    sign of the offset against UTC with its hours and minutes in two digits
    each, without a colon between them: twenty-four characters after the
    year. The stamping [log] hands the logger that stamp, four spaces and
    the message. *)
Theorem getLocaleISOString_format (date : dateTimeUtils.Date) :
  (0 <= dateTimeUtils.getMonth date <= 11)%Z ->
  (1 <= dateTimeUtils.getDate date <= 31)%Z ->
  (0 <= dateTimeUtils.getHours date <= 23)%Z ->
  (0 <= dateTimeUtils.getMinutes date <= 59)%Z ->
  (0 <= dateTimeUtils.getSeconds date <= 59)%Z ->
  (0 <= dateTimeUtils.getMilliseconds date <= 999)%Z ->
  (-1440 < dateTimeUtils.getTimezoneOffset date < 1440)%Z ->
  exists stamp,
    dateTimeUtils.getLocaleISOString date = Some stamp /\
    stamp
    = pretty (dateTimeUtils.getFullYear date)
      +:+ "-" +:+ padded 2 (dateTimeUtils.getMonth date + 1)
      +:+ "-" +:+ padded 2 (dateTimeUtils.getDate date)
      +:+ "T" +:+ padded 2 (dateTimeUtils.getHours date)
      +:+ ":" +:+ padded 2 (dateTimeUtils.getMinutes date)
      +:+ ":" +:+ padded 2 (dateTimeUtils.getSeconds date)
      +:+ "." +:+ padded 3 (dateTimeUtils.getMilliseconds date)
      +:+ (if (dateTimeUtils.getTimezoneOffset date <=? 0)%Z then "+" else "-")
      +:+ padded 2 (Z.abs (dateTimeUtils.getTimezoneOffset date) / 60)
      +:+ padded 2 (Z.abs (dateTimeUtils.getTimezoneOffset date) mod 60) /\
    String.length stamp
    = (String.length (pretty (dateTimeUtils.getFullYear date)) + 24)%nat /\
    forall message,
      datedLog.log date message = Some (stamp +:+ "    " +:+ message).
Proof.
  intros Hmonth Hday Hhours Hminutes Hseconds Hmillis Hzone.
  set (tz := dateTimeUtils.getTimezoneOffset date) in *.
  destruct (padNumber_two (dateTimeUtils.getMonth date + 1)) as [Hmo Lmo]; [lia|].
  destruct (padNumber_two (dateTimeUtils.getDate date)) as [Hda Lda]; [lia|].
  destruct (padNumber_two (dateTimeUtils.getHours date)) as [Hho Lho]; [lia|].
  destruct (padNumber_two (dateTimeUtils.getMinutes date)) as [Hmi Lmi]; [lia|].
  destruct (padNumber_two (dateTimeUtils.getSeconds date)) as [Hse Lse]; [lia|].
  destruct (padNumber_three (dateTimeUtils.getMilliseconds date))
    as [Hms Lms]; [lia|].
  assert (Habs : Z.abs (- tz) = Z.abs tz) by apply Z.abs_opp.
  assert (Hquot : (0 <= Z.abs tz / 60 < 100)%Z).
  { split; [apply Z.div_pos; lia|].
    apply Z.div_lt_upper_bound; lia. }
  assert (Hrem : Z.rem (Z.abs tz) 60 = (Z.abs tz mod 60)%Z)
    by (apply Z.rem_mod_nonneg; lia).
  assert (Hmod : (0 <= Z.abs tz mod 60 < 100)%Z).
  { pose proof (Z.mod_pos_bound (Z.abs tz) 60 ltac:(lia)). lia. }
  destruct (padNumber_two (Z.abs tz / 60)) as [Hoh Loh]; [lia|].
  destruct (padNumber_two (Z.abs tz mod 60)) as [Hom Lom]; [lia|].
  assert (Hsign : (0 <=? - tz)%Z = (tz <=? 0)%Z).
  { destruct (Z.leb_spec 0 (- tz)), (Z.leb_spec tz 0); lia || reflexivity. }
  assert (Hstamp :
    dateTimeUtils.getLocaleISOString date
    = Some (JS.join
        [ "" +:+ pretty (dateTimeUtils.getFullYear date);
          "-" +:+ padded 2 (dateTimeUtils.getMonth date + 1);
          "-" +:+ padded 2 (dateTimeUtils.getDate date);
          "T" +:+ padded 2 (dateTimeUtils.getHours date);
          ":" +:+ padded 2 (dateTimeUtils.getMinutes date);
          ":" +:+ padded 2 (dateTimeUtils.getSeconds date);
          "." +:+ padded 3 (dateTimeUtils.getMilliseconds date);
          (if (tz <=? 0)%Z then "+" else "-") +:+ padded 2 (Z.abs tz / 60);
          "" +:+ padded 2 (Z.abs tz mod 60) ])).
  { unfold dateTimeUtils.getLocaleISOString, dateTimeUtils.parts.
    fold tz. rewrite Habs, Hrem, Hsign.
    cbn [dateTimeUtils.renderAll dateTimeUtils.render dateTimeUtils.pre
         dateTimeUtils.pad dateTimeUtils.val JS.truthy].
    rewrite Hmo, Hda, Hho, Hmi, Hse, Hms, Hoh, Hom.
    by destruct (tz <=? 0)%Z. }
  eexists. split; [exact Hstamp|]. split; [|split].
  - apply chars_inj. cbn [JS.join foldr].
    rewrite !chars_append. change (JS.chars "") with (@nil ascii).
    rewrite ?app_nil_r, ?app_nil_l, <- ?app_assoc. reflexivity.
  - cbn [JS.join foldr]. rewrite !append_length.
    rewrite Lmo, Lda, Lho, Lmi, Lse, Lms, Loh, Lom.
    destruct (tz <=? 0)%Z; simpl; lia.
  - intros message. unfold datedLog.log. rewrite Hstamp.
    change (stringUtils.getCharsByCount " " 4) with (Some "    ").
    f_equal. apply chars_inj. rewrite !chars_append. by rewrite <- app_assoc.
Qed.

(** Nine o'clock and five minutes in the morning of 9 March 2024, two
    hours east of UTC. *)
Lemma getLocaleISOString_format_witness :
  dateTimeUtils.getLocaleISOString
    (dateTimeUtils.mkDate 2024 2 9 9 5 3 42 (-120))
  = Some "2024-03-09T09:05:03.042+0200" /\
  datedLog.log (dateTimeUtils.mkDate 2024 2 9 9 5 3 42 (-120)) "Added file 'a.txt'"
  = Some "2024-03-09T09:05:03.042+0200    Added file 'a.txt'".
Proof.
  destruct (getLocaleISOString_format
              (dateTimeUtils.mkDate 2024 2 9 9 5 3 42 (-120)))
    as (stamp & Hrun & -> & _ & Hlog); simpl; try lia.
  split; [exact Hrun | exact (Hlog "Added file 'a.txt'")].
Defined.

(** ** JSON text read back *)

Lemma stringify_arr vs : JSON.stringify (JSON.Arr vs) = "[" +:+ arr_commas vs +:+ "]".
Proof. reflexivity. Qed.

Lemma stringify_obj kvs : JSON.stringify (JSON.Obj kvs) = "{" +:+ obj_commas kvs +:+ "}".
Proof. reflexivity. Qed.

Lemma append_assoc (a b c : string) : (a +:+ b) +:+ c = a +:+ (b +:+ c).
Proof.
  apply chars_inj. rewrite !chars_append. by rewrite app_assoc.
Qed.

Lemma append_nil_r (a : string) : a +:+ "" = a.
Proof. apply chars_inj. rewrite chars_append. apply app_nil_r. Qed.

Lemma value_ind_nested (Q : JSON.value -> Prop) :
  Q JSON.Null -> (forall b, Q (JSON.Bool b)) -> (forall l, Q (JSON.Num l)) ->
  (forall s, Q (JSON.Str s)) ->
  (forall vs, Forall Q vs -> Q (JSON.Arr vs)) ->
  (forall kvs, Forall (fun kv => Q (snd kv)) kvs -> Q (JSON.Obj kvs)) ->
  forall v, Q v.
Proof.
  intros Hnull Hbool Hnum Hstr Harr Hobj. fix IH 1.
  intros [|b|l|s|vs|kvs]; [done | apply Hbool | apply Hnum | apply Hstr | |].
  - apply Harr. induction vs as [|v vs IHvs]; constructor; [apply IH | exact IHvs].
  - apply Hobj. induction kvs as [|kv kvs IHkvs]; constructor;
      [apply IH | exact IHkvs].
Qed.

Lemma parse_string_escape (c : ascii) (tail t r : string) :
  JSON.parse_string tail = Some (t, r) ->
  JSON.parse_string (JSON.escape c +:+ tail) = Some (String c t, r).
Proof.
  intros H.
  destruct c as [[] [] [] [] [] [] [] []];
    match goal with
    | |- context [JSON.escape ?c] =>
        let e := eval vm_compute in (JSON.escape c) in
        change (JSON.escape c) with e
    end; unfold String.append; cbn; rewrite H; reflexivity.
Qed.


Lemma append_cons (c : ascii) (a b : string) :
  String c a +:+ b = String c (a +:+ b).
Proof. reflexivity. Qed.

Lemma parse_string_escaped (s tail : string) :
  JSON.parse_string (JSON.escaped s +:+ String (ascii_of_nat 34) tail)
  = Some (s, tail).
Proof.
  induction s as [|c s IH]; [reflexivity|].
  cbn [JSON.escaped]. rewrite append_assoc. by apply parse_string_escape.
Qed.

Lemma quote_append (s tail : string) :
  JSON.quote s +:+ tail
  = String (ascii_of_nat 34)
      (JSON.escaped s +:+ String (ascii_of_nat 34) tail).
Proof.
  unfold JSON.quote. rewrite !append_cons, append_assoc. reflexivity.
Qed.

Lemma quote_length (s : string) : (2 <= String.length (JSON.quote s))%nat.
Proof.
  unfold JSON.quote. rewrite append_cons. cbn [String.length].
  rewrite append_length. simpl. lia.
Qed.

(** The equations of the parser at the head characters the printer emits. *)
Lemma parse_value_quote (f : nat) (rest : string) :
  JSON.parse_value (S f) (String (ascii_of_nat 34) rest)
  = match JSON.parse_string rest with
    | Some (t, rest') => Some (JSON.Str t, rest')
    | None => None
    end.
Proof. reflexivity. Qed.

Lemma parse_value_bracket (f : nat) (rest : string) :
  JSON.parse_value (S f) (String "[" rest)
  = match JSON.skip_ws rest with
    | String c' s'' =>
        if (nat_of_ascii c' =? 93)%nat then Some (JSON.Arr [], s'')
        else match JSON.parse_items f rest with
             | Some (vs, rest') => Some (JSON.Arr vs, rest')
             | None => None
             end
    | EmptyString => None
    end.
Proof. reflexivity. Qed.

Lemma parse_value_brace (f : nat) (rest : string) :
  JSON.parse_value (S f) (String "{" rest)
  = match JSON.skip_ws rest with
    | String c' s'' =>
        if (nat_of_ascii c' =? 125)%nat then Some (JSON.Obj [], s'')
        else match JSON.parse_members f rest with
             | Some (kvs, rest') => Some (JSON.Obj kvs, rest')
             | None => None
             end
    | EmptyString => None
    end.
Proof. reflexivity. Qed.

Lemma parse_items_step (f : nat) (s : string) :
  JSON.parse_items (S f) s
  = match JSON.parse_value f s with
    | Some (v, rest) =>
        match JSON.skip_ws rest with
        | String c rest' =>
            if (nat_of_ascii c =? 44)%nat then
              match JSON.parse_items f rest' with
              | Some (vs, rest'') => Some (v :: vs, rest'')
              | None => None
              end
            else if (nat_of_ascii c =? 93)%nat then Some ([v], rest')
            else None
        | EmptyString => None
        end
    | None => None
    end.
Proof. reflexivity. Qed.

Lemma parse_members_step (f : nat) (k tail : string) :
  JSON.parse_members (S f) (JSON.quote k +:+ String ":" tail)
  = match JSON.parse_value f tail with
    | Some (v, rest) =>
        match JSON.skip_ws rest with
        | String c rest' =>
            if (nat_of_ascii c =? 44)%nat then
              match JSON.parse_members f rest' with
              | Some (kvs, rest'') => Some ((k, v) :: kvs, rest'')
              | None => None
              end
            else if (nat_of_ascii c =? 125)%nat then Some ([(k, v)], rest')
            else None
        | EmptyString => None
        end
    | None => None
    end.
Proof.
  rewrite quote_append.
  change (JSON.parse_members (S f)
            (String (ascii_of_nat 34)
               (JSON.escaped k +:+ String (ascii_of_nat 34) (String ":" tail))))
    with (match JSON.parse_string
                  (JSON.escaped k +:+ String (ascii_of_nat 34) (String ":" tail))
          with
          | Some (k, afterKey) =>
              match JSON.skip_ws afterKey with
              | String colon s'' =>
                  if (nat_of_ascii colon =? 58)%nat then
                    match JSON.parse_value f s'' with
                    | Some (v, rest) =>
                        match JSON.skip_ws rest with
                        | String c rest' =>
                            if (nat_of_ascii c =? 44)%nat then
                              match JSON.parse_members f rest' with
                              | Some (kvs, rest'') => Some ((k, v) :: kvs, rest'')
                              | None => None
                              end
                            else if (nat_of_ascii c =? 125)%nat
                                 then Some ([(k, v)], rest')
                            else None
                        | EmptyString => None
                        end
                    | None => None
                    end
                  else None
              | EmptyString => None
              end
          | None => None
          end).
  rewrite parse_string_escaped. reflexivity.
Qed.

Lemma stringify_opens (v : JSON.value) :
  numberless v ->
  exists c rest, JSON.stringify v = String c rest /\ opens c.
Proof.
  destruct v as [|[]|l|s|vs|kvs]; intros Hv; [| | |destruct Hv| | |];
    by eexists _, _; split; [reflexivity|].
Qed.

Lemma skip_ws_opens (c : ascii) (rest : string) :
  opens c -> JSON.skip_ws (String c rest) = String c rest.
Proof. intros (Hws & _). cbn [JSON.skip_ws]. by rewrite Hws. Qed.

Lemma arr_commas_cons (v : JSON.value) (vs : list JSON.value) :
  arr_commas (v :: vs)
  = match vs with
    | [] => JSON.stringify v
    | _ :: _ => JSON.stringify v +:+ "," +:+ arr_commas vs
    end.
Proof. by destruct vs. Qed.

Lemma obj_commas_cons (k : string) (v : JSON.value)
    (kvs : list (string * JSON.value)) :
  obj_commas ((k, v) :: kvs)
  = match kvs with
    | [] => JSON.quote k +:+ ":" +:+ JSON.stringify v
    | _ :: _ => JSON.quote k +:+ ":" +:+ JSON.stringify v +:+ "," +:+ obj_commas kvs
    end.
Proof. by destruct kvs. Qed.

Lemma parse_items_back (vs : list JSON.value) :
  vs <> [] -> Forall parses_back vs ->
  forall (tail : string) (f : nat),
    (String.length (arr_commas vs) + 1 <= f)%nat ->
    JSON.parse_items f (arr_commas vs +:+ String "]" tail) = Some (vs, tail).
Proof.
  induction vs as [|v vs IH]; [done|]. intros _ Hall tail f Hf.
  apply Forall_cons in Hall as [Hv Hvs].
  destruct f as [|f]; [lia|]. rewrite parse_items_step, arr_commas_cons.
  rewrite arr_commas_cons in Hf. destruct vs as [|v' vs].
  - rewrite Hv by lia. reflexivity.
  - rewrite !append_assoc, append_cons. rewrite !append_length in Hf.
    rewrite Hv by lia.
    rewrite skip_ws_opens by (repeat split; reflexivity).
    change (String.append "" ?x) with x.
    change (nat_of_ascii "," =? 44)%nat with true. cbv iota.
    rewrite IH; [reflexivity | done | done |].
    change (String.length ",") with 1%nat in Hf. lia.
Qed.

Lemma parse_members_back (kvs : list (string * JSON.value)) :
  kvs <> [] -> Forall (fun kv => parses_back (snd kv)) kvs ->
  forall (tail : string) (f : nat),
    (String.length (obj_commas kvs) + 1 <= f)%nat ->
    JSON.parse_members f (obj_commas kvs +:+ String "}" tail) = Some (kvs, tail).
Proof.
  induction kvs as [|[k v] kvs IH]; [done|]. intros _ Hall tail f Hf.
  apply Forall_cons in Hall as [Hv Hkvs]. cbn [snd] in Hv.
  destruct f as [|f]; [lia|]. rewrite obj_commas_cons.
  rewrite obj_commas_cons in Hf. pose proof (quote_length k) as Hk.
  destruct kvs as [|kv' kvs].
  - rewrite !append_assoc, append_cons. rewrite !append_length in Hf.
    change (String.append "" ?x) with x.
    rewrite parse_members_step. change (String.length ":") with 1%nat in Hf.
    try change (String.length ",") with 1%nat in Hf.
    rewrite Hv by lia. reflexivity.
  - rewrite !append_assoc, append_cons. rewrite !append_length in Hf.
    change (String.append "" ?x) with x.
    rewrite parse_members_step. change (String.length ":") with 1%nat in Hf.
    try change (String.length ",") with 1%nat in Hf.
    rewrite append_cons.
    rewrite Hv by lia.
    rewrite skip_ws_opens by (repeat split; reflexivity).
    change (String.append "" ?x) with x.
    change (nat_of_ascii "," =? 44)%nat with true. cbv iota.
    rewrite IH; [reflexivity | done | done | lia].
Qed.

Lemma commas_open (v : JSON.value) (vs : list JSON.value) :
  numberless v ->
  exists c rest, arr_commas (v :: vs) = String c rest /\ opens c.
Proof.
  intros (c & rest & Hv & Hc)%stringify_opens. rewrite arr_commas_cons.
  destruct vs; rewrite Hv; eexists _, _; (split; [apply append_cons || reflexivity | done]).
Qed.

Lemma members_open (k : string) (v : JSON.value)
    (kvs : list (string * JSON.value)) :
  exists rest, obj_commas ((k, v) :: kvs) = String (ascii_of_nat 34) rest.
Proof.
  rewrite obj_commas_cons. destruct kvs; rewrite quote_append; eauto.
Qed.

Lemma stringify_arr_length (vs : list JSON.value) :
  String.length (JSON.stringify (JSON.Arr vs))
  = (String.length (arr_commas vs) + 2)%nat.
Proof.
  rewrite stringify_arr, !append_length.
  change (String.length "[") with 1%nat. change (String.length "]") with 1%nat.
  lia.
Qed.

Lemma stringify_obj_length (kvs : list (string * JSON.value)) :
  String.length (JSON.stringify (JSON.Obj kvs))
  = (String.length (obj_commas kvs) + 2)%nat.
Proof.
  rewrite stringify_obj, !append_length.
  change (String.length "{") with 1%nat. change (String.length "}") with 1%nat.
  lia.
Qed.

Lemma stringify_parses_back (v : JSON.value) : numberless v -> parses_back v.
Proof.
  induction v as [|b|l|s|vs IH|kvs IH] using value_ind_nested; intros Hv tail f Hf.
  - destruct f as [|f]; [simpl in Hf; lia | by destruct tail].
  - destruct f as [|f]; [destruct b; simpl in Hf; lia | by destruct b, tail].
  - destruct Hv.
  - destruct f as [|f]; [pose proof (quote_length s); simpl in Hf; lia|].
    cbn [JSON.stringify]. rewrite quote_append, parse_value_quote.
    by rewrite parse_string_escaped.
  - rewrite stringify_arr_length in Hf. rewrite stringify_arr.
    rewrite !append_assoc, !append_cons.
    change (String.append "" ?x) with x.
    destruct f as [|f]; [lia|]. rewrite parse_value_bracket.
    destruct vs as [|v vs]; [reflexivity|].
    assert (Hall : Forall numberless (v :: vs)).
    { clear -Hv. revert Hv. generalize (v :: vs). intros l.
      induction l as [|x l IHl]; intros Hl; constructor; [apply Hl|].
      apply IHl, Hl. }
    destruct (commas_open v vs) as (c & rest & Hhead & Hc);
      [by apply Forall_cons in Hall as [? _]|].
    rewrite Hhead, append_cons, skip_ws_opens by done.
    destruct Hc as (_ & -> & _). rewrite <- append_cons, <- Hhead.
    rewrite parse_items_back; [reflexivity | done | | lia].
    apply Forall_forall. intros x Hx.
    apply (proj1 (Forall_forall _ _) IH x Hx).
    by apply (proj1 (Forall_forall _ _) Hall x Hx).
  - rewrite stringify_obj_length in Hf. rewrite stringify_obj.
    rewrite !append_assoc, !append_cons.
    change (String.append "" ?x) with x.
    destruct f as [|f]; [lia|]. rewrite parse_value_brace.
    destruct kvs as [|[k v] kvs]; [reflexivity|].
    assert (Hall : Forall (fun kv => numberless (snd kv)) ((k, v) :: kvs)).
    { clear -Hv. revert Hv. generalize ((k, v) :: kvs). intros l.
      induction l as [|x l IHl]; intros Hl; constructor; [apply Hl|].
      apply IHl, Hl. }
    destruct (members_open k v kvs) as (rest & Hhead).
    rewrite Hhead, append_cons, skip_ws_opens by (repeat split; reflexivity).
    change (nat_of_ascii (ascii_of_nat 34) =? 125)%nat with false. cbv iota.
    rewrite <- append_cons, <- Hhead.
    rewrite parse_members_back; [reflexivity | done | | lia].
    apply Forall_forall. intros x Hx.
    apply (proj1 (Forall_forall _ _) IH x Hx).
    by apply (proj1 (Forall_forall _ _) Hall x Hx).
Qed.

Lemma parse_stringify (v : JSON.value) :
  numberless v -> JSON.parse (JSON.stringify v) = Some v.
Proof.
  intros Hv. unfold JSON.parse.
  rewrite <- (append_nil_r (JSON.stringify v)) at 2.
  rewrite (stringify_parses_back v Hv) by lia. reflexivity.
Qed.


Lemma numberless_arr (vs : list JSON.value) :
  Forall numberless vs -> numberless (JSON.Arr vs).
Proof.
  induction 1 as [|v vs Hv _ IH]; [exact I|]. split; [exact Hv | exact IH].
Qed.

Lemma entries_json_numberless (e : FSDirectory.entries) :
  numberless (FSDirectory.entries_json e).
Proof.
  unfold FSDirectory.entries_json. split; [|split; [|exact I]]; cbn [snd].
  - apply numberless_arr, Forall_forall.
    intros v (d & -> & _)%list_elem_of_fmap.
    unfold FSDirectory.dirent_json. destruct (dirent.fileId d); repeat split.
  - apply numberless_arr, Forall_forall.
    intros v (f & -> & _)%list_elem_of_fmap. repeat split.
Qed.

Lemma json_dirents_back (ds : list dirent.t) :
  FSDirectory.json_list FSDirectory.json_dirent (map FSDirectory.dirent_json ds)
  = Some ds.
Proof.
  induction ds as [|[p [id|]] ds IH]; [reflexivity| |];
    cbn [map FSDirectory.json_list]; rewrite IH; reflexivity.
Qed.

Lemma json_files_back (files : list file.t) :
  FSDirectory.json_list FSDirectory.json_file (map FSDirectory.file_json files)
  = Some files.
Proof.
  induction files as [|[id h p] files IH]; [reflexivity|].
  cbn [map FSDirectory.json_list]. rewrite IH. reflexivity.
Qed.

Lemma assign_entries (self : FSDirectory.t) (e : FSDirectory.entries) :
  match FSDirectory.entries_json e with
  | JSON.Obj members => FSDirectory.assign self members
  | _ => None
  end
  = Some (FSDirectory.mk (FSDirectory.defaultFileName self)
            (FSDirectory.e_dirents e) (FSDirectory.e_files e)).
Proof.
  unfold FSDirectory.entries_json, FSDirectory.dirents_json, FSDirectory.files_json.
  cbn [FSDirectory.assign].
  change (JS.streq "dirents" "dirents") with true. cbv iota.
  rewrite json_dirents_back.
  change (JS.streq "files" "dirents") with false.
  change (JS.streq "files" "files") with true. cbv iota.
  rewrite json_files_back. reflexivity.
Qed.

Section Manifest.
Context `{P : Platform} `{!PlatformLaws P}.

Lemma loadEntries_of_saved (self : FSDirectory.t) (encDir pwd : string)
    (iv : list byte) (e : FSDirectory.entries) (w : World) :
  length iv = 16%nat ->
  fs w !! path_join encDir (FSDirectory.defaultFileName self)
  = Some (File (AESFileCryptor.encrypted (AESFileCryptor.new pwd) iv
                  (list_byte_of_string
                     (JSON.stringify (FSDirectory.entries_json e))))) ->
  FSDirectory.loadEntries self encDir pwd w
  = Settled (FSDirectory.mk (FSDirectory.defaultFileName self)
               (FSDirectory.e_dirents e) (FSDirectory.e_files e),
             e) w.
Proof.
  intros Hiv Hblob.
  unfold FSDirectory.loadEntries, FSDirectory.getAesFileCryptorAndFile.
  unfold AESFileCryptor.decryptFileToJson, AESFileCryptor.decryptFileToStream.
  unfold await at 1 2 3, existsSync.
  rewrite bool_decide_eq_true_2 by eauto.
  unfold await at 1, readFile. rewrite Hblob.
  rewrite (decrypted_encrypted _ _ _ Hiv).
  cbn [forOf]. unfold await at 1 2, ret at 1 2 3.
  rewrite string_of_list_byte_of_string.
  rewrite (parse_stringify _ (entries_json_numberless e)).
  assert (Htruthy : JS.truthy (JSON.stringify (FSDirectory.entries_json e)) = true)
    by reflexivity.
  rewrite Htruthy.
  pose proof (assign_entries self e) as Hassign.
  unfold FSDirectory.entries_json in Hassign |- *.
  unfold ret at 1. cbv iota beta.
  rewrite Hassign. unfold ret. destruct e. reflexivity.
Qed.

End Manifest.

(** ** fsDirectory.mjs: the manifest read back *)

Lemma generatedId_truthy `{P : Platform} (d : nat) :
  JS.truthy (generatedId d) = true.
Proof.
  assert (Hin : "4"%char ∈ JS.chars (generatedId d)).
  { unfold generatedId. change "4"%char with (JS.upper "4"%char).
    apply toUpperCase_keeps, replaceAll_dash_keeps; [|done].
    apply stringify_has_version. by rewrite length_map, length_seq. }
  destruct (generatedId d); [by apply elem_of_nil in Hin | reflexivity].
Qed.

Lemma loadEntries_absent `{P : Platform} (directory : FSDirectory.t)
    (encDir pwd : string) (w : World) :
  fs w !! path_join encDir (FSDirectory.defaultFileName directory) = None ->
  FSDirectory.loadEntries directory encDir pwd w
  = Settled (directory, FSDirectory.getEntries directory) w.
Proof.
  intros Habsent.
  unfold FSDirectory.loadEntries, FSDirectory.getAesFileCryptorAndFile.
  unfold AESFileCryptor.decryptFileToJson, AESFileCryptor.decryptFileToStream.
  unfold await at 1 2 3, existsSync.
  rewrite bool_decide_eq_false_2 by (rewrite Habsent; by intros [? ?]).
  reflexivity.
Qed.

Lemma saveToFile_writes `{P : Platform} (directory : FSDirectory.t)
    (encDir pwd : string) (w : World) :
  FSDirectory.dirents directory <> [] ->
  FSDirectory.saveToFile directory encDir pwd w
  = Settled tt
      (mkWorld
         (<[path_join encDir (FSDirectory.defaultFileName directory)
            := File (AESFileCryptor.encrypted (AESFileCryptor.new pwd)
                       (map csprng (seq (drawn w) 16))
                       (list_byte_of_string
                          (JSON.stringify
                             (FSDirectory.entries_json
                                (FSDirectory.getEntries directory)))))]> (fs w))
         (journal w ++ [Wrote (path_join encDir
                                 (FSDirectory.defaultFileName directory))])
         (drawn w + 16)).
Proof.
  unfold FSDirectory.saveToFile. destruct (FSDirectory.dirents directory); [done|].
  intros _. reflexivity.
Qed.

Lemma equals_own (directory : FSDirectory.t) :
  FSDirectory.equals directory (FSDirectory.dirents directory) = true.
Proof. unfold FSDirectory.equals. by apply streq_true. Qed.

Lemma equals_nothing (directory : FSDirectory.t) :
  FSDirectory.dirents directory <> [] ->
  FSDirectory.equals directory [] = false.
Proof.
  intros Hne. unfold FSDirectory.equals. apply not_true_iff_false.
  rewrite streq_true. destruct (FSDirectory.dirents directory) as [|d ds]; [done|].
  unfold FSDirectory.dirents_json. cbn [map]. rewrite !stringify_arr.
  rewrite arr_commas_cons. destruct (map FSDirectory.dirent_json ds);
    unfold FSDirectory.dirent_json; rewrite stringify_obj; discriminate.
Qed.

Lemma getObsoleteDirents_own (directory : FSDirectory.t) :
  FSDirectory.getObsoleteDirents directory directory = [].
Proof.
  destruct (FSDirectory.getObsoleteDirents directory directory) as [|d ds] eqn:Hobs;
    [done|].
  assert (Hd : d ∈ FSDirectory.getObsoleteDirents directory directory)
    by (rewrite Hobs; left).
  apply getObsoleteDirents_spec in Hd as [Hin Hnot].
  destruct Hnot. by exists d.
Qed.

(** X17: what [saveToFile] writes, [loadEntries] reads back. A directory
    with at least one path entry is saved as one blob under the path of its
    [defaultFileName]; loading from any world that holds this blob there,
    into any directory object of the same [defaultFileName] and with the
    same password, settles and yields exactly the saved path entries and
    file objects, whatever characters the paths contain. *)
Theorem manifest_save_load_round_trip `{P : Platform} `{!PlatformLaws P}
    (directory into : FSDirectory.t) (encDir pwd : string) (w : World) :
  FSDirectory.dirents directory <> [] ->
  FSDirectory.defaultFileName into = FSDirectory.defaultFileName directory ->
  exists w1,
    FSDirectory.saveToFile directory encDir pwd w = Settled tt w1 /\
    forall w2,
      fs w2 !! path_join encDir (FSDirectory.defaultFileName directory)
      = fs w1 !! path_join encDir (FSDirectory.defaultFileName directory) ->
      FSDirectory.loadEntries into encDir pwd w2
      = Settled (directory, FSDirectory.getEntries directory) w2.
Proof.
  intros Hne Hname. eexists. split; [by apply saveToFile_writes|].
  intros w2 Hblob. cbn [fs] in Hblob. rewrite lookup_insert_eq in Hblob.
  rewrite <- Hname in Hblob.
  rewrite (loadEntries_of_saved into encDir pwd _ _ w2 ltac:(by rewrite length_map, length_seq) Hblob).
  rewrite Hname. by destruct directory.
Qed.

Lemma manifest_save_load_round_trip_witness :
  exists w1,
    FSDirectory.saveToFile (P := Sample.platform) Scenario.previous
      "C:\src\.cryptdir" "master" (mkWorld ∅ [] 0) = Settled tt w1 /\
    FSDirectory.loadEntries (P := Sample.platform)
      (FSDirectory.mk nilObjectId [] []) "C:\src\.cryptdir" "master" w1
    = Settled (Scenario.previous, FSDirectory.getEntries Scenario.previous) w1.
Proof.
  destruct (manifest_save_load_round_trip (P := Sample.platform)
              (PlatformLaws0 := Sample_laws) Scenario.previous
              (FSDirectory.mk nilObjectId [] []) "C:\src\.cryptdir" "master"
              (mkWorld ∅ [] 0))
    as (w1 & Hsave & Hload); [discriminate | reflexivity |].
  exists w1. split; [exact Hsave | apply Hload; reflexivity].
Defined.

(** ** cryptDir.mjs: a second run on an unchanged source *)

Lemma encryptDirent_first `{P : Platform} (self self' : CryptDir.t) (d : fs_Dirent)
    (currDirectory : FSDirectory.t) (w w' : World) :
  CryptDir.encryptDirent self d currDirectory w = Settled self' w' ->
  FSDirectory.files currDirectory = [] ->
  (forall f, f ∈ FSDirectory.files (CryptDir.fsDirectory self') ->
             f ∈ FSDirectory.files (CryptDir.fsDirectory self) \/
             JS.truthy (file.fileId f) = true) /\
  (forall p, is_Some (fs w !! p) -> is_Some (fs w' !! p)).
Proof.
  unfold CryptDir.encryptDirent. fold (CryptDir.getDirentFullName d).
  intros ([fileId file] & w1 & Hparams & Hrest)%await_settled Hempty.
  apply await_settled in Hrest as ([] & w2 & Hlog & Hret).
  injection Hret as <- <-.
  destruct (logDirentEncryption_run
              (CryptDir.getRelativePath self (CryptDir.getDirentFullName d))
              (isDirectory d) (fileId, file) currDirectory w1) as (logs & Hlogs & _).
  rewrite Hlogs in Hlog. injection Hlog as <-. cbn [fs].
  destruct (isDirectory d) eqn:Hdir; simpl in Hparams.
  - injection Hparams as <- <- <-. split; [|done]. intros f Hf. by left.
  - destruct (encryptFile_settled _ _ _ _ _ _ Hparams) as [content Hfile].
    destruct (FSDirectory.findFileByHash (CryptDir.fsDirectory self)
                (hex (sha256 content))) as [f0|] eqn:Hs.
    + rewrite (encryptFile_known _ _ _ _ _ _ Hfile Hs) in Hparams.
      injection Hparams as <- <- <-. split; [|done]. intros f Hf. by left.
    + assert (Hc : FSDirectory.findFileByHash currDirectory (hex (sha256 content))
                   = None)
        by (unfold FSDirectory.findFileByHash; by rewrite Hempty).
      rewrite (encryptFile_fresh _ _ _ _ _ Hfile Hs Hc) in Hparams.
      injection Hparams as <- <- <-. split.
      * cbn [CryptDir.fsDirectory FSDirectory.addEntry FSDirectory.files snd].
        intros f [Hf|Hf]%elem_of_app; [by left|]. right.
        apply list_elem_of_singleton in Hf as ->. apply generatedId_truthy.
      * cbn [fs]. intros p Hp.
        destruct (decide (CryptDir.getEncFilePath self (generatedId (drawn w)) = p))
          as [<-|Hne]; [rewrite lookup_insert_eq; eauto|].
        by rewrite lookup_insert_ne.
Qed.

Lemma encrypt_loop_first `{P : Platform} (currDirectory : FSDirectory.t)
    (ds : list fs_Dirent) :
  forall (self self' : CryptDir.t) (w w' : World),
  forOf (fun s x => CryptDir.encryptDirent s x currDirectory) ds self w
    = Settled self' w' ->
  FSDirectory.files currDirectory = [] ->
  (forall f, f ∈ FSDirectory.files (CryptDir.fsDirectory self') ->
             f ∈ FSDirectory.files (CryptDir.fsDirectory self) \/
             JS.truthy (file.fileId f) = true) /\
  (forall p, is_Some (fs w !! p) -> is_Some (fs w' !! p)).
Proof.
  induction ds as [|d ds IH]; intros self self' w w' Hrun Hempty.
  - injection Hrun as <- <-. split; [by left | done].
  - rewrite forOf_cons in Hrun.
    apply await_settled in Hrun as (self1 & w1 & Hstep & Hrest).
    destruct (encryptDirent_first _ _ _ _ _ _ Hstep Hempty) as [Hfiles1 Hgrow1].
    destruct (IH _ _ _ _ Hrest Hempty) as [Hfiles Hgrow].
    split; [|by auto].
    intros f Hf. destruct (Hfiles f Hf) as [Hf1|Ht]; [by apply Hfiles1 | by right].
Qed.

(** One turn of the loop, taken again against the directory the first run
    ended with. *)
Lemma resync_step `{P : Platform} (self self1 : CryptDir.t) (d : fs_Dirent)
    (first second : FSDirectory.t) (wa wa1 w2 : World) :
  CryptDir.encryptDirent self d first wa = Settled self1 wa1 ->
  fs w2 !! CryptDir.getDirentFullName d = fs wa !! CryptDir.getDirentFullName d ->
  (exists later, FSDirectory.files second
                 = (FSDirectory.files (CryptDir.fsDirectory self1) ++ later)%list) ->
  (exists later, FSDirectory.dirents second
                 = (FSDirectory.dirents (CryptDir.fsDirectory self1) ++ later)%list) ->
  FSDirectory.findDirent (CryptDir.fsDirectory self)
    (CryptDir.getRelativePath self (CryptDir.getDirentFullName d)) = None ->
  (forall f, f ∈ FSDirectory.files (CryptDir.fsDirectory self1) ->
             JS.truthy (file.fileId f) = true) ->
  CryptDir.encryptDirent self d second w2 = Settled self1 w2.
Proof.
  intros Hstep Hsame (laterf & Hfiles) (laterd & Hdirents) Hnew Htruthy.
  apply encryptDirent_step in Hstep
    as (fileId & file & evs & -> & _ & _ & _ & Hdir & Hfile).
  cbn [CryptDir.fsDirectory FSDirectory.addEntry FSDirectory.files
       FSDirectory.dirents] in Hfiles, Hdirents, Htruthy.
  set (rel := CryptDir.getRelativePath self (CryptDir.getDirentFullName d)) in *.
  assert (Hfound : FSDirectory.findDirent second rel
                   = Some (dirent.mk rel
                             match fileId with
                             | Some id => if JS.truthy id then Some id else None
                             | None => None
                             end)).
  { unfold FSDirectory.findDirent in *. rewrite Hdirents, <- app_assoc.
    rewrite find_app, Hnew. cbn [app JS.find dirent.path].
    by rewrite (proj2 (streq_true _ _) eq_refl). }
  assert (Hlog : forall file',
    (forall id, fileId = Some id -> JS.truthy id = true) ->
    CryptDir.logDirentEncryption rel (isDirectory d) (fileId, file') second w2
    = Settled tt w2).
  { intros file' Hid. unfold CryptDir.logDirentEncryption. rewrite Hfound.
    cbn [fst dirent.fileId].
    destruct fileId as [id|].
    - rewrite (Hid id eq_refl). by rewrite (proj2 (opteq_true _ _) eq_refl).
    - by rewrite (proj2 (opteq_true _ _) eq_refl). }
  unfold CryptDir.encryptDirent. fold (CryptDir.getDirentFullName d). fold rel.
  destruct (isDirectory d) eqn:Hd.
  - destruct (Hdir eq_refl) as [-> ->]. cbn [negb]. unfold await at 1, ret at 1.
    cbn [fst snd]. unfold await at 1. rewrite Hlog by done. reflexivity.
  - destruct (Hfile eq_refl) as (content & Hcontent & Hcase). cbn [negb].
    rewrite <- Hsame in Hcontent.
    destruct (FSDirectory.findFileByHash (CryptDir.fsDirectory self)
                (hex (sha256 content))) as [f|] eqn:Hs.
    + destruct Hcase as [-> ->].
      rewrite (await_run _ _ _ _ _ (encryptFile_known _ second _ _ _ _ Hcontent Hs)).
      cbn [fst snd]. unfold await at 1. rewrite Hlog; [reflexivity|].
      intros id [= <-]. apply Htruthy.
      by apply find_some in Hs as [? _].
    + destruct Hcase as (id & pwd & -> & ->).
      assert (Hc : FSDirectory.findFileByHash second (hex (sha256 content))
                   = Some (file.mk id (hex (sha256 content)) pwd)).
      { unfold FSDirectory.findFileByHash in *. rewrite Hfiles, <- app_assoc.
        rewrite find_app, Hs. cbn [app JS.find file.fileHash].
        by rewrite (proj2 (streq_true _ _) eq_refl). }
      rewrite (await_run _ _ _ _ _
                 (encryptFile_carried _ second _ _ _ _ Hcontent Hs Hc)).
      cbn [fst snd file.fileId file.pwd]. unfold await at 1.
      rewrite Hlog; [reflexivity|].
      intros id' [= <-].
      apply (Htruthy (file.mk id (hex (sha256 content)) pwd)).
      apply elem_of_app. right. left.
Qed.

Lemma resync_loop `{P : Platform} (first second : FSDirectory.t)
    (ds : list fs_Dirent) :
  forall (self self' : CryptDir.t) (wa wb w2 : World),
  forOf (fun s x => CryptDir.encryptDirent s x first) ds self wa
    = Settled self' wb ->
  (forall d n, d ∈ ds ->
                CryptDir.getDirentFullName d
                <> CryptDir.getEncFilePath self (generatedId n)) ->
  (forall d, d ∈ ds ->
             fs w2 !! CryptDir.getDirentFullName d
             = fs wa !! CryptDir.getDirentFullName d) ->
  FSDirectory.files second = FSDirectory.files (CryptDir.fsDirectory self') ->
  FSDirectory.dirents second = FSDirectory.dirents (CryptDir.fsDirectory self') ->
  NoDup (map dirent.path (FSDirectory.dirents (CryptDir.fsDirectory self))
         ++ map (fun d => CryptDir.getRelativePath self
                            (CryptDir.getDirentFullName d)) ds) ->
  (forall f, f ∈ FSDirectory.files (CryptDir.fsDirectory self') ->
             JS.truthy (file.fileId f) = true) ->
  forOf (fun s x => CryptDir.encryptDirent s x second) ds self w2
    = Settled self' w2.
Proof.
  induction ds as [|d ds IH];
    intros self self' wa wb w2 Hrun Hsep Hsame Hfiles Hdirents Hnodup Htruthy.
  - by injection Hrun as <- <-.
  - rewrite forOf_cons in Hrun.
    apply await_settled in Hrun as (self1 & wa1 & Hstep & Hrest).
    pose proof (encryptDirent_summary _ _ _ _ _ _ Hstep)
      as (Hsrc1 & Henc1 & _ & (e & Hd1 & Hpath & _) & _ & _ & _ & Hframe1).
    pose proof (encrypt_loop _ _ _ _ _ _ Hrest)
      as (_ & _ & _ & (addedd & Hdd & _) & (addedf & Hff) & _).
    rewrite forOf_cons.
    assert (Hturn : CryptDir.encryptDirent self d second w2 = Settled self1 w2).
    { apply (resync_step self self1 d first second wa wa1 w2 Hstep).
      - apply Hsame. left.
      - exists addedf. by rewrite Hfiles.
      - exists addedd. by rewrite Hdirents.
      - unfold FSDirectory.findDirent. apply find_none. intros x Hx.
        apply not_true_iff_false. rewrite streq_true. intros Heq.
        cbn [map] in Hnodup. apply NoDup_app in Hnodup as (_ & Hdisj & _).
        apply (Hdisj (dirent.path x)); [by apply list_elem_of_fmap_2|].
        rewrite Heq. left.
      - intros f Hf. apply Htruthy. rewrite Hff. apply elem_of_app. by left. }
    rewrite (await_run _ _ _ _ _ Hturn).
    apply (IH self1 self' wa1 wb w2 Hrest).
    + intros d0 id Hd0. unfold CryptDir.getEncFilePath. rewrite Henc1.
      apply Hsep. by right.
    + intros d0 Hd0. rewrite Hsame by (by right). symmetry. apply Hframe1.
      intros id. apply Hsep. by right.
    + exact Hfiles.
    + exact Hdirents.
    + rewrite Hd1, map_app. cbn [map]. rewrite Hpath, <- app_assoc. cbn [app].
      cbn [map] in Hnodup.
      replace (map (fun d0 => CryptDir.getRelativePath self1
                                (CryptDir.getDirentFullName d0)) ds)
        with (map (fun d0 => CryptDir.getRelativePath self
                               (CryptDir.getDirentFullName d0)) ds); [exact Hnodup|].
      apply map_ext. intros d0. unfold CryptDir.getRelativePath. by rewrite Hsrc1.
    + exact Htruthy.
Qed.

(** X18: running [encrypt] again on an unchanged source changes nothing.
    After a first run of a new [CryptDir] on a store without manifest, for a
    listing with at least one entry and distinct relative paths, a second
    run that sees the same listing ends with the same session manifest in
    exactly the same world: no blob and no manifest is written, nothing is
    removed, no random byte is drawn and not a line is logged. The store
    keeps its objects, which are named by object identifiers, under paths
    that start with the store directory. *)
Theorem encrypt_again_changes_nothing `{P : Platform} `{!PlatformLaws P}
    (self self1 : CryptDir.t) (masterPwd : string) (w w1 : World)
    (ds : list fs_Dirent) :
  CryptDir.fsDirectory self = FSDirectory.mk nilObjectId [] [] ->
  fs w !! CryptDir.getEncFilePath self nilObjectId = None ->
  (forall id, objectId id ->
              JS.startsWith (CryptDir.getEncFilePath self id)
                            (CryptDir.encDir self) = true) ->
  ds <> [] ->
  CryptDir.getSrcDirents self w = Settled (Some ds) w ->
  CryptDir.getSrcDirents self w1 = Settled (Some ds) w1 ->
  NoDup (map (fun d => CryptDir.getRelativePath self
                         (CryptDir.getDirentFullName d)) ds) ->
  CryptDir.encrypt self masterPwd w = Settled self1 w1 ->
  CryptDir.encrypt self masterPwd w1 = Settled self1 w1.
Proof.
  intros Hfresh Hnone Hstore Hne Hlisting Hlisting1 Hnodup Hrun.
  assert (Hload0 :
    FSDirectory.loadEntries (FSDirectory.mk nilObjectId [] [])
      (CryptDir.encDir self) masterPwd w
    = Settled (FSDirectory.mk nilObjectId [] [], FSDirectory.mkEntries [] []) w)
    by (by apply loadEntries_absent).
  apply encrypt_settled in Hrun
    as (previous & entries & listing & Hload & Hlisting' & Hcase).
  rewrite Hload0 in Hload. injection Hload as <- <-.
  rewrite Hlisting in Hlisting'. injection Hlisting' as <-.
  destruct ds as [|d ds]; [done|].
  destruct Hcase as (made & wa & wb & wc & Hmk & Hloop & Hrm & Hsave).
  (* the first run *)
  assert (Hdir : is_Some (fs wa !! CryptDir.encDir self)).
  { destruct (mkdirSyncWithCheck_run (CryptDir.encDir self) w)
      as (made' & evs & Hmk' & _).
    rewrite Hmk' in Hmk. injection Hmk as <- <-. cbn [fs].
    destruct made' eqn:Hmade; [rewrite lookup_insert_eq; eauto|].
    unfold CryptDir.mkdirSyncWithCheck, await, existsSync in Hmk'.
    case_bool_decide as Hex; [done|]. discriminate. }
  assert (Hwa : forall p, p <> CryptDir.encDir self -> fs wa !! p = fs w !! p).
  { intros p Hp.
    destruct (mkdirSyncWithCheck_run (CryptDir.encDir self) w)
      as (made' & evs & Hmk' & _).
    rewrite Hmk' in Hmk. injection Hmk as <- <-. cbn [fs].
    destruct made'; [by rewrite lookup_insert_ne | done]. }
  pose proof (encrypt_loop _ _ _ _ _ _ Hloop)
    as (Hsrc & Henc & Hname & (added & Hdd & Hlen) & (addedf & Hff) & _ & _
        & Hframe & _).
  rewrite Hfresh in Hname, Hdd, Hff. cbn in Hname, Hdd, Hff.
  destruct (encrypt_loop_first _ _ _ _ _ _ Hloop eq_refl) as [Htruthy Hgrow].
  assert (Hwc : wc = wb).
  { unfold CryptDir.removeObsoleteDirents, FSDirectory.getObsoleteDirents in Hrm.
    cbn in Hrm. by injection Hrm as <-. }
  subst wc.
  assert (Hdirents : FSDirectory.dirents (CryptDir.fsDirectory self1) <> []).
  { rewrite Hdd. destruct added; [discriminate | done]. }
  cbn [FSDirectory.e_dirents] in Hsave.
  rewrite (equals_nothing _ Hdirents) in Hsave.
  rewrite (saveToFile_writes _ _ _ _ Hdirents) in Hsave.
  rewrite Hname in Hsave. injection Hsave as Hw1.
  set (manifest := path_join (CryptDir.encDir self) nilObjectId) in *.
  (* the second run *)
  assert (Hload1 :
    FSDirectory.loadEntries (FSDirectory.mk nilObjectId [] [])
      (CryptDir.encDir self) masterPwd w1
    = Settled (CryptDir.fsDirectory self1,
               FSDirectory.getEntries (CryptDir.fsDirectory self1)) w1).
  { rewrite (loadEntries_of_saved (FSDirectory.mk nilObjectId [] [])
               (CryptDir.encDir self) masterPwd
               (map csprng (seq (drawn wb) 16))
               (FSDirectory.getEntries (CryptDir.fsDirectory self1)) w1).
    - f_equal. f_equal. destruct (CryptDir.fsDirectory self1). cbn in Hname.
      by subst.
    - by rewrite length_map, length_seq.
    - rewrite <- Hw1. cbn [fs FSDirectory.defaultFileName]. apply lookup_insert_eq. }
  rewrite (encrypt_after_load _ _ _ _ _ _ Hload1).
  rewrite (await_run _ _ _ _ _ Hlisting1).
  assert (Hmk1 : CryptDir.mkdirSyncWithCheck (CryptDir.encDir self) w1
                 = Settled false w1).
  { unfold CryptDir.mkdirSyncWithCheck, await, existsSync.
    rewrite bool_decide_eq_true_2; [reflexivity|].
    rewrite <- Hw1. cbn [fs].
    destruct (decide (manifest = CryptDir.encDir self)) as [->|Hneq];
      [rewrite lookup_insert_eq; eauto|].
    rewrite lookup_insert_ne by done. by apply Hgrow. }
  rewrite (await_run _ _ _ _ _ Hmk1).
  assert (Houtside : forall d0 id, objectId id -> d0 ∈ d :: ds ->
            CryptDir.getDirentFullName d0 <> CryptDir.getEncFilePath self id).
  { intros d0 id Hid Hd0 Heq.
    pose proof (getSrcDirents_outside_store _ _ _ _ Hlisting Hd0) as Hout.
    rewrite Heq, (Hstore id Hid) in Hout. discriminate. }
  assert (Hloop1 :
    forOf (fun s x => CryptDir.encryptDirent s x (CryptDir.fsDirectory self1))
      (d :: ds) self w1 = Settled self1 w1).
  { apply (resync_loop (FSDirectory.mk nilObjectId [] [])
             (CryptDir.fsDirectory self1) (d :: ds) self self1 wa wb w1 Hloop).
    - intros d0 n Hd0. by apply Houtside; [apply generatedId_objectId|].
    - intros d0 Hd0. rewrite <- Hw1. cbn [fs].
      rewrite lookup_insert_ne
        by (intros Heq;
            by apply (Houtside d0 nilObjectId nilObjectId_objectId Hd0)).
      apply Hframe. intros n. by apply Houtside; [apply generatedId_objectId|].
    - reflexivity.
    - reflexivity.
    - by rewrite Hfresh.
    - intros f Hf. destruct (Htruthy f Hf) as [Hold|Ht]; [|done].
      rewrite Hfresh in Hold. by apply elem_of_nil in Hold. }
  rewrite (await_run _ _ _ _ _ Hloop1).
  unfold CryptDir.removeObsoleteDirents. rewrite getObsoleteDirents_own.
  cbn [forOf]. unfold await at 1, ret at 1.
  cbn [FSDirectory.e_dirents FSDirectory.getEntries]. rewrite equals_own.
  reflexivity.
Qed.

(** The sample tree, synchronised once and then again. *)
Lemma encrypt_again_changes_nothing_witness :
  exists self1,
    CryptDir.encrypt (P := Sample.platform) Scenario.cryptDir "master" Sample.tree
    = Settled self1 Scenario.synced /\
    CryptDir.encrypt (P := Sample.platform) Scenario.cryptDir "master"
      Scenario.synced
    = Settled self1 Scenario.synced.
Proof.
  assert (Hrun : exists self1,
    CryptDir.encrypt (P := Sample.platform) Scenario.cryptDir "master" Sample.tree
    = Settled self1 Scenario.synced) by (eexists; vm_compute; reflexivity).
  destruct Hrun as (self1 & Hrun).
  exists self1. split; [exact Hrun|].
  apply (encrypt_again_changes_nothing (P := Sample.platform)
           (PlatformLaws0 := Sample_laws) Scenario.cryptDir self1 "master"
           Sample.tree Scenario.synced
           [mkDirent "a.txt" "C:\src" false; mkDirent "b.txt" "C:\src" false;
            mkDirent "c.txt" "C:\src" false]).
  - reflexivity.
  - vm_compute. reflexivity.
  - intros id _. reflexivity.
  - discriminate.
  - vm_compute. reflexivity.
  - vm_compute. reflexivity.
  - refine (bool_decide_unpack _ _). vm_compute. exact I.
  - exact Hrun.
Defined.

(** ** cryptDir.mjs: runs that find nothing to work on *)

(** X19: when nothing exists at the source directory, [encrypt] only logs
    that the source directory is invalid: the store, and the manifest in it,
    stay as they are (an empty source directory, by contrast, removes the
    store), the session manifest is unchanged and no random byte is drawn. *)
Theorem encrypt_missing_source_only_logs `{P : Platform} (self : CryptDir.t)
    (masterPwd : string) (previous : FSDirectory.t)
    (entries : FSDirectory.entries) (w w0 : World) :
  FSDirectory.loadEntries (FSDirectory.mk nilObjectId [] [])
    (CryptDir.encDir self) masterPwd w = Settled (previous, entries) w0 ->
  fs w !! CryptDir.srcDir self = None ->
  CryptDir.encrypt self masterPwd w
  = Settled self
      (mkWorld (fs w)
         (journal w ++ [Logged ("Invalid source directory '"
                                +:+ CryptDir.srcDir self +:+ "'")])
         (drawn w)).
Proof.
  intros Hload Hsrc. rewrite (encrypt_after_load _ _ _ _ _ _ Hload).
  unfold CryptDir.getSrcDirents. unfold await at 1 2, existsSync.
  rewrite bool_decide_eq_false_2 by (rewrite Hsrc; by intros [? ?]).
  reflexivity.
Qed.

Lemma encrypt_missing_source_only_logs_witness :
  CryptDir.encrypt (P := Sample.platform)
    (CryptDir.mk "C:\gone" "C:\src\.cryptdir" (FSDirectory.mk nilObjectId [] []))
    "master" Scenario.synced
  = Settled
      (CryptDir.mk "C:\gone" "C:\src\.cryptdir" (FSDirectory.mk nilObjectId [] []))
      (mkWorld (fs Scenario.synced)
         (journal Scenario.synced ++ [Logged "Invalid source directory 'C:\gone'"])
         (drawn Scenario.synced)).
Proof.
  assert (Hload : exists previous entries,
    FSDirectory.loadEntries (P := Sample.platform)
      (FSDirectory.mk nilObjectId [] []) "C:\src\.cryptdir" "master"
      Scenario.synced = Settled (previous, entries) Scenario.synced)
    by (eexists _, _; vm_compute; reflexivity).
  destruct Hload as (previous & entries & Hload).
  apply (encrypt_missing_source_only_logs (P := Sample.platform)
           (CryptDir.mk "C:\gone" "C:\src\.cryptdir"
              (FSDirectory.mk nilObjectId [] []))
           "master" previous entries Scenario.synced Scenario.synced Hload).
  vm_compute. reflexivity.
Defined.

(** X20: [decrypt] on a store without manifest restores nothing and does
    not fail: a [CryptDir] whose session has no path entry settles with the
    world and the session as they were. *)
Theorem decrypt_without_manifest_does_nothing `{P : Platform} (self : CryptDir.t)
    (masterPwd : string) (w : World) :
  fs w !! CryptDir.getEncFilePath self
            (FSDirectory.defaultFileName (CryptDir.fsDirectory self)) = None ->
  FSDirectory.dirents (CryptDir.fsDirectory self) = [] ->
  CryptDir.decrypt self masterPwd w = Settled self w.
Proof.
  intros Habsent Hempty. unfold CryptDir.decrypt, CryptDir.loadDecEntries.
  unfold await at 1. unfold await at 1.
  rewrite (loadEntries_absent _ _ _ _ Habsent).
  unfold ret at 1. cbn [fst snd FSDirectory.getEntries FSDirectory.e_dirents].
  rewrite Hempty. cbn [forOf]. unfold await, ret. by destruct self.
Qed.

Lemma decrypt_without_manifest_does_nothing_witness :
  CryptDir.decrypt (P := Sample.platform) Scenario.cryptDir "master" Sample.tree
  = Settled Scenario.cryptDir Sample.tree.
Proof.
  apply (decrypt_without_manifest_does_nothing (P := Sample.platform)
           Scenario.cryptDir "master" Sample.tree); reflexivity.
Defined.

(** ** cryptDir.mjs: a tree encrypted and restored *)

Lemma decryptDirent_makes_directory `{P : Platform} (self : CryptDir.t)
    (d : dirent.t) (w : World) :
  dirent.fileId d = None ->
  fs w !! path_join (CryptDir.srcDir self) (dirent.path d) = None ->
  exists evs,
    CryptDir.decryptDirent self d w
    = Settled tt
        (mkWorld (<[path_join (CryptDir.srcDir self) (dirent.path d) := Directory]>
                    (fs w))
                 (journal w ++ evs) (drawn w)).
Proof.
  intros Hid Hnone. unfold CryptDir.decryptDirent. unfold await at 1, existsSync.
  rewrite Hid.
  rewrite bool_decide_eq_false_2 by (rewrite Hnone; by intros [? ?]).
  cbn [negb]. unfold await, mkdirSync, log, record. cbn [fs journal drawn].
  eexists [_; _]. by rewrite <- app_assoc.
Qed.

Lemma decryptDirent_writes_content `{P : Platform} `{!PlatformLaws P}
    (self : CryptDir.t) (d : dirent.t) (id : string) (f : file.t)
    (iv content : list byte) (w : World) :
  dirent.fileId d = Some id -> JS.truthy id = true ->
  FSDirectory.findFileById (CryptDir.fsDirectory self) id = Some f ->
  length iv = 16%nat ->
  fs w !! CryptDir.getEncFilePath self (file.fileId f)
  = Some (File (AESFileCryptor.encrypted
                  (AESFileCryptor.new (file.pwd f)) iv content)) ->
  CryptDir.getEncFilePath self (file.fileId f)
  <> path_join (CryptDir.srcDir self) (dirent.path d) ->
  fs w !! path_join (CryptDir.srcDir self) (dirent.path d) = None ->
  exists evs,
    CryptDir.decryptDirent self d w
    = Settled tt
        (mkWorld
           (<[path_join (CryptDir.srcDir self) (dirent.path d) := File content]>
              (fs w))
           (journal w ++ evs) (drawn w)).
Proof.
  intros Hid Htruthy Hfind Hiv Hblob Hne Hnone.
  unfold CryptDir.decryptDirent.
  unfold await at 1, existsSync. rewrite Hid, Htruthy, Hfind.
  rewrite bool_decide_eq_false_2 by (rewrite Hnone; by intros [? ?]).
  unfold CryptDir.decryptFile. cbn [negb]. unfold await at 1, ret at 1.
  unfold CryptDir.getAesFileCryptorByPwd.
  rewrite (await_run _ _ _ _ _
             (decryptFileToFile_restores _ _ _ _ _ _ Hiv Hblob Hne)).
  unfold log, record. cbn [fs journal drawn]. eexists [_; _; _].
  by rewrite <- app_assoc.
Qed.

Lemma decrypt_loop_restores `{P : Platform} `{!PlatformLaws P}
    (self : CryptDir.t) (es : list dirent.t) :
  forall w : World,
  NoDup (map (fun e => path_join (CryptDir.srcDir self) (dirent.path e)) es) ->
  (forall e, e ∈ es ->
             fs w !! path_join (CryptDir.srcDir self) (dirent.path e) = None) ->
  (forall e id f, e ∈ es ->
                  FSDirectory.findFileById (CryptDir.fsDirectory self) id = Some f ->
                  path_join (CryptDir.srcDir self) (dirent.path e)
                  <> CryptDir.getEncFilePath self (file.fileId f)) ->
  (forall e id, e ∈ es -> dirent.fileId e = Some id ->
     JS.truthy id = true /\
     exists f iv c,
       FSDirectory.findFileById (CryptDir.fsDirectory self) id = Some f /\
       length iv = 16%nat /\
       fs w !! CryptDir.getEncFilePath self (file.fileId f)
       = Some (File (AESFileCryptor.encrypted
                       (AESFileCryptor.new (file.pwd f)) iv c))) ->
  exists w',
    forOf (fun _ e => CryptDir.decryptDirent self e) es tt w = Settled tt w' /\
    drawn w' = drawn w /\
    (forall p, (forall e, e ∈ es ->
                          p <> path_join (CryptDir.srcDir self) (dirent.path e)) ->
               fs w' !! p = fs w !! p) /\
    (forall e, e ∈ es -> dirent.fileId e = None ->
               fs w' !! path_join (CryptDir.srcDir self) (dirent.path e)
               = Some Directory) /\
    (forall e id f iv c,
        e ∈ es -> dirent.fileId e = Some id ->
        FSDirectory.findFileById (CryptDir.fsDirectory self) id = Some f ->
        length iv = 16%nat ->
        fs w !! CryptDir.getEncFilePath self (file.fileId f)
        = Some (File (AESFileCryptor.encrypted
                        (AESFileCryptor.new (file.pwd f)) iv c)) ->
        fs w' !! path_join (CryptDir.srcDir self) (dirent.path e) = Some (File c)).
Proof.
  induction es as [|e es IH]; intros w Hnodup Hnone Hout Hblobs.
  - exists w. split; [reflexivity|]. split; [done|]. split; [done|].
    split; intros e0; intros; by apply elem_of_nil in H.
  - set (dest := fun e0 => path_join (CryptDir.srcDir self) (dirent.path e0)) in *.
    cbn [map] in Hnodup. apply NoDup_cons in Hnodup as [Hfresh Hnodup].
    assert (Hstep : exists node evs,
      CryptDir.decryptDirent self e w
      = Settled tt (mkWorld (<[dest e := node]> (fs w)) (journal w ++ evs) (drawn w)) /\
      (dirent.fileId e = None -> node = Directory) /\
      (forall id f iv c,
          dirent.fileId e = Some id ->
          FSDirectory.findFileById (CryptDir.fsDirectory self) id = Some f ->
          length iv = 16%nat ->
          fs w !! CryptDir.getEncFilePath self (file.fileId f)
          = Some (File (AESFileCryptor.encrypted
                          (AESFileCryptor.new (file.pwd f)) iv c)) ->
          node = File c)).
    { destruct (dirent.fileId e) as [id|] eqn:Hid.
      - destruct (Hblobs e id) as (Htruthy & f & iv & c & Hfind & Hiv & Hblob);
          [left | done |].
        destruct (decryptDirent_writes_content self e id f iv c w)
          as (evs & Hrun); try done.
        { intros Heq. by apply (Hout e id f); [left | |]. }
        { apply Hnone. left. }
        exists (File c), evs. split; [exact Hrun|]. split; [done|].
        intros id' f' iv' c' [= <-] Hfind' Hiv' Hblob'.
        rewrite Hfind in Hfind'. injection Hfind' as <-.
        rewrite Hblob in Hblob'. injection Hblob' as Hsame.
        pose proof (decrypted_encrypted (AESFileCryptor.new (file.pwd f)) iv c Hiv)
          as H1.
        pose proof (decrypted_encrypted (AESFileCryptor.new (file.pwd f)) iv' c' Hiv')
          as H2.
        rewrite Hsame in H1. rewrite H1 in H2. by injection H2 as ->.
      - destruct (decryptDirent_makes_directory self e w Hid) as (evs & Hrun);
          [apply Hnone; left|].
        exists Directory, evs. split; [exact Hrun|]. split; [done|].
        intros; discriminate. }
    destruct Hstep as (node & evs & Hrun & Hdir & Hfile).
    set (w1 := mkWorld (<[dest e := node]> (fs w)) (journal w ++ evs) (drawn w)) in *.
    assert (Hkeep : forall e0, e0 ∈ es -> dest e0 <> dest e).
    { intros e0 He0 Heq. apply Hfresh. rewrite <- Heq.
      by apply (list_elem_of_fmap_2 dest). }
    destruct (IH w1) as (w' & Hloop & Hdrawn & Hframe & Hdirs & Hfiles).
    + exact Hnodup.
    + intros e0 He0. unfold w1. cbn [fs].
      rewrite lookup_insert_ne by (intros Heq; by apply (Hkeep e0 He0)).
      apply Hnone. by right.
    + intros e0 id f He0. apply Hout. by right.
    + intros e0 id He0 Hid0.
      destruct (Hblobs e0 id) as (Htruthy & f & iv & c & Hfind & Hiv & Hblob);
        [by right | done |].
      split; [done|]. exists f, iv, c. split; [done|]. split; [done|].
      unfold w1. cbn [fs]. rewrite lookup_insert_ne; [done|].
      apply (Hout e id f); [left | exact Hfind].
    + exists w'. split; [rewrite forOf_cons; by rewrite (await_run _ _ _ _ _ Hrun)|].
      split; [done|]. split; [|split].
      * intros p Hp. rewrite Hframe by (intros e0 He0; apply Hp; by right).
        unfold w1. cbn [fs]. rewrite lookup_insert_ne; [done|].
        intros Heq. apply (Hp e); [left | done].
      * intros e0 [->|He0]%elem_of_cons Hid0.
        -- rewrite Hframe.
           ++ unfold w1. cbn [fs]. rewrite lookup_insert_eq. by rewrite Hdir.
           ++ intros e1 He1 Heq. by apply (Hkeep e1 He1).
        -- by apply Hdirs.
      * intros e0 id f iv c [->|He0]%elem_of_cons Hid0 Hfind Hiv Hblob.
        -- rewrite Hframe.
           ++ unfold w1. cbn [fs]. rewrite lookup_insert_eq.
              by rewrite (Hfile id f iv c).
           ++ intros e1 He1 Heq. by apply (Hkeep e1 He1).
        -- apply (Hfiles e0 id f iv c He0 Hid0 Hfind Hiv).
           unfold w1. cbn [fs]. rewrite lookup_insert_ne; [done|].
           apply (Hout e id f); [left | exact Hfind].
Qed.

Lemma encryptDirent_stores `{P : Platform} (listed : list byte -> Prop)
    (self self' : CryptDir.t) (d : fs_Dirent) (currDirectory : FSDirectory.t)
    (w w' : World) :
  CryptDir.encryptDirent self d currDirectory w = Settled self' w' ->
  FSDirectory.files currDirectory = [] ->
  (forall id id', objectId id -> objectId id' ->
                  CryptDir.getEncFilePath self id = CryptDir.getEncFilePath self id' ->
                  id = id') ->
  NoDup (map file.fileId (FSDirectory.files (CryptDir.fsDirectory self'))) ->
  (forall c, isDirectory d = false ->
             fs w !! CryptDir.getDirentFullName d = Some (File c) -> listed c) ->
  (forall f, f ∈ FSDirectory.files (CryptDir.fsDirectory self) ->
             stored self w listed f) ->
  (forall f, f ∈ FSDirectory.files (CryptDir.fsDirectory self') ->
             stored self w' listed f) /\
  (forall e id, e ∈ FSDirectory.dirents (CryptDir.fsDirectory self') ->
                e ∉ FSDirectory.dirents (CryptDir.fsDirectory self) ->
                dirent.fileId e = Some id -> JS.truthy id = true).
Proof.
  unfold CryptDir.encryptDirent. fold (CryptDir.getDirentFullName d).
  intros ([fileId file] & w1 & Hparams & Hrest)%await_settled Hempty Hinj Hids
    Hlisted Hinv.
  apply await_settled in Hrest as ([] & w2 & Hlog & Hret).
  injection Hret as <- <-.
  destruct (logDirentEncryption_run
              (CryptDir.getRelativePath self (CryptDir.getDirentFullName d))
              (isDirectory d) (fileId, file) currDirectory w1) as (logs & Hlogs & _).
  rewrite Hlogs in Hlog. injection Hlog as <-.
  cbn [CryptDir.fsDirectory FSDirectory.addEntry FSDirectory.files
       FSDirectory.dirents fst snd] in *.
  assert (Hrecorded : forall e id,
    e ∈ (FSDirectory.dirents (CryptDir.fsDirectory self) ++
           [dirent.mk (CryptDir.getRelativePath self (CryptDir.getDirentFullName d))
              match fileId with
              | Some id => if JS.truthy id then Some id else None
              | None => None
              end])%list ->
    e ∉ FSDirectory.dirents (CryptDir.fsDirectory self) ->
    dirent.fileId e = Some id -> JS.truthy id = true).
  { intros e id [He|He]%elem_of_app Hnew Hid; [done|].
    apply list_elem_of_singleton in He as ->. cbn [dirent.fileId] in Hid.
    destruct fileId as [id0|]; [|discriminate].
    destruct (JS.truthy id0) eqn:Ht; [|discriminate]. by injection Hid as <-. }
  split; [|exact Hrecorded].
  destruct (isDirectory d) eqn:Hdir; simpl in Hparams.
  - injection Hparams as <- <- <-. exact Hinv.
  - destruct (encryptFile_settled _ _ _ _ _ _ Hparams) as [content Hfile].
    destruct (FSDirectory.findFileByHash (CryptDir.fsDirectory self)
                (hex (sha256 content))) as [f0|] eqn:Hs.
    + rewrite (encryptFile_known _ _ _ _ _ _ Hfile Hs) in Hparams.
      injection Hparams as <- <- <-. exact Hinv.
    + assert (Hc : FSDirectory.findFileByHash currDirectory (hex (sha256 content))
                   = None)
        by (unfold FSDirectory.findFileByHash; by rewrite Hempty).
      rewrite (encryptFile_fresh _ _ _ _ _ Hfile Hs Hc) in Hparams.
      injection Hparams as <- <- <-.
      cbn [FSDirectory.files] in Hids. rewrite map_app in Hids.
      apply NoDup_app in Hids as (_ & Hdisj & _).
      intros f [Hf|Hf]%elem_of_app.
      * destruct (Hinv f Hf) as (Hobj & Hnil & iv & c & Hiv & Hblob & Hhash & Hc').
        split; [done|]. split; [done|].
        exists iv, c. split; [done|]. split; [|done].
        unfold CryptDir.getEncFilePath in *. cbn [CryptDir.encDir fs].
        rewrite lookup_insert_ne; [done|].
        intros Heq. apply Hinj in Heq; [|apply generatedId_objectId | exact Hobj].
        apply (Hdisj (file.fileId f)); [by apply list_elem_of_fmap_2|].
        rewrite <- Heq. left.
      * apply list_elem_of_singleton in Hf as ->.
        split; [apply generatedId_objectId|].
        split; [apply generatedId_not_nil|].
        eexists _, content. split; [|split; [|split; [reflexivity|]]].
        -- by rewrite length_map, length_seq.
        -- unfold CryptDir.getEncFilePath. cbn [CryptDir.encDir fs file.fileId file.pwd].
           apply lookup_insert_eq.
        -- by apply Hlisted.
Qed.

Lemma encrypt_loop_stores `{P : Platform} (listed : list byte -> Prop)
    (currDirectory : FSDirectory.t) (ds : list fs_Dirent) :
  forall (self self' : CryptDir.t) (w w' : World),
  forOf (fun s x => CryptDir.encryptDirent s x currDirectory) ds self w
    = Settled self' w' ->
  FSDirectory.files currDirectory = [] ->
  (forall id id', objectId id -> objectId id' ->
                  CryptDir.getEncFilePath self id = CryptDir.getEncFilePath self id' ->
                  id = id') ->
  NoDup (map file.fileId (FSDirectory.files (CryptDir.fsDirectory self'))) ->
  (forall d n, d ∈ ds ->
                CryptDir.getDirentFullName d
                <> CryptDir.getEncFilePath self (generatedId n)) ->
  (forall d c, d ∈ ds -> isDirectory d = false ->
               fs w !! CryptDir.getDirentFullName d = Some (File c) -> listed c) ->
  (forall f, f ∈ FSDirectory.files (CryptDir.fsDirectory self) ->
             stored self w listed f) ->
  (forall e id, e ∈ FSDirectory.dirents (CryptDir.fsDirectory self) ->
                dirent.fileId e = Some id -> JS.truthy id = true) ->
  (forall f, f ∈ FSDirectory.files (CryptDir.fsDirectory self') ->
             stored self w' listed f) /\
  (forall e id, e ∈ FSDirectory.dirents (CryptDir.fsDirectory self') ->
                dirent.fileId e = Some id -> JS.truthy id = true).
Proof.
  induction ds as [|d ds IH];
    intros self self' w w' Hrun Hempty Hinj Hids Hout Hlisted Hinv Hrec.
  - injection Hrun as <- <-. by split.
  - rewrite forOf_cons in Hrun.
    apply await_settled in Hrun as (self1 & w1 & Hstep & Hrest).
    pose proof (encryptDirent_summary _ _ _ _ _ _ Hstep)
      as (_ & Henc1 & _ & _ & _ & _ & _ & Hframe1).
    pose proof (encrypt_loop _ _ _ _ _ _ Hrest)
      as (_ & _ & _ & _ & (addedf & Hff) & _).
    assert (Hpaths : forall id, CryptDir.getEncFilePath self1 id
                                = CryptDir.getEncFilePath self id).
    { intros id. unfold CryptDir.getEncFilePath. by rewrite Henc1. }
    assert (Hids1 : NoDup (map file.fileId
                             (FSDirectory.files (CryptDir.fsDirectory self1)))).
    { rewrite Hff, map_app in Hids. by apply NoDup_app in Hids as (? & _). }
    destruct (encryptDirent_stores listed _ _ _ _ _ _ Hstep Hempty Hinj Hids1)
      as [Hinv1 Hrec1]; [intros c; apply Hlisted; left | exact Hinv |].
    assert (Hsame : forall f, stored self1 w' listed f <-> stored self w' listed f).
    { intros f. unfold stored. by rewrite Hpaths. }
    destruct (IH self1 self' w1 w' Hrest Hempty) as [Hinv' Hrec'].
    + intros id id' Hid Hid'. rewrite !Hpaths. by apply Hinj.
    + exact Hids.
    + intros d0 n Hd0. rewrite Hpaths. apply Hout. by right.
    + intros d0 c Hd0 Hdir Hc. apply (Hlisted d0 c); [by right | done |].
      rewrite <- Hc. symmetry. apply Hframe1. intros id. apply Hout. by right.
    + intros f Hf. unfold stored. rewrite Hpaths. by apply Hinv1.
    + intros e id He Hid.
      destruct (decide (e ∈ FSDirectory.dirents (CryptDir.fsDirectory self)))
        as [Hold|Hnew]; [by apply (Hrec e) | by apply (Hrec1 e)].
    + split; [|exact Hrec']. intros f Hf. apply Hsame. by apply Hinv'.
Qed.

Lemma nodup_key {A B : Type} (key : A -> B) (l : list A) (x y : A) :
  NoDup (map key l) -> x ∈ l -> y ∈ l -> key x = key y -> x = y.
Proof.
  induction l as [|a l IH]; intros Hnodup Hx Hy Hkey; [by apply elem_of_nil in Hx|].
  cbn [map] in Hnodup. apply NoDup_cons in Hnodup as [Ha Hnodup].
  apply elem_of_cons in Hx as [->|Hx]; apply elem_of_cons in Hy as [->|Hy].
  - done.
  - destruct Ha. rewrite Hkey. by apply (list_elem_of_fmap_2 key).
  - destruct Ha. rewrite <- Hkey. by apply (list_elem_of_fmap_2 key).
  - by apply IH.
Qed.

Lemma first_encrypt `{P : Platform} (self self1 : CryptDir.t)
    (masterPwd : string) (w w1 : World) (ds : list fs_Dirent) :
  CryptDir.fsDirectory self = FSDirectory.mk nilObjectId [] [] ->
  fs w !! CryptDir.getEncFilePath self nilObjectId = None ->
  ds <> [] ->
  CryptDir.getSrcDirents self w = Settled (Some ds) w ->
  CryptDir.encrypt self masterPwd w = Settled self1 w1 ->
  exists wa wb,
    (forall p, p <> CryptDir.encDir self -> fs wa !! p = fs w !! p) /\
    is_Some (fs wa !! CryptDir.encDir self) /\
    forOf (fun s x => CryptDir.encryptDirent s x (FSDirectory.mk nilObjectId [] []))
      ds self wa = Settled self1 wb /\
    FSDirectory.dirents (CryptDir.fsDirectory self1) <> [] /\
    FSDirectory.defaultFileName (CryptDir.fsDirectory self1) = nilObjectId /\
    w1 = mkWorld
           (<[CryptDir.getEncFilePath self nilObjectId
              := File (AESFileCryptor.encrypted (AESFileCryptor.new masterPwd)
                         (map csprng (seq (drawn wb) 16))
                         (list_byte_of_string
                            (JSON.stringify
                               (FSDirectory.entries_json
                                  (FSDirectory.getEntries
                                     (CryptDir.fsDirectory self1))))))]> (fs wb))
           (journal wb ++ [Wrote (CryptDir.getEncFilePath self nilObjectId)])
           (drawn wb + 16).
Proof.
  intros Hfresh Hnone Hne Hlisting Hrun.
  assert (Hload0 :
    FSDirectory.loadEntries (FSDirectory.mk nilObjectId [] [])
      (CryptDir.encDir self) masterPwd w
    = Settled (FSDirectory.mk nilObjectId [] [], FSDirectory.mkEntries [] []) w)
    by (by apply loadEntries_absent).
  apply encrypt_settled in Hrun
    as (previous & entries & listing & Hload & Hlisting' & Hcase).
  rewrite Hload0 in Hload. injection Hload as <- <-.
  rewrite Hlisting in Hlisting'. injection Hlisting' as <-.
  destruct ds as [|d ds]; [done|].
  destruct Hcase as (made & wa & wb & wc & Hmk & Hloop & Hrm & Hsave).
  exists wa, wb.
  destruct (mkdirSyncWithCheck_run (CryptDir.encDir self) w)
    as (made' & evs & Hmk' & _).
  assert (Hmade : made' = false -> is_Some (fs w !! CryptDir.encDir self)).
  { intros ->. unfold CryptDir.mkdirSyncWithCheck, await, existsSync in Hmk'.
    case_bool_decide as Hex; [done|]. discriminate. }
  rewrite Hmk' in Hmk. injection Hmk as <- <-.
  pose proof (encrypt_loop _ _ _ _ _ _ Hloop)
    as (_ & _ & Hname & (added & Hdd & Hlen) & _).
  rewrite Hfresh in Hname, Hdd. cbn in Hname, Hdd.
  assert (Hdirents : FSDirectory.dirents (CryptDir.fsDirectory self1) <> []).
  { rewrite Hdd. destruct added; [discriminate | done]. }
  assert (Hwc : wc = wb).
  { unfold CryptDir.removeObsoleteDirents, FSDirectory.getObsoleteDirents in Hrm.
    cbn in Hrm. by injection Hrm as <-. }
  subst wc. cbn [FSDirectory.e_dirents] in Hsave.
  rewrite (equals_nothing _ Hdirents) in Hsave.
  rewrite (saveToFile_writes _ _ _ _ Hdirents) in Hsave.
  rewrite Hname in Hsave. injection Hsave as <-.
  split; [|split; [|split; [exact Hloop|split; [exact Hdirents|split; [exact Hname|]]]]].
  - intros p Hp. cbn [fs]. destruct made'; [by rewrite lookup_insert_ne | done].
  - cbn [fs]. destruct made'; [rewrite lookup_insert_eq; eauto | by apply Hmade].
  - reflexivity.
Qed.

(** The run of [decrypt] after a first [encrypt], with what it leaves at
    every destination and in the store. *)
Lemma restore_run `{P : Platform} `{!PlatformLaws P}
    (self self1 : CryptDir.t) (masterPwd dst : string) (w w1 : World)
    (ds : list fs_Dirent) :
  CryptDir.fsDirectory self = FSDirectory.mk nilObjectId [] [] ->
  fs w !! CryptDir.getEncFilePath self nilObjectId = None ->
  (forall id, objectId id ->
              JS.startsWith (CryptDir.getEncFilePath self id)
                            (CryptDir.encDir self) = true) ->
  (forall id id', objectId id -> objectId id' ->
                  CryptDir.getEncFilePath self id = CryptDir.getEncFilePath self id' ->
                  id = id') ->
  ds <> [] ->
  CryptDir.getSrcDirents self w = Settled (Some ds) w ->
  CryptDir.encrypt self masterPwd w = Settled self1 w1 ->
  NoDup (map file.fileId (FSDirectory.files (CryptDir.fsDirectory self1))) ->
  NoDup (map (fun d => path_join dst
                         (CryptDir.getRelativePath self
                            (CryptDir.getDirentFullName d))) ds) ->
  (forall d, d ∈ ds ->
     fs w1 !! path_join dst (CryptDir.getRelativePath self
                               (CryptDir.getDirentFullName d)) = None) ->
  (forall d id, d ∈ ds -> objectId id ->
     path_join dst (CryptDir.getRelativePath self (CryptDir.getDirentFullName d))
     <> CryptDir.getEncFilePath self id) ->
  exists w2,
    CryptDir.decrypt
      (CryptDir.mk dst (CryptDir.encDir self) (FSDirectory.mk nilObjectId [] []))
      masterPwd w1
    = Settled (CryptDir.mk dst (CryptDir.encDir self) (CryptDir.fsDirectory self1))
              w2 /\
    (forall d, d ∈ ds -> isDirectory d = true ->
       fs w2 !! path_join dst (CryptDir.getRelativePath self
                                 (CryptDir.getDirentFullName d))
       = Some Directory) /\
    (forall d c, d ∈ ds -> isDirectory d = false ->
       fs w !! CryptDir.getDirentFullName d = Some (File c) ->
       exists c',
         fs w2 !! path_join dst (CryptDir.getRelativePath self
                                   (CryptDir.getDirentFullName d))
         = Some (File c') /\
         hex (sha256 c') = hex (sha256 c) /\
         exists d', d' ∈ ds /\ isDirectory d' = false /\
                    fs w !! CryptDir.getDirentFullName d' = Some (File c')) /\
    (forall p,
       (forall d, d ∈ ds ->
          p <> path_join dst (CryptDir.getRelativePath self
                                (CryptDir.getDirentFullName d))) ->
       fs w2 !! p = fs w1 !! p) /\
    (exists iv,
       length iv = 16%nat /\
       fs w2 !! CryptDir.getEncFilePath self nilObjectId
       = Some (File (AESFileCryptor.encrypted (AESFileCryptor.new masterPwd) iv
                       (list_byte_of_string
                          (JSON.stringify
                             (FSDirectory.entries_json
                                (FSDirectory.getEntries
                                   (CryptDir.fsDirectory self1)))))))) /\
    FSDirectory.defaultFileName (CryptDir.fsDirectory self1) = nilObjectId /\
    (forall e, e ∈ FSDirectory.dirents (CryptDir.fsDirectory self1) ->
       dirent.fileId e = None ->
       fs w2 !! path_join dst (dirent.path e) = Some Directory) /\
    (forall e id, e ∈ FSDirectory.dirents (CryptDir.fsDirectory self1) ->
       dirent.fileId e = Some id ->
       JS.truthy id = true /\
       exists f c,
         FSDirectory.findFileById (CryptDir.fsDirectory self1) id = Some f /\
         fs w2 !! path_join dst (dirent.path e) = Some (File c) /\
         hex (sha256 c) = file.fileHash f).
Proof.
  intros Hfresh Hnone Hstore Hinj Hne Hlisting Hrun Hids Hnodup Hmissing Hout.
  destruct (first_encrypt _ _ _ _ _ _ Hfresh Hnone Hne Hlisting Hrun)
    as (wa & wb & Hwa & _ & Hloop & Hdirents & Hname & Hw1).
  set (first := FSDirectory.mk nilObjectId [] []) in *.
  set (rel := fun d => CryptDir.getRelativePath self (CryptDir.getDirentFullName d))
    in *.
  set (listed := fun c : list byte =>
         exists d', d' ∈ ds /\ isDirectory d' = false /\
                    fs w !! CryptDir.getDirentFullName d' = Some (File c)).
  (* what the first run recorded *)
  assert (Houtside : forall d n, d ∈ ds ->
            CryptDir.getDirentFullName d
            <> CryptDir.getEncFilePath self (generatedId n)).
  { intros d n Hd Heq.
    pose proof (getSrcDirents_outside_store _ _ _ _ Hlisting Hd) as Hnot.
    rewrite Heq, (Hstore _ (generatedId_objectId n)) in Hnot. discriminate. }
  assert (Hsource : forall d, d ∈ ds ->
            fs wa !! CryptDir.getDirentFullName d
            = fs w !! CryptDir.getDirentFullName d).
  { intros d Hd. apply Hwa. intros Heq.
    pose proof (getSrcDirents_outside_store _ _ _ _ Hlisting Hd) as Hnot.
    rewrite Heq in Hnot. unfold JS.startsWith in Hnot.
    by rewrite prefix_refl in Hnot. }
  pose proof (encrypt_loop _ _ _ _ _ _ Hloop)
    as (_ & Henc & _ & _ & _ & _ & _ & Hframe & Hindex).
  destruct (encrypt_loop_closed _ _ _ _ _ _ Hloop)
    as ((added & Hdd & Hall) & Hclosed).
  { rewrite Hfresh. intros e id He. by apply elem_of_nil in He. }
  rewrite Hfresh in Hdd. cbn [FSDirectory.dirents app] in Hdd.
  destruct (encrypt_loop_first _ _ _ _ _ _ Hloop eq_refl) as [Htruthy _].
  destruct (encrypt_loop_stores listed _ _ _ _ _ _ Hloop eq_refl Hinj Hids Houtside)
    as [Hstored Hrecorded].
  { intros d c Hd Hdir Hc. exists d. rewrite Hsource in Hc by done. done. }
  { rewrite Hfresh. intros f Hf. by apply elem_of_nil in Hf. }
  { rewrite Hfresh. intros e id He. by apply elem_of_nil in He. }
  assert (Hapart : forall f,
            f ∈ FSDirectory.files (CryptDir.fsDirectory self1) ->
            CryptDir.getEncFilePath self nilObjectId
            <> CryptDir.getEncFilePath self (file.fileId f)).
  { intros f Hf Heq. destruct (Hstored f Hf) as (Hobj & Hnil & _).
    apply Hnil. symmetry.
    by apply Hinj; [apply nilObjectId_objectId | |]. }
  assert (Hback : forall e, e ∈ FSDirectory.dirents (CryptDir.fsDirectory self1) ->
            exists d, d ∈ ds /\ dirent.path e = rel d).
  { intros e He. rewrite Hdd in He.
    apply list_elem_of_lookup in He as [k Hk].
    destruct (Forall2_lookup_r _ _ _ _ _ Hall Hk) as (d & Hd & Hpath & _).
    exists d. split; [by eapply list_elem_of_lookup_2 | done]. }
  assert (Hforth : forall d, d ∈ ds ->
            exists e, e ∈ FSDirectory.dirents (CryptDir.fsDirectory self1) /\
                      dirent.path e = rel d /\
                      (isDirectory d = true -> dirent.fileId e = None)).
  { intros d Hd. apply list_elem_of_lookup in Hd as [k Hk].
    destruct (Forall2_lookup_l _ _ _ _ _ Hall Hk) as (e & He & Hpath & Hdir).
    exists e. rewrite Hdd. split; [by eapply list_elem_of_lookup_2 | done]. }
  (* the manifest is read back *)
  set (restore := CryptDir.mk dst (CryptDir.encDir self) (CryptDir.fsDirectory self1)).
  assert (Hload :
    FSDirectory.loadEntries first (CryptDir.encDir self) masterPwd w1
    = Settled (CryptDir.fsDirectory self1,
               FSDirectory.getEntries (CryptDir.fsDirectory self1)) w1).
  { rewrite (loadEntries_of_saved first (CryptDir.encDir self) masterPwd
               (map csprng (seq (drawn wb) 16))
               (FSDirectory.getEntries (CryptDir.fsDirectory self1)) w1).
    - f_equal. f_equal. destruct (CryptDir.fsDirectory self1). cbn in Hname.
      by subst.
    - by rewrite length_map, length_seq.
    - rewrite Hw1. cbn [fs]. apply lookup_insert_eq. }
  (* the loop of decrypt *)
  destruct (decrypt_loop_restores restore
              (FSDirectory.dirents (CryptDir.fsDirectory self1)) w1)
    as (w2 & Hrestore & _ & Hkept & Hdirs & Hfiles).
  { cbn [CryptDir.srcDir restore]. rewrite Hdd.
    replace (map (fun e => path_join dst (dirent.path e)) added)
      with (map (fun d => path_join dst (rel d)) ds); [exact Hnodup|].
    clear -Hall. induction Hall as [|d e ds added [Hpath _] _ IH]; [reflexivity|].
    cbn [map]. by rewrite IH, Hpath. }
  { intros e He. destruct (Hback e He) as (d & Hd & Hpath).
    cbn [CryptDir.srcDir restore]. rewrite Hpath. by apply Hmissing. }
  { intros e id f He Hf. destruct (Hback e He) as (d & Hd & Hpath).
    cbn [CryptDir.srcDir restore]. rewrite Hpath.
    apply (Hout d (file.fileId f) Hd).
    apply find_some in Hf as [Hf _]. by destruct (Hstored f Hf) as (Hobj & _). }
  { intros e id He Hid. split; [by apply (Hrecorded e)|].
    destruct (Hclosed e id He Hid) as [f Hf].
    pose proof (proj1 (find_some _ _ _ Hf)) as Hin.
    destruct (Hstored f Hin) as (Hobj & Hnil & iv & c & Hiv & Hblob & _).
    exists f, iv, c. split; [exact Hf|]. split; [exact Hiv|].
    rewrite Hw1. cbn [fs]. rewrite lookup_insert_ne; [exact Hblob|].
    by apply Hapart. }
  exists w2. split; [|split; [|split; [|split; [|split; [|split; [exact Hname|split]]]]]].
  - unfold CryptDir.decrypt, CryptDir.loadDecEntries.
    unfold await at 1. unfold await at 1.
    cbn [CryptDir.fsDirectory CryptDir.encDir]. rewrite Hload.
    unfold ret at 1.
    cbn [fst snd FSDirectory.getEntries FSDirectory.e_dirents CryptDir.srcDir].
    fold restore. unfold await at 1. rewrite Hrestore. reflexivity.
  - intros d Hd Hdir. destruct (Hforth d Hd) as (e & He & Hpath & Hnofile).
    specialize (Hdirs e He (Hnofile Hdir)).
    cbn [CryptDir.srcDir restore] in Hdirs. by rewrite Hpath in Hdirs.
  - intros d c Hd Hdir Hc.
    apply list_elem_of_lookup in Hd as [k Hk].
    destruct (Hindex k d c Hk Hdir) as (f & e & Hhash & He & Hid & Hpath).
    { rewrite Hsource; [done | by eapply list_elem_of_lookup_2]. }
    { intros id. apply Houtside. by eapply list_elem_of_lookup_2. }
    apply find_some in Hhash as [Hf Hh]. apply streq_true in Hh.
    assert (Ht : JS.truthy (file.fileId f) = true).
    { destruct (Htruthy f Hf) as [Hold|Ht]; [|done].
      rewrite Hfresh in Hold. by apply elem_of_nil in Hold. }
    unfold recorded in Hid. rewrite Ht in Hid.
    assert (Hin : e ∈ FSDirectory.dirents (CryptDir.fsDirectory self1))
      by (by eapply list_elem_of_lookup_2).
    destruct (Hclosed e (file.fileId f) Hin Hid) as [f' Hf'].
    assert (f' = f) as ->.
    { pose proof (find_some _ _ _ Hf') as [Hin' Hsame]. apply streq_true in Hsame.
      by apply (nodup_key file.fileId
                  (FSDirectory.files (CryptDir.fsDirectory self1))). }
    destruct (Hstored f Hf) as (Hobj & Hnil & iv & c' & Hiv & Hblob & Hc' & Hlisted).
    exists c'. split; [|split; [congruence | exact Hlisted]].
    specialize (Hfiles e (file.fileId f) f iv c' Hin Hid Hf' Hiv).
    cbn [CryptDir.srcDir restore] in Hfiles. rewrite Hpath in Hfiles.
    apply Hfiles. rewrite Hw1. cbn [fs]. rewrite lookup_insert_ne; [exact Hblob|].
    by apply Hapart.
  - intros p Hp. apply Hkept. intros e He.
    destruct (Hback e He) as (d & Hd & Hpath).
    cbn [CryptDir.srcDir restore]. rewrite Hpath. by apply Hp.
  - exists (map csprng (seq (drawn wb) 16)).
    split; [by rewrite length_map, length_seq|].
    rewrite Hkept.
    + rewrite Hw1. cbn [fs]. apply lookup_insert_eq.
    + intros e He. destruct (Hback e He) as (d & Hd & Hpath).
      cbn [CryptDir.srcDir restore]. rewrite Hpath.
      intros Heq. by apply (Hout d nilObjectId Hd nilObjectId_objectId).
  - intros e He Hid. by apply (Hdirs e He Hid).
  - intros e id He Hid. split; [by apply (Hrecorded e)|].
    destruct (Hclosed e id He Hid) as [f Hf].
    pose proof (proj1 (find_some _ _ _ Hf)) as Hin.
    destruct (Hstored f Hin) as (Hobj & Hnil & iv & c & Hiv & Hblob & Hhash & _).
    exists f, c. split; [exact Hf|]. split; [|exact Hhash].
    apply (Hfiles e id f iv c He Hid Hf Hiv).
    rewrite Hw1. cbn [fs]. rewrite lookup_insert_ne; [exact Hblob|].
    by apply Hapart.
Qed.

(** X21: [decrypt] restores what [encrypt] stored. After a first run of a
    new [CryptDir] over a listing with entries (store without manifest,
    object identifiers kept under distinct paths that start with the store
    directory, file identifiers that did not collide), [decrypt] of a new
    [CryptDir] on the same store and password, into an existing directory
    and destinations at which nothing exists, outside the store, pairwise
    distinct and each directly below the destination directory or below
    the destination of a directory listed before it, settles with the
    manifest of the first run; it leaves a directory for every listed
    directory and, for every listed file, a file whose content has the
    SHA-256 digest of the source file and is the content of a listed source
    file (the file itself unless two contents share a digest). Every other
    path is as the first run left it. *)
Theorem decrypt_restores_encrypted_tree `{P : Platform} `{!PlatformLaws P}
    (self self1 : CryptDir.t) (masterPwd dst : string) (w w1 : World)
    (ds : list fs_Dirent) :
  CryptDir.fsDirectory self = FSDirectory.mk nilObjectId [] [] ->
  fs w !! CryptDir.getEncFilePath self nilObjectId = None ->
  (forall id, objectId id ->
              JS.startsWith (CryptDir.getEncFilePath self id)
                            (CryptDir.encDir self) = true) ->
  (forall id id', objectId id -> objectId id' ->
                  CryptDir.getEncFilePath self id = CryptDir.getEncFilePath self id' ->
                  id = id') ->
  ds <> [] ->
  CryptDir.getSrcDirents self w = Settled (Some ds) w ->
  CryptDir.encrypt self masterPwd w = Settled self1 w1 ->
  NoDup (map file.fileId (FSDirectory.files (CryptDir.fsDirectory self1))) ->
  NoDup (map (fun d => path_join dst
                         (CryptDir.getRelativePath self
                            (CryptDir.getDirentFullName d))) ds) ->
  (forall d, d ∈ ds ->
     fs w1 !! path_join dst (CryptDir.getRelativePath self
                               (CryptDir.getDirentFullName d)) = None) ->
  (forall d id, d ∈ ds -> objectId id ->
     path_join dst (CryptDir.getRelativePath self (CryptDir.getDirentFullName d))
     <> CryptDir.getEncFilePath self id) ->
  fs w1 !! dst = Some Directory ->
  (forall k d, ds !! k = Some d ->
     let dest := fun x => path_join dst (CryptDir.getRelativePath self
                                           (CryptDir.getDirentFullName x)) in
     path_dirname (dest d) = dst \/
     exists k' d', (k' < k)%nat /\ ds !! k' = Some d' /\
                   isDirectory d' = true /\ path_dirname (dest d) = dest d') ->
  exists w2,
    CryptDir.decrypt
      (CryptDir.mk dst (CryptDir.encDir self) (FSDirectory.mk nilObjectId [] []))
      masterPwd w1
    = Settled (CryptDir.mk dst (CryptDir.encDir self) (CryptDir.fsDirectory self1))
              w2 /\
    (forall d, d ∈ ds -> isDirectory d = true ->
       fs w2 !! path_join dst (CryptDir.getRelativePath self
                                 (CryptDir.getDirentFullName d))
       = Some Directory) /\
    (forall d c, d ∈ ds -> isDirectory d = false ->
       fs w !! CryptDir.getDirentFullName d = Some (File c) ->
       exists c',
         fs w2 !! path_join dst (CryptDir.getRelativePath self
                                   (CryptDir.getDirentFullName d))
         = Some (File c') /\
         hex (sha256 c') = hex (sha256 c) /\
         exists d', d' ∈ ds /\ isDirectory d' = false /\
                    fs w !! CryptDir.getDirentFullName d' = Some (File c')) /\
    (forall p,
       (forall d, d ∈ ds ->
          p <> path_join dst (CryptDir.getRelativePath self
                                (CryptDir.getDirentFullName d))) ->
       fs w2 !! p = fs w1 !! p).
Proof.
  intros Hfresh Hnone Hstore Hinj Hne Hlisting Hrun Hids Hnodup Hmissing Hout _ _.
  destruct (restore_run self self1 masterPwd dst w w1 ds)
    as (w2 & Hdecrypt & Hdirs & Hfiles & Hkept & _); try done.
  by exists w2.
Qed.

(** The sample tree, encrypted and restored to the directory D:\out. *)
Lemma decrypt_restores_encrypted_tree_witness :
  exists self1 w2 c',
    CryptDir.encrypt (P := Sample.platform) Scenario.cryptDir "master"
      Scenario.tree_out
    = Settled self1 Scenario.synced_out /\
    CryptDir.decrypt (P := Sample.platform)
      (CryptDir.mk "D:\out" "C:\src\.cryptdir" (FSDirectory.mk nilObjectId [] []))
      "master" Scenario.synced_out
    = Settled
        (CryptDir.mk "D:\out" "C:\src\.cryptdir" (CryptDir.fsDirectory self1))
        w2 /\
    fs w2 !! "D:\out\c.txt" = Some (File c') /\
    hex (Sample.sha256 c') = hex (Sample.sha256 (list_byte_of_string "other")).
Proof.
  assert (Hrun : exists self1,
    CryptDir.encrypt (P := Sample.platform) Scenario.cryptDir "master"
      Scenario.tree_out
    = Settled self1 Scenario.synced_out /\
    NoDup (map file.fileId (FSDirectory.files (CryptDir.fsDirectory self1)))).
  { eexists. split; [vm_compute; reflexivity|].
    refine (bool_decide_unpack _ _). vm_compute. exact I. }
  destruct Hrun as (self1 & Hrun & Hids).
  destruct (decrypt_restores_encrypted_tree (P := Sample.platform)
              (PlatformLaws0 := Sample_laws) Scenario.cryptDir self1 "master"
              "D:\out" Scenario.tree_out Scenario.synced_out
              [mkDirent "a.txt" "C:\src" false; mkDirent "b.txt" "C:\src" false;
               mkDirent "c.txt" "C:\src" false])
    as (w2 & Hdecrypt & _ & Hfiles & _).
  - reflexivity.
  - vm_compute. reflexivity.
  - intros id _. reflexivity.
  - intros id id' _ _ Heq.
    destruct (decide (id = id')) as [Hsame|Hne]; [exact Hsame|].
    destruct (Sample_paths_distinct "C:\src\.cryptdir" id id' Hne Heq).
  - discriminate.
  - vm_compute. reflexivity.
  - exact Hrun.
  - exact Hids.
  - refine (bool_decide_unpack _ _). vm_compute. exact I.
  - intros d Hd.
    repeat (apply elem_of_cons in Hd as [->|Hd]; [vm_compute; reflexivity|]).
    apply elem_of_nil in Hd. destruct Hd.
  - intros d id Hd _.
    repeat (apply elem_of_cons in Hd as [->|Hd];
            [intros Heq; vm_compute in Heq; discriminate Heq|]).
    apply elem_of_nil in Hd. destruct Hd.
  - vm_compute. reflexivity.
  - intros k d Hk. left.
    destruct k as [|[|[|k]]]; [| | |discriminate Hk];
      injection Hk as <-; vm_compute; reflexivity.
  - destruct (Hfiles (mkDirent "c.txt" "C:\src" false) (list_byte_of_string "other"))
      as (c' & Hc' & Hdigest & _).
    + right. right. left.
    + reflexivity.
    + vm_compute. reflexivity.
    + exists self1, w2, c'. split; [exact Hrun|]. split; [exact Hdecrypt|].
      split; [exact Hc' | exact Hdigest].
Defined.

Lemma decrypt_loop_skips `{P : Platform} (self : CryptDir.t) (es : list dirent.t)
    (w : World) :
  (forall e, e ∈ es -> dirent.fileId e = None ->
     is_Some (fs w !! path_join (CryptDir.srcDir self) (dirent.path e))) ->
  (forall e id, e ∈ es -> dirent.fileId e = Some id ->
     JS.truthy id = true /\
     exists f c,
       FSDirectory.findFileById (CryptDir.fsDirectory self) id = Some f /\
       fs w !! path_join (CryptDir.srcDir self) (dirent.path e) = Some (File c) /\
       hex (sha256 c) = file.fileHash f) ->
  forOf (fun _ e => CryptDir.decryptDirent self e) es tt w = Settled tt w.
Proof.
  induction es as [|e es IH]; intros Hdirs Hfiles; [reflexivity|].
  rewrite forOf_cons.
  assert (Hskip : CryptDir.decryptDirent self e w = Settled tt w).
  { unfold CryptDir.decryptDirent. unfold await at 1, existsSync.
    destruct (dirent.fileId e) as [id|] eqn:Hid.
    - destruct (Hfiles e id) as (Htruthy & f & c & Hfind & Hdest & Hhash);
        [left | done |].
      rewrite Htruthy, Hfind. rewrite bool_decide_eq_true_2 by eauto.
      unfold CryptDir.decryptFile. cbn [negb]. unfold await at 1.
      rewrite (await_run _ _ _ _ _ (calcFileHash_run _ _ _ Hdest)).
      unfold ret at 1. rewrite Hhash.
      by rewrite (proj2 (streq_true _ _) eq_refl).
    - rewrite bool_decide_eq_true_2; [reflexivity|]. apply Hdirs; [left | done]. }
  rewrite (await_run _ _ _ _ _ Hskip). apply IH.
  - intros e0 He0. apply Hdirs. by right.
  - intros e0 id He0. apply Hfiles. by right.
Qed.

(** X22: restoring again changes nothing. Under the conditions of X21, a
    second [decrypt] on the world the first one left, by a new [CryptDir]
    or by the same one, settles in exactly that world with the same
    manifest: every destination already holds the content of the recorded
    hash or is there as a directory, so nothing is read from the store,
    written or logged. *)
Theorem decrypt_again_changes_nothing `{P : Platform} `{!PlatformLaws P}
    (self self1 : CryptDir.t) (masterPwd dst : string) (w w1 : World)
    (ds : list fs_Dirent) :
  CryptDir.fsDirectory self = FSDirectory.mk nilObjectId [] [] ->
  fs w !! CryptDir.getEncFilePath self nilObjectId = None ->
  (forall id, objectId id ->
              JS.startsWith (CryptDir.getEncFilePath self id)
                            (CryptDir.encDir self) = true) ->
  (forall id id', objectId id -> objectId id' ->
                  CryptDir.getEncFilePath self id = CryptDir.getEncFilePath self id' ->
                  id = id') ->
  ds <> [] ->
  CryptDir.getSrcDirents self w = Settled (Some ds) w ->
  CryptDir.encrypt self masterPwd w = Settled self1 w1 ->
  NoDup (map file.fileId (FSDirectory.files (CryptDir.fsDirectory self1))) ->
  NoDup (map (fun d => path_join dst
                         (CryptDir.getRelativePath self
                            (CryptDir.getDirentFullName d))) ds) ->
  (forall d, d ∈ ds ->
     fs w1 !! path_join dst (CryptDir.getRelativePath self
                               (CryptDir.getDirentFullName d)) = None) ->
  (forall d id, d ∈ ds -> objectId id ->
     path_join dst (CryptDir.getRelativePath self (CryptDir.getDirentFullName d))
     <> CryptDir.getEncFilePath self id) ->
  fs w1 !! dst = Some Directory ->
  (forall k d, ds !! k = Some d ->
     let dest := fun x => path_join dst (CryptDir.getRelativePath self
                                           (CryptDir.getDirentFullName x)) in
     path_dirname (dest d) = dst \/
     exists k' d', (k' < k)%nat /\ ds !! k' = Some d' /\
                   isDirectory d' = true /\ path_dirname (dest d) = dest d') ->
  exists restored w2,
    CryptDir.decrypt
      (CryptDir.mk dst (CryptDir.encDir self) (FSDirectory.mk nilObjectId [] []))
      masterPwd w1 = Settled restored w2 /\
    CryptDir.decrypt
      (CryptDir.mk dst (CryptDir.encDir self) (FSDirectory.mk nilObjectId [] []))
      masterPwd w2 = Settled restored w2 /\
    CryptDir.decrypt restored masterPwd w2 = Settled restored w2.
Proof.
  intros Hfresh Hnone Hstore Hinj Hne Hlisting Hrun Hids Hnodup Hmissing Hout _ _.
  destruct (restore_run self self1 masterPwd dst w w1 ds)
    as (w2 & Hdecrypt & _ & _ & _ & (iv & Hiv & Hmanifest) & Hname & Hdirs & Hfiles);
    try done.
  eexists _, w2. split; [exact Hdecrypt|].
  assert (Hagain : forall into,
    FSDirectory.defaultFileName into = nilObjectId ->
    CryptDir.decrypt (CryptDir.mk dst (CryptDir.encDir self) into) masterPwd w2
    = Settled (CryptDir.mk dst (CryptDir.encDir self) (CryptDir.fsDirectory self1))
              w2).
  { intros into Hinto.
    assert (Hload :
      FSDirectory.loadEntries into (CryptDir.encDir self) masterPwd w2
      = Settled (CryptDir.fsDirectory self1,
                 FSDirectory.getEntries (CryptDir.fsDirectory self1)) w2).
    { rewrite (loadEntries_of_saved into (CryptDir.encDir self) masterPwd iv
                 (FSDirectory.getEntries (CryptDir.fsDirectory self1)) w2 Hiv).
      - f_equal. f_equal. rewrite Hinto.
        destruct (CryptDir.fsDirectory self1). cbn in Hname. by subst.
      - by rewrite Hinto. }
    unfold CryptDir.decrypt, CryptDir.loadDecEntries.
    unfold await at 1. unfold await at 1.
    cbn [CryptDir.fsDirectory CryptDir.encDir]. rewrite Hload.
    unfold ret at 1.
    cbn [fst snd FSDirectory.getEntries FSDirectory.e_dirents CryptDir.srcDir].
    unfold await at 1. rewrite decrypt_loop_skips; [reflexivity| |].
    - intros e He Hid. cbn [CryptDir.srcDir]. rewrite (Hdirs e He Hid). eauto.
    - intros e id He Hid. cbn [CryptDir.srcDir CryptDir.fsDirectory].
      by apply Hfiles. }
  split; [by apply Hagain | by apply Hagain].
Qed.

(** The sample tree restored to the directory D:\out twice. *)
Lemma decrypt_again_changes_nothing_witness :
  exists restored w2,
    CryptDir.decrypt (P := Sample.platform)
      (CryptDir.mk "D:\out" "C:\src\.cryptdir" (FSDirectory.mk nilObjectId [] []))
      "master" Scenario.synced_out = Settled restored w2 /\
    CryptDir.decrypt (P := Sample.platform)
      (CryptDir.mk "D:\out" "C:\src\.cryptdir" (FSDirectory.mk nilObjectId [] []))
      "master" w2 = Settled restored w2.
Proof.
  assert (Hrun : exists self1,
    CryptDir.encrypt (P := Sample.platform) Scenario.cryptDir "master"
      Scenario.tree_out
    = Settled self1 Scenario.synced_out /\
    NoDup (map file.fileId (FSDirectory.files (CryptDir.fsDirectory self1)))).
  { eexists. split; [vm_compute; reflexivity|].
    refine (bool_decide_unpack _ _). vm_compute. exact I. }
  destruct Hrun as (self1 & Hrun & Hids).
  destruct (decrypt_again_changes_nothing (P := Sample.platform)
              (PlatformLaws0 := Sample_laws) Scenario.cryptDir self1 "master"
              "D:\out" Scenario.tree_out Scenario.synced_out
              [mkDirent "a.txt" "C:\src" false; mkDirent "b.txt" "C:\src" false;
               mkDirent "c.txt" "C:\src" false])
    as (restored & w2 & Hfirst & Hsecond & _).
  - reflexivity.
  - vm_compute. reflexivity.
  - intros id _. reflexivity.
  - intros id id' _ _ Heq.
    destruct (decide (id = id')) as [Hsame|Hne]; [exact Hsame|].
    destruct (Sample_paths_distinct "C:\src\.cryptdir" id id' Hne Heq).
  - discriminate.
  - vm_compute. reflexivity.
  - exact Hrun.
  - exact Hids.
  - refine (bool_decide_unpack _ _). vm_compute. exact I.
  - intros d Hd.
    repeat (apply elem_of_cons in Hd as [->|Hd]; [vm_compute; reflexivity|]).
    apply elem_of_nil in Hd. destruct Hd.
  - intros d id Hd _.
    repeat (apply elem_of_cons in Hd as [->|Hd];
            [intros Heq; vm_compute in Heq; discriminate Heq|]).
    apply elem_of_nil in Hd. destruct Hd.
  - vm_compute. reflexivity.
  - intros k d Hk. left.
    destruct k as [|[|[|k]]]; [| | |discriminate Hk];
      injection Hk as <-; vm_compute; reflexivity.
  - exists restored, w2. split; [exact Hfirst | exact Hsecond].
Defined.

(** ** cryptDir.mjs: what a first run reports *)

Lemma logged_app (a b : list event) : logged (a ++ b) = (logged a ++ logged b)%list.
Proof. apply omap_app. Qed.

Lemma encryptDirent_first_log `{P : Platform} (self self' : CryptDir.t)
    (d : fs_Dirent) (currDirectory : FSDirectory.t) (w w' : World) :
  CryptDir.encryptDirent self d currDirectory w = Settled self' w' ->
  FSDirectory.dirents currDirectory = [] ->
  FSDirectory.files currDirectory = [] ->
  exists evs,
    journal w' = (journal w ++ evs)%list /\
    logged evs
    = ["Added" +:+ " " +:+ (if isDirectory d then "directory" else "file")
       +:+ " '" +:+ CryptDir.getRelativePath self (CryptDir.getDirentFullName d)
       +:+ "'"].
Proof.
  unfold CryptDir.encryptDirent. fold (CryptDir.getDirentFullName d).
  intros ([fileId file] & w1 & Hparams & Hrest)%await_settled Hnone Hempty.
  apply await_settled in Hrest as ([] & w2 & Hlog & Hret).
  injection Hret as <- <-.
  unfold CryptDir.logDirentEncryption, FSDirectory.findDirent in Hlog.
  rewrite Hnone in Hlog. cbn [JS.find] in Hlog.
  unfold CryptDir.logDirentProc, log, record in Hlog. injection Hlog as <-.
  cbn [journal].
  assert (Hw1 : exists pre, journal w1 = (journal w ++ pre)%list /\ logged pre = []).
  { destruct (isDirectory d) eqn:Hdir; simpl in Hparams.
    - injection Hparams as <- <- <-. exists []. by rewrite app_nil_r.
    - destruct (encryptFile_settled _ _ _ _ _ _ Hparams) as [content Hfile].
      destruct (FSDirectory.findFileByHash (CryptDir.fsDirectory self)
                  (hex (sha256 content))) as [f0|] eqn:Hs.
      + rewrite (encryptFile_known _ _ _ _ _ _ Hfile Hs) in Hparams.
        injection Hparams as <- <- <-. exists []. by rewrite app_nil_r.
      + assert (Hc : FSDirectory.findFileByHash currDirectory
                       (hex (sha256 content)) = None)
          by (unfold FSDirectory.findFileByHash; by rewrite Hempty).
        rewrite (encryptFile_fresh _ _ _ _ _ Hfile Hs Hc) in Hparams.
        injection Hparams as <- <- <-. eexists [_]. split; reflexivity. }
  destruct Hw1 as (pre & -> & Hpre).
  eexists. split; [by rewrite <- app_assoc|].
  rewrite logged_app, Hpre. reflexivity.
Qed.

Lemma encrypt_loop_first_log `{P : Platform} (currDirectory : FSDirectory.t)
    (ds : list fs_Dirent) :
  forall (self self' : CryptDir.t) (w w' : World),
  forOf (fun s x => CryptDir.encryptDirent s x currDirectory) ds self w
    = Settled self' w' ->
  FSDirectory.dirents currDirectory = [] ->
  FSDirectory.files currDirectory = [] ->
  exists evs,
    journal w' = (journal w ++ evs)%list /\
    logged evs
    = map (fun d => "Added" +:+ " "
                    +:+ (if isDirectory d then "directory" else "file")
                    +:+ " '"
                    +:+ CryptDir.getRelativePath self (CryptDir.getDirentFullName d)
                    +:+ "'") ds.
Proof.
  induction ds as [|d ds IH]; intros self self' w w' Hrun Hnone Hempty.
  - injection Hrun as <- <-. exists []. by rewrite app_nil_r.
  - rewrite forOf_cons in Hrun.
    apply await_settled in Hrun as (self1 & w1 & Hstep & Hrest).
    pose proof (encryptDirent_summary _ _ _ _ _ _ Hstep) as (Hsrc & _).
    destruct (encryptDirent_first_log _ _ _ _ _ _ Hstep Hnone Hempty)
      as (evs1 & Hj1 & Hl1).
    destruct (IH _ _ _ _ Hrest Hnone Hempty) as (evs & Hj & Hl).
    exists (evs1 ++ evs)%list. split; [by rewrite Hj, Hj1, app_assoc|].
    rewrite logged_app, Hl1, Hl. cbn [map app]. f_equal.
    apply map_ext. intros d0. unfold CryptDir.getRelativePath. by rewrite Hsrc.
Qed.

(** X23: a first run reports every listed entry once. For a new [CryptDir]
    on a store without manifest and a listing with entries, the messages a
    completed [encrypt] logs are exactly one line "Added file '<path>'" or
    "Added directory '<path>'" per listed entry, in the order of the
    listing, with the relative path; nothing else is logged. *)
Theorem first_encrypt_reports_every_entry `{P : Platform}
    (self self1 : CryptDir.t) (masterPwd : string) (w w1 : World)
    (ds : list fs_Dirent) :
  CryptDir.fsDirectory self = FSDirectory.mk nilObjectId [] [] ->
  fs w !! CryptDir.getEncFilePath self nilObjectId = None ->
  ds <> [] ->
  CryptDir.getSrcDirents self w = Settled (Some ds) w ->
  CryptDir.encrypt self masterPwd w = Settled self1 w1 ->
  exists evs,
    journal w1 = (journal w ++ evs)%list /\
    logged evs
    = map (fun d => "Added" +:+ " "
                    +:+ (if isDirectory d then "directory" else "file")
                    +:+ " '"
                    +:+ CryptDir.getRelativePath self (CryptDir.getDirentFullName d)
                    +:+ "'") ds.
Proof.
  intros Hfresh Hnone Hne Hlisting Hrun.
  assert (Hload0 :
    FSDirectory.loadEntries (FSDirectory.mk nilObjectId [] [])
      (CryptDir.encDir self) masterPwd w
    = Settled (FSDirectory.mk nilObjectId [] [], FSDirectory.mkEntries [] []) w)
    by (by apply loadEntries_absent).
  apply encrypt_settled in Hrun
    as (previous & entries & listing & Hload & Hlisting' & Hcase).
  rewrite Hload0 in Hload. injection Hload as <- <-.
  rewrite Hlisting in Hlisting'. injection Hlisting' as <-.
  destruct ds as [|d ds]; [done|].
  destruct Hcase as (made & wa & wb & wc & Hmk & Hloop & Hrm & Hsave).
  destruct (mkdirSyncWithCheck_run (CryptDir.encDir self) w)
    as (made' & evs0 & Hmk' & Hev0).
  rewrite Hmk' in Hmk. injection Hmk as <- <-.
  destruct (encrypt_loop_first_log _ _ _ _ _ _ Hloop eq_refl eq_refl)
    as (evs & Hj & Hl).
  pose proof (encrypt_loop _ _ _ _ _ _ Hloop)
    as (_ & _ & _ & (added & Hdd & Hlen) & _).
  rewrite Hfresh in Hdd. cbn in Hdd.
  assert (Hdirents : FSDirectory.dirents (CryptDir.fsDirectory self1) <> []).
  { rewrite Hdd. destruct added; [discriminate | done]. }
  assert (Hwc : wc = wb).
  { unfold CryptDir.removeObsoleteDirents, FSDirectory.getObsoleteDirents in Hrm.
    cbn in Hrm. by injection Hrm as <-. }
  subst wc. cbn [FSDirectory.e_dirents] in Hsave.
  rewrite (equals_nothing _ Hdirents) in Hsave.
  rewrite (saveToFile_writes _ _ _ _ Hdirents) in Hsave.
  injection Hsave as <-. cbn [journal] in *.
  eexists. split; [rewrite Hj, <- !app_assoc; reflexivity|].
  rewrite !logged_app, Hl.
  assert (Hnolog : logged evs0 = []).
  { clear -Hev0. induction Hev0 as [|e l -> _ IH]; [reflexivity|]. exact IH. }
  rewrite Hnolog. cbn [app]. apply app_nil_r.
Qed.

Lemma first_encrypt_reports_every_entry_witness :
  exists self1 evs,
    CryptDir.encrypt (P := Sample.platform) Scenario.cryptDir "master" Sample.tree
    = Settled self1 Scenario.synced /\
    journal Scenario.synced = (journal Sample.tree ++ evs)%list /\
    logged evs
    = ["Added file 'a.txt'"; "Added file 'b.txt'"; "Added file 'c.txt'"].
Proof.
  assert (Hrun : exists self1,
    CryptDir.encrypt (P := Sample.platform) Scenario.cryptDir "master" Sample.tree
    = Settled self1 Scenario.synced) by (eexists; vm_compute; reflexivity).
  destruct Hrun as (self1 & Hrun).
  destruct (first_encrypt_reports_every_entry (P := Sample.platform)
              Scenario.cryptDir self1 "master" Sample.tree Scenario.synced
              [mkDirent "a.txt" "C:\src" false; mkDirent "b.txt" "C:\src" false;
               mkDirent "c.txt" "C:\src" false])
    as (evs & Hjournal & Hlogged).
  - reflexivity.
  - vm_compute. reflexivity.
  - discriminate.
  - vm_compute. reflexivity.
  - exact Hrun.
  - exists self1, evs. split; [exact Hrun|]. split; [exact Hjournal | exact Hlogged].
Defined.
